(** * orderbook-reflex: the price-process simulator, embedded and verified

    A shallow embedding of the simulation core of the repository
    (RegimeScheduler.ts, BreakoutNotifier.ts, QuoteModel.ts, PriceModel.ts and
    MarketScenario.ts) together with the properties its specification states.

    Modelling conventions.
    - The embedding has two layers.  In the first, a JavaScript [number] is
      an exact rational ([Q]); [===] and the order comparisons on numbers
      are [Qeq_bool], [Qle_bool] and [Qltb].  This layer carries the whole
      program (scheduler, notifier, model, generator, price model) and is
      where structure, order and bounds with slack are proved; rounding
      error, NaN and the infinities are outside it.
    - In the second layer ([Module Double]) a [number] is what JavaScript
      computes with, an IEEE-754 binary64 float, with the operations of the
      kernel's primitive floats.  It carries the numeric price path (tick
      sampling, the quote generator, the recorded mid and pivot detection,
      the draw of the breakout start time), and is where a property that
      depends on the last digit is decided: equality of computed prices,
      rounding to the cent, the ends of half-open intervals.
    - Each use of the ambient random source [Math.random()] is an explicit
      argument (a draw [u] with [0 <= u < 1]); each reading of
      [performance.now()] is an explicit argument as well.
    - Objects mutated in place become records threaded through the functions
      that mutate them; a method [m] of class [C] is [C.m this args] and
      returns the new [this] next to its result.
    - Event listeners are opaque handles; [emit] returns the deliveries it
      makes, in registration order. *)

From Stdlib Require Import Floats.
From Stdlib Require Import QArith Qround Qabs Qminmax Lqa Lia ZArith Sorted.
From stdpp Require Import gmap strings list.

Open Scope Q_scope.

(** Decimal literals of doubles stand for the nearest double, as in
    JavaScript. *)
#[global] Set Warnings "-inexact-float".

(** ** JavaScript numbers and the [Math] functions the sources use *)

Module JS.

(** [x < y] on numbers. *)
Definition Qltb (x y : Q) : bool := negb (Qle_bool y x).

(** [Math.round]: the nearest integer, halves rounded towards +infinity. *)
Definition Math_round (x : Q) : Q := inject_Z (Qfloor (x + (1 # 2))).

(** [Math.floor]. *)
Definition Math_floor (x : Q) : Q := inject_Z (Qfloor x).

(** [Math.sign]: 1, -1 or 0. *)
Definition Math_sign (x : Q) : Q :=
  if Qltb 0 x then 1 else if Qltb x 0 then -1 else 0.

(** [Math.max(...xs)] and [Math.min(...xs)] over a spread array.  On the
    empty array JavaScript answers -Infinity (resp. +Infinity), which is
    [None] here: it is strictly equal to no finite number. *)
Definition Math_max_list (xs : list Q) : option Q :=
  match xs with
  | [] => None
  | x :: rest => Some (fold_left Qmax rest x)
  end.

Definition Math_min_list (xs : list Q) : option Q :=
  match xs with
  | [] => None
  | x :: rest => Some (fold_left Qmin rest x)
  end.

(** [x === m] where [m] may be an infinity. *)
Definition strictEqBound (x : Q) (m : option Q) : bool :=
  match m with
  | Some y => Qeq_bool x y
  | None => false
  end.

(** [x === y] on numbers is decidable. *)
#[global] Instance Qeq_decision (x y : Q) : Decision (x == y) := Qeq_dec x y.

End JS.

(** ** MarketScenario.ts *)

Module MarketScenario.

Inductive BreakoutType := bullish | bearish | fake | none.

Inductive BreakoutSpeed := instant | gradual | accelerating.

#[global] Instance BreakoutType_eq_dec : EqDecision BreakoutType.
Proof. solve_decision. Defined.

Module FakeBreakoutConfig.
Record t := mk {
  timeWindow : Q * Q;
  magnitude : Q;
  reversalSpeed : Q
}.
End FakeBreakoutConfig.

(** Of the advanced features only [fakeBreakouts] is read by the
    simulation core; the other optional fields are inert. *)
Record AdvancedFeaturesConfig := {
  fakeBreakouts : option (list FakeBreakoutConfig.t)
}.

Record BreakoutConfig := {
  type : BreakoutType;
  timeWindow : Q * Q;
  magnitude : Q;
  speed : BreakoutSpeed;
  preWarning : option Q;
  notification : bool
}.

Record SpreadConfig := {
  base : Q;
  volatilityMultiplier : Q;
  minSpread : Q;
  maxSpread : Q
}.

Record t := {
  startPrice : Q;
  duration : Q;
  breakout : BreakoutConfig;
  spread : SpreadConfig;
  advanced : option AdvancedFeaturesConfig;
  recordReactionTime : bool
}.

(** The factory presets, called without overriding options. *)
Definition createBullishBreakout : t := {|
  startPrice := 100.0;
  duration := 60;
  breakout := {| type := bullish; timeWindow := (20, 40); magnitude := 1.0;
                 speed := gradual; preWarning := Some 5;
                 notification := true |};
  spread := {| base := 0.02; volatilityMultiplier := 1.5;
               minSpread := 0.01; maxSpread := 0.10 |};
  advanced := None;
  recordReactionTime := true
|}.

Definition createBearishBreakout : t := {|
  startPrice := 100.0;
  duration := 60;
  breakout := {| type := bearish; timeWindow := (20, 40);
                 magnitude := - 1.0; speed := gradual;
                 preWarning := Some 5; notification := true |};
  spread := {| base := 0.02; volatilityMultiplier := 1.5;
               minSpread := 0.01; maxSpread := 0.10 |};
  advanced := None;
  recordReactionTime := true
|}.

Definition createFakeBreakoutScenario : t := {|
  startPrice := 100.0;
  duration := 90;
  breakout := {| type := bullish; timeWindow := (50, 70); magnitude := 1.0;
                 speed := gradual; preWarning := Some 5;
                 notification := true |};
  spread := {| base := 0.02; volatilityMultiplier := 1.5;
               minSpread := 0.01; maxSpread := 0.10 |};
  advanced := Some {| fakeBreakouts := Some [
    FakeBreakoutConfig.mk (15, 25) 0.5 5 ] |};
  recordReactionTime := true
|}.

Definition createRangingScenario : t := {|
  startPrice := 100.0;
  duration := 60;
  breakout := {| type := none; timeWindow := (0, 0); magnitude := 0;
                 speed := gradual; preWarning := None;
                 notification := false |};
  spread := {| base := 0.02; volatilityMultiplier := 1.0;
               minSpread := 0.01; maxSpread := 0.05 |};
  advanced := None;
  recordReactionTime := false
|}.

(** [Partial<MarketScenario>]: the options a factory may be given; a field
    that is present overrides the preset's. *)
Module Partial.
Record t := {
  startPrice : option Q;
  duration : option Q;
  breakout : option BreakoutConfig;
  spread : option SpreadConfig;
  advanced : option (option AdvancedFeaturesConfig);
  recordReactionTime : option bool
}.
End Partial.

(** [{ ...preset, ...options }]: a shallow merge, field by field. *)
Definition withOptions (preset : t) (options : option Partial.t) : t :=
  match options with
  | None => preset
  | Some o => {|
      startPrice := default (startPrice preset) (Partial.startPrice o);
      duration := default (duration preset) (Partial.duration o);
      breakout := default (breakout preset) (Partial.breakout o);
      spread := default (spread preset) (Partial.spread o);
      advanced := default (advanced preset) (Partial.advanced o);
      recordReactionTime :=
        default (recordReactionTime preset) (Partial.recordReactionTime o) |}
  end.

(** The factories called with options. *)
Definition createBullishBreakoutWith (options : option Partial.t) : t :=
  withOptions createBullishBreakout options.

Definition createBearishBreakoutWith (options : option Partial.t) : t :=
  withOptions createBearishBreakout options.

Definition createFakeBreakoutScenarioWith (options : option Partial.t) : t :=
  withOptions createFakeBreakoutScenario options.

Definition createRangingScenarioWith (options : option Partial.t) : t :=
  withOptions createRangingScenario options.

End MarketScenario.

(** ** RegimeScheduler.ts *)

Module RegimeScheduler.

(** [Regime] is the tuple [[Momentum, Breakout]], e.g. [("N", "O")]. *)
Definition Regime : Type := string * string.

Inductive Sign := U | D | F.

Module RegimeSegment.
Record t := {
  startTime : Q;
  endTime : Q;
  regime : Regime;
  sign : Sign;
  targetPrice : option Q;
  description : string
}.
End RegimeSegment.

Module BreakoutEvent.
Record t := {
  startTime : Q;
  endTime : Q;
  type : MarketScenario.BreakoutType;
  targetPrice : Q;
  speed : MarketScenario.BreakoutSpeed
}.
End BreakoutEvent.

(** The element type of the local array [allEvents] of [schedule]. *)
Inductive EventKind := kind_fake | kind_main.

Module Event.
Record t := {
  type : EventKind;
  startTime : Q;
  endTime : Q;
  targetPrice : Q;
  reversalSpeed : option Q
}.
End Event.

Record t := {
  timeline : list RegimeSegment.t;
  scenario : option MarketScenario.t;
  breakoutEvent : option BreakoutEvent.t
}.

(** A freshly constructed scheduler. *)
Definition new : t :=
  {| timeline := []; scenario := None; breakoutEvent := None |}.

(** The [default] arm of the source's switch is unreachable for a value of
    type [BreakoutSpeed]. *)
Definition calculateBreakoutDuration
    (speed : MarketScenario.BreakoutSpeed) (magnitudePercent : Q) : Q :=
  match speed with
  | MarketScenario.instant => 2
  | MarketScenario.gradual =>
      Qmax 8 (Qmin 30 (10 + magnitudePercent * 5))
  | MarketScenario.accelerating =>
      Qmax 10 (Qmin 40 (15 + magnitudePercent * 8))
  end.

(** Phase 1 of [schedule]: the main breakout, drawn with [u].  In exact
    arithmetic a draw below 1 keeps the start time below [maxTime]; in
    double precision the sum can round to [maxTime] itself, see
    [Double.RegimeScheduler.breakoutStartTime]. *)
Definition mainBreakout (scenario : MarketScenario.t) (u : Q)
    : BreakoutEvent.t :=
  let breakout := MarketScenario.breakout scenario in
  let '(minTime, maxTime) := MarketScenario.timeWindow breakout in
  let breakoutStartTime := minTime + u * (maxTime - minTime) in
  let breakoutDuration :=
    calculateBreakoutDuration (MarketScenario.speed breakout)
      (Qabs (MarketScenario.magnitude breakout)) in
  let breakoutEndTime :=
    Qmin (breakoutStartTime + breakoutDuration)
         (MarketScenario.duration scenario) in
  let targetPrice :=
    MarketScenario.startPrice scenario
    * (1 + MarketScenario.magnitude breakout / 100) in
  {| BreakoutEvent.startTime := breakoutStartTime;
     BreakoutEvent.endTime := breakoutEndTime;
     BreakoutEvent.type := MarketScenario.type breakout;
     BreakoutEvent.targetPrice := targetPrice;
     BreakoutEvent.speed := MarketScenario.speed breakout |}.

(** Phase 2: the loop over [fakeBreakouts]; the k-th draw of the random
    source is [rand k]. *)
Fixpoint fakeEvents (startPrice : Q) (rand : nat -> Q) (k : nat)
    (fakes : list MarketScenario.FakeBreakoutConfig.t) : list Event.t :=
  match fakes with
  | [] => []
  | fake :: rest =>
      let '(minTime, maxTime) :=
        MarketScenario.FakeBreakoutConfig.timeWindow fake in
      let fakeStartTime := minTime + rand k * (maxTime - minTime) in
      let fakeDuration :=
        calculateBreakoutDuration MarketScenario.gradual
          (Qabs (MarketScenario.FakeBreakoutConfig.magnitude fake)) in
      let fakeEndTime := fakeStartTime + fakeDuration in
      let fakeReversalTime :=
        fakeEndTime + MarketScenario.FakeBreakoutConfig.reversalSpeed fake in
      {| Event.type := kind_fake;
         Event.startTime := fakeStartTime;
         Event.endTime := fakeEndTime;
         Event.targetPrice :=
           startPrice
           * (1 + MarketScenario.FakeBreakoutConfig.magnitude fake / 100);
         Event.reversalSpeed :=
           Some (MarketScenario.FakeBreakoutConfig.reversalSpeed fake) |}
      :: {| Event.type := kind_fake;
            Event.startTime := fakeEndTime;
            Event.endTime := fakeReversalTime;
            Event.targetPrice := startPrice;
            Event.reversalSpeed := None |}
      :: fakeEvents startPrice rand (S k) rest
  end.

(** [allEvents.sort((a, b) => a.startTime - b.startTime)]: the sort is
    stable, so it is the insertion sort that keeps equal keys in their
    original order. *)
Fixpoint insertEvent (a : Event.t) (sorted : list Event.t) : list Event.t :=
  match sorted with
  | [] => [a]
  | b :: rest =>
      if JS.Qltb (Event.startTime b - Event.startTime a) 0
      then b :: insertEvent a rest
      else a :: b :: rest
  end.

Definition sortEvents (events : list Event.t) : list Event.t :=
  foldr insertEvent [] events.

Definition rangingSegment (startTime endTime : Q) (description : string)
    : RegimeSegment.t :=
  {| RegimeSegment.startTime := startTime;
     RegimeSegment.endTime := endTime;
     RegimeSegment.regime := ("N", "O")%string;
     RegimeSegment.sign := F;
     RegimeSegment.targetPrice := None;
     RegimeSegment.description := description |}.

Definition eventSegment (startPrice : Q) (event : Event.t)
    : RegimeSegment.t :=
  let direction :=
    if JS.Qltb startPrice (Event.targetPrice event) then U else D in
  let isMain :=
    match Event.type event with kind_main => true | kind_fake => false end in
  {| RegimeSegment.startTime := Event.startTime event;
     RegimeSegment.endTime := Event.endTime event;
     RegimeSegment.regime := ("N", "B")%string;
     RegimeSegment.sign := direction;
     RegimeSegment.targetPrice := Some (Event.targetPrice event);
     RegimeSegment.description :=
       if isMain
       then match direction with
            | U => "Main bullish breakout"
            | _ => "Main bearish breakout"
            end%string
       else "Fake breakout"%string |}.

(** The loop that builds the timeline: the segments pushed for [events]
    when the loop is entered with [currentTime], and the value of
    [currentTime] when it exits. *)
Fixpoint buildSegments (startPrice : Q) (currentTime : Q)
    (events : list Event.t) : list RegimeSegment.t * Q :=
  match events with
  | [] => ([], currentTime)
  | event :: rest =>
      let ranging :=
        if JS.Qltb currentTime (Event.startTime event)
        then [rangingSegment currentTime (Event.startTime event)
                "Ranging period"]
        else [] in
      let '(more, final) :=
        buildSegments startPrice (Event.endTime event) rest in
      (ranging ++ eventSegment startPrice event :: more, final)
  end.

(** The main breakout recorded by phase 1, if the scenario has one; it
    consumes draw 0 of the random source. *)
Definition mainEvent (scenario : MarketScenario.t) (rand : nat -> Q)
    : option BreakoutEvent.t :=
  if decide (MarketScenario.type (MarketScenario.breakout scenario)
             = MarketScenario.none)
  then None
  else Some (mainBreakout scenario (rand 0%nat)).

(** [advanced?.fakeBreakouts || []]. *)
Definition fakeBreakoutsOf (scenario : MarketScenario.t)
    : list MarketScenario.FakeBreakoutConfig.t :=
  match MarketScenario.advanced scenario with
  | Some adv => default [] (MarketScenario.fakeBreakouts adv)
  | None => []
  end.

(** The array [allEvents] before it is sorted: the fakes first, drawn after
    the main breakout, and the main breakout last. *)
Definition allEvents (scenario : MarketScenario.t) (rand : nat -> Q)
    : list Event.t :=
  let main := mainEvent scenario rand in
  fakeEvents (MarketScenario.startPrice scenario) rand
    (match main with Some _ => 1 | None => 0 end)%nat
    (fakeBreakoutsOf scenario)
  ++ match main with
     | Some ev =>
         [{| Event.type := kind_main;
             Event.startTime := BreakoutEvent.startTime ev;
             Event.endTime := BreakoutEvent.endTime ev;
             Event.targetPrice := BreakoutEvent.targetPrice ev;
             Event.reversalSpeed := None |}]
     | None => []
     end.

(** [schedule(scenario)].  [this.breakoutEvent] is assigned only when the
    breakout type is not ['none']; otherwise it keeps its previous value. *)
Definition schedule (this : t) (scenario : MarketScenario.t)
    (rand : nat -> Q) : t :=
  let startPrice := MarketScenario.startPrice scenario in
  let duration := MarketScenario.duration scenario in
  let breakoutEvent' :=
    match mainEvent scenario rand with
    | Some ev => Some ev
    | None => breakoutEvent this
    end in
  let sorted := sortEvents (allEvents scenario rand) in
  let '(segments, currentTime) := buildSegments startPrice 0 sorted in
  let final :=
    if JS.Qltb currentTime duration
    then [rangingSegment currentTime duration "Post-breakout ranging"]
    else [] in
  {| timeline := segments ++ final;
     scenario := Some scenario;
     breakoutEvent := breakoutEvent' |}.

Record CurrentRegime := {
  regime : Regime;
  sign : Sign;
  targetPrice : option Q
}.

Definition ofSegment (segment : RegimeSegment.t) : CurrentRegime :=
  {| regime := RegimeSegment.regime segment;
     sign := RegimeSegment.sign segment;
     targetPrice := RegimeSegment.targetPrice segment |}.

Definition contains (segment : RegimeSegment.t) (elapsedTime : Q) : bool :=
  Qle_bool (RegimeSegment.startTime segment) elapsedTime
  && JS.Qltb elapsedTime (RegimeSegment.endTime segment).

(** The [for ... of] loop of [getCurrentRegime]: the first segment that
    contains [elapsedTime]. *)
Fixpoint findSegment (segments : list RegimeSegment.t) (elapsedTime : Q)
    : option RegimeSegment.t :=
  match segments with
  | [] => None
  | segment :: rest =>
      if contains segment elapsedTime then Some segment
      else findSegment rest elapsedTime
  end.

(** [getCurrentRegime(elapsedTime)]; [last] answers [None] exactly on the
    empty timeline, the case of the default regime. *)
Definition getCurrentRegime (this : t) (elapsedTime : Q) : CurrentRegime :=
  match last (timeline this) with
  | None => {| regime := ("N", "O")%string; sign := F; targetPrice := None |}
  | Some lastSegment =>
      match findSegment (timeline this) elapsedTime with
      | Some segment => ofSegment segment
      | None => ofSegment lastSegment
      end
  end.

Definition getBreakoutEvent (this : t) : option BreakoutEvent.t :=
  breakoutEvent this.

Definition isInBreakout (this : t) (elapsedTime : Q) : bool :=
  bool_decide (snd (regime (getCurrentRegime this elapsedTime)) = "B"%string).

Definition getTimeUntilBreakout (this : t) (elapsedTime : Q) : option Q :=
  match breakoutEvent this with
  | None => None
  | Some ev =>
      let timeUntil := BreakoutEvent.startTime ev - elapsedTime in
      if JS.Qltb 0 timeUntil then Some timeUntil else None
  end.

Definition reset (this : t) : t := new.

End RegimeScheduler.


(** ** BreakoutNotifier.ts *)

Module BreakoutNotifier.

Inductive BreakoutEventType := warning | start | progress | completion.

#[global] Instance BreakoutEventType_eq_dec : EqDecision BreakoutEventType.
Proof. solve_decision. Defined.

#[global] Instance BreakoutEventType_countable : Countable BreakoutEventType.
Proof.
  refine (inj_countable'
    (fun ty => match ty with
               | warning => 0 | start => 1 | progress => 2 | completion => 3
               end%nat)
    (fun n => match n with
              | 0 => warning | 1 => start | 2 => progress | _ => completion
              end%nat) _).
  intros ty. destruct ty; reflexivity.
Defined.

Module BreakoutEvent.
Record t := {
  type : BreakoutEventType;
  breakoutType : MarketScenario.BreakoutType;
  timeToBreakout : option Q;
  currentPrice : option Q;
  targetPrice : option Q;
  magnitude : option Q;
  expectedDuration : option Q;
  progress : option Q;
  timestamp : Q
}.
End BreakoutEvent.

(** A registered listener.  The function behind the handle is opaque: it is
    run inside try/catch and is assumed not to call back into the notifier. *)
Definition EventCallback : Type := nat.

(** One invocation [callback(event)] made by [emit]. *)
Definition Delivery : Type := EventCallback * BreakoutEvent.t.

Record t := {
  listeners : gmap BreakoutEventType (list EventCallback);
  warningTimeout : option Q;
  lastWarningTime : Q;
  lastProgressTime : Q;
  breakoutInProgress : bool;
  breakoutStartPrice : Q
}.

Definition new : t := {|
  listeners := ∅;
  warningTimeout := None;
  lastWarningTime := 0;
  lastProgressTime := 0;
  breakoutInProgress := false;
  breakoutStartPrice := 0
|}.

Definition setListeners (this : t)
    (l : gmap BreakoutEventType (list EventCallback)) : t :=
  {| listeners := l;
     warningTimeout := warningTimeout this;
     lastWarningTime := lastWarningTime this;
     lastProgressTime := lastProgressTime this;
     breakoutInProgress := breakoutInProgress this;
     breakoutStartPrice := breakoutStartPrice this |}.

Definition on (this : t) (eventType : BreakoutEventType)
    (callback : EventCallback) : t :=
  setListeners this
    (<[eventType := default [] (listeners this !! eventType) ++ [callback]]>
       (listeners this)).

Definition onAny (this : t) (callback : EventCallback) : t :=
  fold_left (fun acc ty => on acc ty callback)
    [warning; start; progress; completion] this.

(** [callbacks.splice(callbacks.indexOf(callback), 1)]: the first occurrence
    is removed. *)
Fixpoint removeFirst (callback : EventCallback)
    (callbacks : list EventCallback) : list EventCallback :=
  match callbacks with
  | [] => []
  | c :: rest =>
      if decide (c = callback) then rest else c :: removeFirst callback rest
  end.

Definition off (this : t) (eventType : BreakoutEventType)
    (callback : EventCallback) : t :=
  match listeners this !! eventType with
  | Some callbacks =>
      setListeners this
        (<[eventType := removeFirst callback callbacks]> (listeners this))
  | None => this
  end.

Definition emit (this : t) (event : BreakoutEvent.t) : list Delivery :=
  match listeners this !! BreakoutEvent.type event with
  | Some callbacks => map (fun callback => (callback, event)) callbacks
  | None => []
  end.

(** [now] is the value of [performance.now() / 1000] read by the call. *)
Definition scheduleWarning (this : t)
    (breakoutTime currentTime warningLead : Q)
    (breakoutType : MarketScenario.BreakoutType) (magnitude : Q) (now : Q)
    : t * list Delivery :=
  let timeToBreakout := breakoutTime - currentTime in
  if JS.Qltb 0 timeToBreakout && Qle_bool timeToBreakout warningLead then
    if JS.Qltb (now - lastWarningTime this) 1.0 then (this, [])
    else
      let this' := {|
        listeners := listeners this;
        warningTimeout := warningTimeout this;
        lastWarningTime := now;
        lastProgressTime := lastProgressTime this;
        breakoutInProgress := breakoutInProgress this;
        breakoutStartPrice := breakoutStartPrice this |} in
      (this', emit this' {|
         BreakoutEvent.type := warning;
         BreakoutEvent.breakoutType := breakoutType;
         BreakoutEvent.timeToBreakout := Some timeToBreakout;
         BreakoutEvent.currentPrice := None;
         BreakoutEvent.targetPrice := None;
         BreakoutEvent.magnitude := Some magnitude;
         BreakoutEvent.expectedDuration := None;
         BreakoutEvent.progress := None;
         BreakoutEvent.timestamp := now |})
  else (this, []).

Definition notifyBreakoutStart (this : t)
    (breakoutType : MarketScenario.BreakoutType)
    (currentPrice targetPrice magnitude expectedDuration : Q) (now : Q)
    : t * list Delivery :=
  if breakoutInProgress this then (this, [])
  else
    let this' := {|
      listeners := listeners this;
      warningTimeout := warningTimeout this;
      lastWarningTime := lastWarningTime this;
      lastProgressTime := lastProgressTime this;
      breakoutInProgress := true;
      breakoutStartPrice := currentPrice |} in
    (this', emit this' {|
       BreakoutEvent.type := start;
       BreakoutEvent.breakoutType := breakoutType;
       BreakoutEvent.timeToBreakout := None;
       BreakoutEvent.currentPrice := Some currentPrice;
       BreakoutEvent.targetPrice := Some targetPrice;
       BreakoutEvent.magnitude := Some magnitude;
       BreakoutEvent.expectedDuration := Some expectedDuration;
       BreakoutEvent.progress := None;
       BreakoutEvent.timestamp := now |}).

Definition notifyProgress (this : t)
    (breakoutType : MarketScenario.BreakoutType)
    (currentPrice targetPrice : Q) (throttleSeconds : Q) (now : Q)
    : t * list Delivery :=
  if negb (breakoutInProgress this) then (this, [])
  else if JS.Qltb (now - lastProgressTime this) throttleSeconds
  then (this, [])
  else
    let this' := {|
      listeners := listeners this;
      warningTimeout := warningTimeout this;
      lastWarningTime := lastWarningTime this;
      lastProgressTime := now;
      breakoutInProgress := breakoutInProgress this;
      breakoutStartPrice := breakoutStartPrice this |} in
    let totalMove := targetPrice - breakoutStartPrice this' in
    let currentMove := currentPrice - breakoutStartPrice this' in
    let progress :=
      if negb (Qeq_bool totalMove 0)
      then Qmax 0 (Qmin 1 (currentMove / totalMove))
      else 0 in
    (this', emit this' {|
       BreakoutEvent.type := BreakoutNotifier.progress;
       BreakoutEvent.breakoutType := breakoutType;
       BreakoutEvent.timeToBreakout := None;
       BreakoutEvent.currentPrice := Some currentPrice;
       BreakoutEvent.targetPrice := Some targetPrice;
       BreakoutEvent.magnitude := None;
       BreakoutEvent.expectedDuration := None;
       BreakoutEvent.progress := Some progress;
       BreakoutEvent.timestamp := now |}).

Definition notifyBreakoutCompletion (this : t)
    (breakoutType : MarketScenario.BreakoutType)
    (currentPrice targetPrice magnitude : Q) (now : Q)
    : t * list Delivery :=
  if negb (breakoutInProgress this) then (this, [])
  else
    let this' := {|
      listeners := listeners this;
      warningTimeout := warningTimeout this;
      lastWarningTime := lastWarningTime this;
      lastProgressTime := lastProgressTime this;
      breakoutInProgress := false;
      breakoutStartPrice := breakoutStartPrice this |} in
    (this', emit this' {|
       BreakoutEvent.type := completion;
       BreakoutEvent.breakoutType := breakoutType;
       BreakoutEvent.timeToBreakout := None;
       BreakoutEvent.currentPrice := Some currentPrice;
       BreakoutEvent.targetPrice := Some targetPrice;
       BreakoutEvent.magnitude := Some magnitude;
       BreakoutEvent.expectedDuration := None;
       BreakoutEvent.progress := Some 1.0;
       BreakoutEvent.timestamp := now |}).

Definition isBreakoutInProgress (this : t) : bool := breakoutInProgress this.

(** [clearTimeout] on a pending handle has no effect on the notifier's own
    fields beyond clearing [warningTimeout]. *)
Definition reset (this : t) : t := {|
  listeners := listeners this;
  warningTimeout := None;
  lastWarningTime := 0;
  lastProgressTime := 0;
  breakoutInProgress := false;
  breakoutStartPrice := 0
|}.

Definition clearListeners (this : t) : t := setListeners this ∅.

(** A call of a public method, with its arguments and the clock reading it
    makes, and the notifier's reaction to a sequence of calls. *)
Inductive Call :=
| CallOn (eventType : BreakoutEventType) (callback : EventCallback)
| CallOnAny (callback : EventCallback)
| CallOff (eventType : BreakoutEventType) (callback : EventCallback)
| CallScheduleWarning (breakoutTime currentTime warningLead : Q)
    (breakoutType : MarketScenario.BreakoutType) (magnitude : Q) (now : Q)
| CallNotifyBreakoutStart (breakoutType : MarketScenario.BreakoutType)
    (currentPrice targetPrice magnitude expectedDuration : Q) (now : Q)
| CallNotifyProgress (breakoutType : MarketScenario.BreakoutType)
    (currentPrice targetPrice throttleSeconds : Q) (now : Q)
| CallNotifyBreakoutCompletion (breakoutType : MarketScenario.BreakoutType)
    (currentPrice targetPrice magnitude : Q) (now : Q)
| CallIsBreakoutInProgress
| CallReset
| CallClearListeners.

Definition step (this : t) (call : Call) : t * list Delivery :=
  match call with
  | CallOn ty cb => (on this ty cb, [])
  | CallOnAny cb => (onAny this cb, [])
  | CallOff ty cb => (off this ty cb, [])
  | CallScheduleWarning bt ct wl ty mag now =>
      scheduleWarning this bt ct wl ty mag now
  | CallNotifyBreakoutStart ty cp tp mag dur now =>
      notifyBreakoutStart this ty cp tp mag dur now
  | CallNotifyProgress ty cp tp thr now =>
      notifyProgress this ty cp tp thr now
  | CallNotifyBreakoutCompletion ty cp tp mag now =>
      notifyBreakoutCompletion this ty cp tp mag now
  | CallIsBreakoutInProgress => (this, [])
  | CallReset => (reset this, [])
  | CallClearListeners => (clearListeners this, [])
  end.

(** The state after a sequence of calls and everything delivered by it. *)
Fixpoint run (this : t) (calls : list Call) : t * list Delivery :=
  match calls with
  | [] => (this, [])
  | call :: rest =>
      let '(this', out) := step this call in
      let '(final, outs) := run this' rest in
      (final, out ++ outs)
  end.

Definition isCompletionCall (call : Call) : bool :=
  match call with CallNotifyBreakoutCompletion _ _ _ _ _ => true | _ => false end.

Definition isResetCall (call : Call) : bool :=
  match call with CallReset => true | _ => false end.

Definition isSubscribeCall (call : Call) : bool :=
  match call with CallOn _ _ | CallOnAny _ => true | _ => false end.

Definition isWarningCall (call : Call) : bool :=
  match call with CallScheduleWarning _ _ _ _ _ _ => true | _ => false end.

(** The callbacks an event is delivered to, in delivery order. *)
Definition receivers (this : t) (event : BreakoutEvent.t)
    : list EventCallback :=
  map fst (emit this event).

End BreakoutNotifier.


(** ** QuoteModel.ts: the regime model *)

Module QuoteModel.

(** A bucket key ["dp,spread,size"] of the model data, held parsed (the
    source parses it back with [split(",").map(Number)] when it is drawn). *)
Record Bin := {
  dpBin : Q;
  spBin : Q;
  szBin : Q
}.

(** The three tables.  A bucket ([Map<string, number>]) is kept as its
    entries in insertion order, which is the order the sampler walks them. *)
Record t := {
  transition : gmap string (list (Bin * Q));
  ticksPerRegime : gmap string Q;
  secondsPerRegime : gmap string Q
}.

(** [new QuoteModel()] without model data. *)
Definition empty : t :=
  {| transition := ∅; ticksPerRegime := ∅; secondsPerRegime := ∅ |}.

Record Sample := {
  dp : Q;
  spread : Q;
  size : Q
}.

Definition signTag (sign : RegimeScheduler.Sign) : string :=
  match sign with
  | RegimeScheduler.U => "U"
  | RegimeScheduler.D => "D"
  | RegimeScheduler.F => "F"
  end.

Definition regimeKey (regime : RegimeScheduler.Regime) : string :=
  fst regime +:+ "," +:+ snd regime.

Definition transitionKey (regime : RegimeScheduler.Regime)
    (sign : RegimeScheduler.Sign) : string :=
  fst regime +:+ "," +:+ snd regime +:+ "," +:+ signTag sign.

(** [x || d] on an optional number: [undefined] and 0 are falsy. *)
Definition orElse (x : option Q) (d : Q) : Q :=
  match x with
  | Some v => if Qeq_bool v 0 then d else v
  | None => d
  end.

Definition lambda (this : t) (regime : RegimeScheduler.Regime) : Q :=
  let key := regimeKey regime in
  let secs := Qmax 1 (orElse (secondsPerRegime this !! key) 1) in
  let ticks := orElse (ticksPerRegime this !! key) 0 in
  ticks / secs.

Definition fallback : Sample := {| dp := 0; spread := 0.01; size := 100 |}.

Definition decode (bin : Bin) : Sample :=
  {| dp := dpBin bin * 0.005;
     spread := spBin bin * 0.01;
     size := szBin bin * 100 |}.

(** The selection loop of [sampleTick]: [random] is decreased by each weight
    in turn and the first entry that brings it to 0 or below is drawn. *)
Fixpoint selectBin (entries : list (Bin * Q)) (random : Q) : option Sample :=
  match entries with
  | [] => None
  | (binKey, weight) :: rest =>
      let random' := random - weight in
      if Qle_bool random' 0 then Some (decode binKey)
      else selectBin rest random'
  end.

(** [sampleTick(regime, sign)]; [u] is the value of [Math.random()]. *)
Definition sampleTick (this : t) (regime : RegimeScheduler.Regime)
    (sign : RegimeScheduler.Sign) (u : Q) : Sample :=
  let key := transitionKey regime sign in
  match transition this !! key with
  | None => fallback
  | Some [] => fallback
  | Some entries =>
      let totalWeight := fold_left (fun sum e => sum + snd e) entries 0 in
      let random := u * totalWeight in
      default fallback (selectBin entries random)
  end.

(** The total weight of a bucket, as [sampleTick] adds it up. *)
Definition totalWeight (entries : list (Bin * Q)) : Q :=
  fold_left (fun sum e => sum + snd e) entries 0.

(** The loop of [poissonSample] (Knuth's algorithm), entered with [k] draws
    made and their product [p]; the draw of iteration [k] is [draws k].
    [L] is the value of [Math.exp(-lambda)].  The source loops until the
    product falls to [L] or below; here the loop is cut after [fuel]
    iterations, and [None] means it was still running then. *)
Fixpoint poissonLoop (L : Q) (draws : nat -> Q) (fuel k : nat) (p : Q)
    : option nat :=
  match fuel with
  | O => None
  | S fuel' =>
      let k' := S k in
      let p' := p * draws k in
      if JS.Qltb L p' then poissonLoop L draws fuel' k' p'
      else Some (k' - 1)%nat
  end.

Definition poissonSample (L : Q) (draws : nat -> Q) (fuel : nat)
    : option nat :=
  poissonLoop L draws fuel 0 1.

(** [sampleNbUpdates(regime)]; [exp] stands for [Math.exp]. *)
Definition sampleNbUpdates (this : t) (regime : RegimeScheduler.Regime)
    (exp : Q -> Q) (draws : nat -> Q) (fuel : nat) : option nat :=
  poissonSample (exp (- lambda this regime)) draws fuel.

End QuoteModel.

(** ** QuoteModel.ts: the quote generator *)

Module QuoteGenerator.

Record t := {
  model : QuoteModel.t;
  bid : Q;
  ask : Q
}.

Definition new (model : QuoteModel.t) (bid0 ask0 : Q) : t :=
  {| model := model; bid := bid0; ask := ask0 |}.

Record Tick := {
  time : Q;
  priceBid : Q;
  priceAsk : Q;
  sizeBid : Q;
  sizeAsk : Q
}.

(** [biasTowardTarget(dp, targetPrice)], in exact arithmetic.  The current
    price divides the distance: at a bid of 0 JavaScript answers Infinity
    (or NaN), which the rationals do not have, so this definition stands
    for the source at non-zero bids only; [Double.QuoteGenerator] has the
    function over doubles, zero included. *)
Definition biasTowardTarget (this : t) (dp : Q) (targetPrice : Q) : Q :=
  let currentPrice := bid this in
  let distanceToTarget := targetPrice - currentPrice in
  if JS.Qltb (Qabs distanceToTarget) (currentPrice * 0.001) then dp
  else
    let desiredDirection := JS.Math_sign distanceToTarget in
    let urgency := Qmin 1.0 (Qabs distanceToTarget / currentPrice * 20) in
    let biasFactor := 0.7 * urgency in
    let stepSize := Qmin 0.05 (Qabs distanceToTarget * 0.1) in
    let biasedDp := desiredDirection * stepSize in
    let finalDp := biasFactor * biasedDp + (1 - biasFactor) * dp in
    finalDp.

(** One iteration of the loop of [stepSecond], drawing with [u]: the new
    generator, the tick pushed and the sign for the next iteration.  The
    sums and the rounding to the cent are exact here; in double precision
    [bid + 0.01] is itself rounded, and the two rounded prices of a tick
    can coincide: see [Double.QuoteGenerator.stepOnce]. *)
Definition stepOnce (this : t) (ts : Q) (regime : RegimeScheduler.Regime)
    (currentSign : RegimeScheduler.Sign) (targetPrice : option Q) (u : Q)
    : t * Tick * RegimeScheduler.Sign :=
  let t := QuoteModel.sampleTick (model this) regime currentSign u in
  let dp :=
    match targetPrice with
    | Some target => biasTowardTarget this (QuoteModel.dp t) target
    | None => QuoteModel.dp t
    end in
  let bid' := bid this + dp in
  let ask' := Qmax (bid' + QuoteModel.spread t) (bid' + 0.01) in
  let this' := {| model := model this; bid := bid'; ask := ask' |} in
  let tick := {|
    time := ts;
    priceBid := JS.Math_round (bid' * 100) / 100;
    priceAsk := JS.Math_round (ask' * 100) / 100;
    sizeBid := JS.Math_floor (QuoteModel.size t / 2);
    sizeAsk := JS.Math_floor (QuoteModel.size t / 2) |} in
  let nextSign :=
    if JS.Qltb 0 dp then RegimeScheduler.U
    else if JS.Qltb dp 0 then RegimeScheduler.D
    else RegimeScheduler.F in
  (this', tick, nextSign).

(** The loop [for (i = 0; i < n; i++)], entered at iteration [i] with [n]
    iterations left; iteration [i] draws [draws i]. *)
Fixpoint stepLoop (this : t) (ts : Q) (regime : RegimeScheduler.Regime)
    (targetPrice : option Q) (draws : nat -> Q) (n i : nat)
    (currentSign : RegimeScheduler.Sign) : t * list Tick :=
  match n with
  | O => (this, [])
  | S n' =>
      let '(this', tick, nextSign) :=
        stepOnce this ts regime currentSign targetPrice (draws i) in
      let '(final, ticks) :=
        stepLoop this' ts regime targetPrice draws n' (S i) nextSign in
      (final, tick :: ticks)
  end.

(** [stepSecond(ts, regime, sign, targetPrice)].  [n] is the count returned
    by [model.sampleNbUpdates(regime)], a Poisson draw of rate
    [QuoteModel.lambda] made with [Math.exp] and a loop over the random
    source; it is taken as given. *)
Definition stepSecond (this : t) (ts : Q) (regime : RegimeScheduler.Regime)
    (sign : RegimeScheduler.Sign) (targetPrice : option Q)
    (n : nat) (draws : nat -> Q) : t * list Tick :=
  stepLoop this ts regime targetPrice draws n 0%nat sign.

(** [getVolumeWeightedMid(sizeBid, sizeAsk)], in exact arithmetic; the
    value over doubles, which can differ from it in the last digit, is
    [Double.QuoteGenerator.getVolumeWeightedMid]. *)
Definition getVolumeWeightedMid (this : t) (sizeBid sizeAsk : Q) : Q :=
  let totalSize := sizeBid + sizeAsk in
  if Qeq_bool totalSize 0 then (bid this + ask this) / 2
  else (bid this * sizeAsk + ask this * sizeBid) / totalSize.

Definition getBid (this : t) : Q := bid this.

Definition getAsk (this : t) : Q := ask this.

Definition getMid (this : t) : Q := (bid this + ask this) / 2.

End QuoteGenerator.


(** ** PriceModel.ts *)

Module PriceModel.

Record BufferEntry := {
  bid : Q;
  ask : Q;
  mid : Q
}.

Inductive Pivot := PL | PH.

(** The fields of the class, but for two: [exchangeGen], an
    [ExchangeBookGenerator], whose class is not among the sources, and
    [lastExchangeQuotes], which only that generator fills ([update] assigns
    it when the step has ticks) and which no method of the class reads.
    The constructor creates both and [resetWithScenario] leaves both as
    they are; nothing below speaks about them. *)
Record t := {
  generator : QuoteGenerator.t;
  window : nat;
  buffer : list BufferEntry;
  maxBufferSize : nat;
  scenario : MarketScenario.t;
  scheduler : RegimeScheduler.t;
  notifier : BreakoutNotifier.t;
  startTime : Q;
  elapsedTime : Q;
  hasNotifiedBreakoutStart : bool;
  pivot : option Pivot;
  pivotBid : Q;
  pivotAsk : Q;
  bestBid : Q;
  bestAsk : Q
}.

(** [constructor(quoteModel, scenario, _tickSize, windowSeconds)], without
    the unused [_tickSize]; [windowSeconds] counts buffer slots and is a
    natural number; [rand] feeds the scheduler and [now] is
    [performance.now() / 1000]. *)
Definition constructor (quoteModel : QuoteModel.t)
    (scenario : option MarketScenario.t) (windowSeconds : nat)
    (rand : nat -> Q) (now : Q) : t :=
  let scenario := default MarketScenario.createRangingScenario scenario in
  let baseBid := MarketScenario.startPrice scenario in
  let baseAsk :=
    baseBid + MarketScenario.base (MarketScenario.spread scenario) in
  let maxBufferSize := (2 * windowSeconds + 1)%nat in
  {| generator := QuoteGenerator.new quoteModel baseBid baseAsk;
     window := windowSeconds;
     buffer :=
       replicate maxBufferSize
         {| bid := baseBid; ask := baseAsk; mid := (baseBid + baseAsk) / 2 |};
     maxBufferSize := maxBufferSize;
     scenario := scenario;
     scheduler := RegimeScheduler.schedule RegimeScheduler.new scenario rand;
     notifier := BreakoutNotifier.new;
     startTime := now;
     elapsedTime := 0;
     hasNotifiedBreakoutStart := false;
     pivot := None;
     pivotBid := baseBid;
     pivotAsk := baseAsk;
     bestBid := baseBid;
     bestAsk := baseAsk |}.

(** What one call of [update] reads from its environment: the clock (in
    [update] itself and in each notifier method it may call), the number of
    updates drawn by the model and the draws of the tick sampler. *)
Record Input := {
  nowDt : Q;
  now : Q;
  nowWarning : Q;
  nowStart : Q;
  nowProgress : Q;
  nowCompletion : Q;
  nbUpdates : nat;
  draws : nat -> Q
}.

Definition setNotification (this : t) (notifier' : BreakoutNotifier.t)
    (hasNotified : bool) : t :=
  {| generator := generator this;
     window := window this;
     buffer := buffer this;
     maxBufferSize := maxBufferSize this;
     scenario := scenario this;
     scheduler := scheduler this;
     notifier := notifier';
     startTime := startTime this;
     elapsedTime := elapsedTime this;
     hasNotifiedBreakoutStart := hasNotified;
     pivot := pivot this;
     pivotBid := pivotBid this;
     pivotAsk := pivotAsk this;
     bestBid := bestBid this;
     bestAsk := bestAsk this |}.

(** [a && b] used as a condition, for [b] an optional number. *)
Definition truthy (x : option Q) : bool :=
  match x with
  | Some v => negb (Qeq_bool v 0)
  | None => false
  end.

Definition handleBreakoutNotifications (this : t) (input : Input)
    : t * list BreakoutNotifier.Delivery :=
  let breakout := MarketScenario.breakout (scenario this) in
  match RegimeScheduler.getBreakoutEvent (scheduler this) with
  | None => (this, [])
  | Some breakoutEvent =>
    if decide (MarketScenario.type breakout = MarketScenario.none)
    then (this, [])
    else
      let startTime := RegimeScheduler.BreakoutEvent.startTime breakoutEvent in
      let targetPrice :=
        RegimeScheduler.BreakoutEvent.targetPrice breakoutEvent in
      let type := RegimeScheduler.BreakoutEvent.type breakoutEvent in
      let currentPrice := bestBid this in
      let magnitude := MarketScenario.magnitude breakout in
      (* warning *)
      let '(n1, out1) :=
        if MarketScenario.notification breakout
           && truthy (MarketScenario.preWarning breakout)
        then BreakoutNotifier.scheduleWarning (notifier this) startTime
               (elapsedTime this)
               (default 0 (MarketScenario.preWarning breakout))
               type magnitude (nowWarning input)
        else (notifier this, []) in
      let isInBreakout :=
        RegimeScheduler.isInBreakout (scheduler this) (elapsedTime this) in
      (* start *)
      let '(n2, out2, started2) :=
        if isInBreakout && negb (hasNotifiedBreakoutStart this)
        then
          let expectedDuration :=
            RegimeScheduler.BreakoutEvent.endTime breakoutEvent
            - RegimeScheduler.BreakoutEvent.startTime breakoutEvent in
          let '(n, out) :=
            BreakoutNotifier.notifyBreakoutStart n1 type currentPrice
              targetPrice magnitude expectedDuration (nowStart input) in
          (n, out, true)
        else (n1, [], hasNotifiedBreakoutStart this) in
      (* progress and completion inside the breakout *)
      let '(n3, out3) :=
        if isInBreakout && started2
        then
          let '(n, outP) :=
            BreakoutNotifier.notifyProgress n2 type currentPrice targetPrice
              1.0 (nowProgress input) in
          let distanceToTarget := Qabs (targetPrice - currentPrice) in
          let threshold := Qabs targetPrice * 0.002 in
          if JS.Qltb distanceToTarget threshold
          then
            let '(n', outC) :=
              BreakoutNotifier.notifyBreakoutCompletion n type currentPrice
                targetPrice magnitude (nowCompletion input) in
            (n', outP ++ outC)
          else (n, outP)
        else (n2, []) in
      (* leaving the breakout period *)
      let '(n4, out4, started4) :=
        if negb isInBreakout && started2
        then
          let distanceToTarget := Qabs (targetPrice - currentPrice) in
          let threshold := Qabs targetPrice * 0.005 in
          let '(n, out) :=
            if JS.Qltb distanceToTarget threshold
            then BreakoutNotifier.notifyBreakoutCompletion n3 type
                   currentPrice targetPrice magnitude (nowCompletion input)
            else (n3, []) in
          (n, out, false)
        else (n3, [], started2) in
      (setNotification this n4 started4, out1 ++ out2 ++ out3 ++ out4)
  end.

(** The price recorded by a step: the last tick and the generator's
    volume-weighted mid when there are ticks, otherwise the newest buffer
    entry again.  [None] is the TypeError of reading a field of
    [undefined] (an empty buffer). *)
Definition stepPrice (this : t) (generator' : QuoteGenerator.t)
    (ticks : list QuoteGenerator.Tick) : option (BufferEntry * Q * Q) :=
  match last ticks with
  | Some lastTick =>
      let bid := QuoteGenerator.priceBid lastTick in
      let ask := QuoteGenerator.priceAsk lastTick in
      let totalBidSize := QuoteGenerator.sizeBid lastTick in
      let totalAskSize := QuoteGenerator.sizeAsk lastTick in
      let mid :=
        QuoteGenerator.getVolumeWeightedMid generator' totalBidSize
          totalAskSize in
      Some ({| bid := bid; ask := ask; mid := mid |}, bid, ask)
  | None =>
      match last (buffer this) with
      | Some lastEntry => Some (lastEntry, bestBid this, bestAsk this)
      | None => None
      end
  end.

(** [buffer.push(entry)] followed by the conditional [buffer.shift()]. *)
Definition pushEntry (buffer : list BufferEntry) (maxBufferSize : nat)
    (entry : BufferEntry) : list BufferEntry :=
  let pushed := buffer ++ [entry] in
  if (maxBufferSize <? length pushed)%nat then tail pushed else pushed.

(** The pivot of a full buffer, from its centre entry. *)
Definition detectPivot (buffer : list BufferEntry) (centre : BufferEntry)
    : option Pivot :=
  let mids := map mid buffer in
  let maxMid := JS.Math_max_list mids in
  let minMid := JS.Math_min_list mids in
  if JS.strictEqBound (mid centre) maxMid then Some PH
  else if JS.strictEqBound (mid centre) minMid then Some PL
  else None.

(** [update()].  [None] stands for a TypeError thrown by the call. *)
Definition update (this : t) (input : Input)
    : option (t * list BreakoutNotifier.Delivery) :=
  let elapsedTime' := now input - startTime this in
  let this1 := {|
    generator := generator this; window := window this;
    buffer := buffer this; maxBufferSize := maxBufferSize this;
    scenario := scenario this; scheduler := scheduler this;
    notifier := notifier this; startTime := startTime this;
    elapsedTime := elapsedTime';
    hasNotifiedBreakoutStart := hasNotifiedBreakoutStart this;
    pivot := pivot this; pivotBid := pivotBid this;
    pivotAsk := pivotAsk this; bestBid := bestBid this;
    bestAsk := bestAsk this |} in
  let current := RegimeScheduler.getCurrentRegime (scheduler this1) elapsedTime' in
  let '(this2, deliveries) := handleBreakoutNotifications this1 input in
  let '(generator', ticks) :=
    QuoteGenerator.stepSecond (generator this2) (nowDt input)
      (RegimeScheduler.regime current) (RegimeScheduler.sign current)
      (RegimeScheduler.targetPrice current) (nbUpdates input) (draws input) in
  match stepPrice this2 generator' ticks with
  | None => None
  | Some (entry, bestBid', bestAsk') =>
      let buffer' := pushEntry (buffer this2) (maxBufferSize this2) entry in
      let detected :=
        if (length buffer' =? maxBufferSize this2)%nat
        then
          match buffer' !! window this2 with
          | Some centre =>
              Some (detectPivot buffer' centre, bid centre, ask centre)
          | None => None
          end
        else Some (pivot this2, pivotBid this2, pivotAsk this2) in
      match detected with
      | None => None
      | Some (pivot', pivotBid', pivotAsk') =>
          Some ({|
            generator := generator'; window := window this2;
            buffer := buffer'; maxBufferSize := maxBufferSize this2;
            scenario := scenario this2; scheduler := scheduler this2;
            notifier := notifier this2; startTime := startTime this2;
            elapsedTime := elapsedTime this2;
            hasNotifiedBreakoutStart := hasNotifiedBreakoutStart this2;
            pivot := pivot'; pivotBid := pivotBid';
            pivotAsk := pivotAsk'; bestBid := bestBid';
            bestAsk := bestAsk' |}, deliveries)
      end
  end.

(** [resetWithScenario(scenario)]. *)
Definition resetWithScenario (this : t) (scenario : MarketScenario.t)
    (rand : nat -> Q) (now : Q) : t :=
  let baseBid := MarketScenario.startPrice scenario in
  let baseAsk :=
    baseBid + MarketScenario.base (MarketScenario.spread scenario) in
  {| generator :=
       QuoteGenerator.new (QuoteGenerator.model (generator this))
         baseBid baseAsk;
     window := window this;
     buffer :=
       replicate (maxBufferSize this)
         {| bid := baseBid; ask := baseAsk; mid := (baseBid + baseAsk) / 2 |};
     maxBufferSize := maxBufferSize this;
     scenario := scenario;
     scheduler :=
       RegimeScheduler.schedule (RegimeScheduler.reset (scheduler this))
         scenario rand;
     notifier := BreakoutNotifier.reset (notifier this);
     startTime := now;
     elapsedTime := 0;
     hasNotifiedBreakoutStart := false;
     pivot := None;
     pivotBid := baseBid;
     pivotAsk := baseAsk;
     bestBid := baseBid;
     bestAsk := baseAsk |}.

(** The operations a caller performs on a model, and a run of them. *)
Inductive Op :=
| OpUpdate (input : Input)
| OpResetWithScenario (scenario : MarketScenario.t) (rand : nat -> Q) (now : Q).

Definition apply (this : t) (op : Op) : option t :=
  match op with
  | OpUpdate input => fst <$> update this input
  | OpResetWithScenario scenario rand now =>
      Some (resetWithScenario this scenario rand now)
  end.

Fixpoint run (this : t) (ops : list Op) : option t :=
  match ops with
  | [] => Some this
  | op :: rest =>
      match apply this op with
      | Some this' => run this' rest
      | None => None
      end
  end.

End PriceModel.


(** ** App.tsx: difficulty levels and the scenario of a level *)

Module App.

Module DifficultyLevel.
Record t := {
  name : string;
  baseWindow : Q;
  xpRequired : Q;
  color : string
}.
End DifficultyLevel.

Definition DIFFICULTY_LEVELS : list DifficultyLevel.t := [
  {| DifficultyLevel.name := "difficulty.novice";
     DifficultyLevel.baseWindow := 1.5; DifficultyLevel.xpRequired := 0;
     DifficultyLevel.color := "rgb(150, 150, 150)" |};
  {| DifficultyLevel.name := "difficulty.beginner";
     DifficultyLevel.baseWindow := 1.0; DifficultyLevel.xpRequired := 50;
     DifficultyLevel.color := "rgb(100, 200, 100)" |};
  {| DifficultyLevel.name := "difficulty.intermediate";
     DifficultyLevel.baseWindow := 0.7; DifficultyLevel.xpRequired := 150;
     DifficultyLevel.color := "rgb(100, 150, 255)" |};
  {| DifficultyLevel.name := "difficulty.advanced";
     DifficultyLevel.baseWindow := 0.5; DifficultyLevel.xpRequired := 300;
     DifficultyLevel.color := "rgb(200, 100, 255)" |};
  {| DifficultyLevel.name := "difficulty.expert";
     DifficultyLevel.baseWindow := 0.3; DifficultyLevel.xpRequired := 500;
     DifficultyLevel.color := "rgb(255, 200, 50)" |};
  {| DifficultyLevel.name := "difficulty.master";
     DifficultyLevel.baseWindow := 0.2; DifficultyLevel.xpRequired := 800;
     DifficultyLevel.color := "rgb(255, 100, 100)" |}
]%string.

(** [Array.prototype.findIndex]: the index of the first element that
    satisfies [p], or -1. *)
Fixpoint findIndexFrom {A : Type} (p : A -> bool) (l : list A) (i : Z) : Z :=
  match l with
  | [] => (-1)%Z
  | x :: rest => if p x then i else findIndexFrom p rest (i + 1)%Z
  end.

Definition findIndex {A : Type} (p : A -> bool) (l : list A) : Z :=
  findIndexFrom p l 0%Z.

(** The player's XP as the app holds it: [parseInt] of the stored
    ["playerXP"] entry (or 0), later increased by the XP earned.  [parseInt]
    answers NaN for an entry that does not start with a number; NaN is
    [None] here, and every comparison with it is false. *)
Definition Xp : Type := option Q.

(** [xp < required]. *)
Definition xpBelow (xp : Xp) (required : Q) : bool :=
  match xp with
  | Some x => JS.Qltb x required
  | None => false
  end.

(** [xp >= required]. *)
Definition xpAtLeast (xp : Xp) (required : Q) : bool :=
  match xp with
  | Some x => Qle_bool required x
  | None => false
  end.

(** The level index computed by [loadModel] from the player's XP. *)
Definition currentLevelIndex (xp : Xp) : Z :=
  let level :=
    (findIndex (fun l => xpBelow xp (DifficultyLevel.xpRequired l))
       DIFFICULTY_LEVELS - 1)%Z in
  Z.max 0 (if (level =? -2)%Z
           then Z.of_nat (length DIFFICULTY_LEVELS) - 1
           else level)%Z.

(** The loop of [getCurrentLevel], from index [i] downwards over the levels
    [0 .. i] given highest first. *)
Fixpoint getCurrentLevelFrom (xp : Xp) (descending : list DifficultyLevel.t)
    : option DifficultyLevel.t :=
  match descending with
  | [] => None
  | level :: lower =>
      if xpAtLeast xp (DifficultyLevel.xpRequired level) then Some level
      else getCurrentLevelFrom xp lower
  end.

(** [getCurrentLevel()]; the final [return DIFFICULTY_LEVELS[0]] is the
    default. *)
Definition getCurrentLevel (xp : Xp) : option DifficultyLevel.t :=
  match getCurrentLevelFrom xp (rev DIFFICULTY_LEVELS) with
  | Some level => Some level
  | None => head DIFFICULTY_LEVELS
  end.

(** [createScenarioForLevel(level)]; [u] is the value of [Math.random()]. *)
Definition createScenarioForLevel (level : Q) (u : Q) : MarketScenario.t :=
  let isBullish := JS.Qltb 0.5 u in
  let magnitude := Qmax 0.3 (1.5 - level * 0.1) in
  let timeWindow := (15, 45 - Qmin (level * 2) 20) in
  if isBullish then
    MarketScenario.createBullishBreakoutWith (Some {|
      MarketScenario.Partial.startPrice := None;
      MarketScenario.Partial.duration := Some 60;
      MarketScenario.Partial.breakout := Some {|
        MarketScenario.type := MarketScenario.bullish;
        MarketScenario.timeWindow := timeWindow;
        MarketScenario.magnitude := magnitude;
        MarketScenario.speed := MarketScenario.gradual;
        MarketScenario.preWarning := None;
        MarketScenario.notification := false |};
      MarketScenario.Partial.spread := None;
      MarketScenario.Partial.advanced := None;
      MarketScenario.Partial.recordReactionTime := None |})
  else
    MarketScenario.createBearishBreakoutWith (Some {|
      MarketScenario.Partial.startPrice := None;
      MarketScenario.Partial.duration := Some 60;
      MarketScenario.Partial.breakout := Some {|
        MarketScenario.type := MarketScenario.bearish;
        MarketScenario.timeWindow := timeWindow;
        MarketScenario.magnitude := magnitude;
        MarketScenario.speed := MarketScenario.gradual;
        MarketScenario.preWarning := None;
        MarketScenario.notification := false |};
      MarketScenario.Partial.spread := None;
      MarketScenario.Partial.advanced := None;
      MarketScenario.Partial.recordReactionTime := None |}).

End App.


(** ** The price path in IEEE-754 double precision

    The numeric core of the simulator (the tick sampler, the quote
    generator, the part of [PriceModel.update] that records a price and
    detects a pivot, and the draw of the breakout start time) over the
    numbers JavaScript computes with: binary64 floating point, rounded to
    nearest-even after every operation.  The definitions follow the same
    source lines as their exact counterparts above, operation for
    operation; these are the ones to evaluate when the last digit
    matters. *)

Module Double.

#[local] Open Scope float_scope.

(** The integer [z] as a double; exact for [|z| < 2^53]. *)
Definition ofZ (z : Z) : float :=
  if (z <? 0)%Z
  then PrimFloat.opp (PrimFloat.of_uint63 (Uint63.of_Z (- z)))
  else PrimFloat.of_uint63 (Uint63.of_Z z).

(** The numerator of a finite double [(-1)^s * m * 2^e]. *)
Definition signed (s : bool) (m : positive) : Z :=
  if s then Z.neg m else Z.pos m.

(** [Math.floor]: the largest integer not above [x], computed on the exact
    value of [x].  A double with a non-negative exponent is an integer
    already; NaN, the infinities and the zeros are returned as they are. *)
Definition Math_floor (x : float) : float :=
  match Prim2SF x with
  | S754_finite s m e =>
      if (0 <=? e)%Z then x else ofZ (signed s m / 2 ^ (- e))
  | _ => x
  end.

(** [Math.round]: the integer nearest to [x], halves rounded towards
    +infinity, that is the floor of [x + 1/2] computed on the exact value
    of [x].  (Where JavaScript answers -0 this answers +0; the two are
    [===].) *)
Definition Math_round (x : float) : float :=
  match Prim2SF x with
  | S754_finite s m e =>
      if (0 <=? e)%Z then x
      else ofZ ((2 * signed s m + 2 ^ (- e)) / 2 ^ (- e + 1))
  | _ => x
  end.

(** [Math.max(a, b)]: NaN when either is NaN, otherwise the larger, +0
    counting as larger than -0. *)
Definition Math_max (a b : float) : float :=
  if PrimFloat.is_nan a || PrimFloat.is_nan b then PrimFloat.nan
  else if a <? b then b
  else if b <? a then a
  else if PrimFloat.get_sign a then b else a.

(** [Math.min(a, b)]. *)
Definition Math_min (a b : float) : float :=
  if PrimFloat.is_nan a || PrimFloat.is_nan b then PrimFloat.nan
  else if a <? b then a
  else if b <? a then b
  else if PrimFloat.get_sign a then a else b.

(** [Math.sign]: 1, -1, or [x] itself when it is a zero or NaN. *)
Definition Math_sign (x : float) : float :=
  if 0 <? x then 1 else if x <? 0 then -1 else x.

(** [Math.max(...xs)] and [Math.min(...xs)] over a spread array: the
    running maximum starts from -Infinity (resp. the minimum from
    +Infinity), which the first element replaces whatever it is; on the
    empty array the infinity is the answer. *)
Definition Math_max_list (xs : list float) : float :=
  match xs with
  | [] => PrimFloat.neg_infinity
  | x :: rest => fold_left Math_max rest x
  end.

Definition Math_min_list (xs : list float) : float :=
  match xs with
  | [] => PrimFloat.infinity
  | x :: rest => fold_left Math_min rest x
  end.

(** *** QuoteModel.ts *)

Module QuoteModel.

Record Bin := {
  dpBin : float;
  spBin : float;
  szBin : float
}.

Record t := {
  transition : gmap string (list (Bin * float));
  ticksPerRegime : gmap string float;
  secondsPerRegime : gmap string float
}.

Definition empty : t :=
  {| transition := ∅; ticksPerRegime := ∅; secondsPerRegime := ∅ |}.

Record Sample := {
  dp : float;
  spread : float;
  size : float
}.

Definition fallback : Sample := {| dp := 0; spread := 0.01; size := 100 |}.

Definition decode (bin : Bin) : Sample :=
  {| dp := dpBin bin * 0.005;
     spread := spBin bin * 0.01;
     size := szBin bin * 100 |}.

Fixpoint selectBin (entries : list (Bin * float)) (random : float)
    : option Sample :=
  match entries with
  | [] => None
  | (binKey, weight) :: rest =>
      let random' := random - weight in
      if random' <=? 0 then Some (decode binKey)
      else selectBin rest random'
  end.

(** [sampleTick(regime, sign)]; [u] is the value of [Math.random()]. *)
Definition sampleTick (this : t) (regime : RegimeScheduler.Regime)
    (sign : RegimeScheduler.Sign) (u : float) : Sample :=
  let key := QuoteModel.transitionKey regime sign in
  match transition this !! key with
  | None => fallback
  | Some [] => fallback
  | Some entries =>
      let totalWeight := fold_left (fun sum e => sum + snd e) entries 0 in
      let random := u * totalWeight in
      default fallback (selectBin entries random)
  end.

End QuoteModel.

(** *** QuoteModel.ts: the quote generator *)

Module QuoteGenerator.

Record t := {
  model : QuoteModel.t;
  bid : float;
  ask : float
}.

Definition new (model : QuoteModel.t) (bid0 ask0 : float) : t :=
  {| model := model; bid := bid0; ask := ask0 |}.

(** A tick; [time] is the [Date] handed to [stepSecond], in milliseconds. *)
Record Tick := {
  time : Z;
  priceBid : float;
  priceAsk : float;
  sizeBid : float;
  sizeAsk : float
}.

Definition biasTowardTarget (this : t) (dp : float) (targetPrice : float)
    : float :=
  let currentPrice := bid this in
  let distanceToTarget := targetPrice - currentPrice in
  if PrimFloat.abs distanceToTarget <? currentPrice * 0.001 then dp
  else
    let desiredDirection := Math_sign distanceToTarget in
    let urgency :=
      Math_min 1.0 (PrimFloat.abs distanceToTarget / currentPrice * 20) in
    let biasFactor := 0.7 * urgency in
    let stepSize := Math_min 0.05 (PrimFloat.abs distanceToTarget * 0.1) in
    let biasedDp := desiredDirection * stepSize in
    let finalDp := biasFactor * biasedDp + (1 - biasFactor) * dp in
    finalDp.

(** One iteration of the loop of [stepSecond], drawing with [u]. *)
Definition stepOnce (this : t) (ts : Z) (regime : RegimeScheduler.Regime)
    (currentSign : RegimeScheduler.Sign) (targetPrice : option float)
    (u : float) : t * Tick * RegimeScheduler.Sign :=
  let t := QuoteModel.sampleTick (model this) regime currentSign u in
  let dp :=
    match targetPrice with
    | Some target => biasTowardTarget this (QuoteModel.dp t) target
    | None => QuoteModel.dp t
    end in
  let bid' := bid this + dp in
  let ask' := Math_max (bid' + QuoteModel.spread t) (bid' + 0.01) in
  let this' := {| model := model this; bid := bid'; ask := ask' |} in
  let tick := {|
    time := ts;
    priceBid := Math_round (bid' * 100) / 100;
    priceAsk := Math_round (ask' * 100) / 100;
    sizeBid := Math_floor (QuoteModel.size t / 2);
    sizeAsk := Math_floor (QuoteModel.size t / 2) |} in
  let nextSign :=
    if 0 <? dp then RegimeScheduler.U
    else if dp <? 0 then RegimeScheduler.D
    else RegimeScheduler.F in
  (this', tick, nextSign).

(** The loop [for (i = 0; i < n; i++)], entered at iteration [i] with [n]
    iterations left; iteration [i] draws [draws i]. *)
Fixpoint stepLoop (this : t) (ts : Z) (regime : RegimeScheduler.Regime)
    (targetPrice : option float) (draws : nat -> float) (n i : nat)
    (currentSign : RegimeScheduler.Sign) : t * list Tick :=
  match n with
  | O => (this, [])
  | S n' =>
      let '(this', tick, nextSign) :=
        stepOnce this ts regime currentSign targetPrice (draws i) in
      let '(final, ticks) :=
        stepLoop this' ts regime targetPrice draws n' (S i) nextSign in
      (final, tick :: ticks)
  end.

(** [stepSecond(ts, regime, sign, targetPrice)]; [n] is the count returned
    by [model.sampleNbUpdates(regime)], taken as given. *)
Definition stepSecond (this : t) (ts : Z) (regime : RegimeScheduler.Regime)
    (sign : RegimeScheduler.Sign) (targetPrice : option float)
    (n : nat) (draws : nat -> float) : t * list Tick :=
  stepLoop this ts regime targetPrice draws n 0%nat sign.

Definition getVolumeWeightedMid (this : t) (sizeBid sizeAsk : float)
    : float :=
  let totalSize := sizeBid + sizeAsk in
  if totalSize =? 0 then (bid this + ask this) / 2
  else (bid this * sizeAsk + ask this * sizeBid) / totalSize.

Definition getMid (this : t) : float := (bid this + ask this) / 2.

End QuoteGenerator.

(** *** PriceModel.ts: the recorded price and the pivot *)

Module PriceModel.

Record BufferEntry := {
  bid : float;
  ask : float;
  mid : float
}.

Inductive Pivot := PL | PH.

(** The fields of the price model that the price path reads and writes. *)
Record t := {
  generator : QuoteGenerator.t;
  window : nat;
  buffer : list BufferEntry;
  maxBufferSize : nat;
  pivot : option Pivot;
  pivotBid : float;
  pivotAsk : float;
  bestBid : float;
  bestAsk : float
}.

(** The constructor, for a scenario whose start price is [startPrice] and
    whose base spread is [spreadBase]. *)
Definition constructor (quoteModel : QuoteModel.t)
    (startPrice spreadBase : float) (windowSeconds : nat) : t :=
  let baseBid := startPrice in
  let baseAsk := baseBid + spreadBase in
  let maxBufferSize := (2 * windowSeconds + 1)%nat in
  {| generator := QuoteGenerator.new quoteModel baseBid baseAsk;
     window := windowSeconds;
     buffer :=
       replicate maxBufferSize
         {| bid := baseBid; ask := baseAsk; mid := (baseBid + baseAsk) / 2 |};
     maxBufferSize := maxBufferSize;
     pivot := None;
     pivotBid := baseBid;
     pivotAsk := baseAsk;
     bestBid := baseBid;
     bestAsk := baseAsk |}.

(** What one call of [update] reads from its environment on the price path:
    the date, the answer of [scheduler.getCurrentRegime(elapsedTime)], the
    number of updates drawn by the model and the draws of the tick
    sampler. *)
Record Input := {
  nowDt : Z;
  regime : RegimeScheduler.Regime;
  sign : RegimeScheduler.Sign;
  targetPrice : option float;
  nbUpdates : nat;
  draws : nat -> float
}.

Definition stepPrice (this : t) (generator' : QuoteGenerator.t)
    (ticks : list QuoteGenerator.Tick)
    : option (BufferEntry * float * float) :=
  match last ticks with
  | Some lastTick =>
      let bid := QuoteGenerator.priceBid lastTick in
      let ask := QuoteGenerator.priceAsk lastTick in
      let totalBidSize := QuoteGenerator.sizeBid lastTick in
      let totalAskSize := QuoteGenerator.sizeAsk lastTick in
      let mid :=
        QuoteGenerator.getVolumeWeightedMid generator' totalBidSize
          totalAskSize in
      Some ({| bid := bid; ask := ask; mid := mid |}, bid, ask)
  | None =>
      match last (buffer this) with
      | Some lastEntry => Some (lastEntry, bestBid this, bestAsk this)
      | None => None
      end
  end.

Definition pushEntry (buffer : list BufferEntry) (maxBufferSize : nat)
    (entry : BufferEntry) : list BufferEntry :=
  let pushed := buffer ++ [entry] in
  if (maxBufferSize <? length pushed)%nat then tail pushed else pushed.

Definition detectPivot (buffer : list BufferEntry) (centre : BufferEntry)
    : option Pivot :=
  let mids := map mid buffer in
  let maxMid := Math_max_list mids in
  let minMid := Math_min_list mids in
  if mid centre =? maxMid then Some PH
  else if mid centre =? minMid then Some PL
  else None.

(** [update()] from the call of [generator.stepSecond] on.  [None] stands
    for a TypeError thrown by the call. *)
Definition update (this : t) (input : Input) : option t :=
  let '(generator', ticks) :=
    QuoteGenerator.stepSecond (generator this) (nowDt input) (regime input)
      (sign input) (targetPrice input) (nbUpdates input) (draws input) in
  match stepPrice this generator' ticks with
  | None => None
  | Some (entry, bestBid', bestAsk') =>
      let buffer' := pushEntry (buffer this) (maxBufferSize this) entry in
      let detected :=
        if (length buffer' =? maxBufferSize this)%nat
        then
          match buffer' !! window this with
          | Some centre =>
              Some (detectPivot buffer' centre, bid centre, ask centre)
          | None => None
          end
        else Some (pivot this, pivotBid this, pivotAsk this) in
      match detected with
      | None => None
      | Some (pivot', pivotBid', pivotAsk') =>
          Some {| generator := generator'; window := window this;
                  buffer := buffer'; maxBufferSize := maxBufferSize this;
                  pivot := pivot'; pivotBid := pivotBid';
                  pivotAsk := pivotAsk'; bestBid := bestBid';
                  bestAsk := bestAsk' |}
      end
  end.

(** The states a run of updates goes through, one per update, oldest
    first; the run ends at the first update that throws. *)
Fixpoint trace (this : t) (inputs : list Input) : list t :=
  match inputs with
  | [] => []
  | input :: rest =>
      match update this input with
      | Some this' => this' :: trace this' rest
      | None => []
      end
  end.

(** The buffer holds [2 * window + 1] entries, which is its capacity. *)
Definition full (this : t) : Prop :=
  maxBufferSize this = (2 * window this + 1)%nat
  /\ length (buffer this) = maxBufferSize this.

(** The mid of the newest buffer entry: the one the last update recorded. *)
Definition recordedMid (this : t) : option float :=
  mid <$> last (buffer this).

End PriceModel.

(** *** RegimeScheduler.ts: the draw of the breakout start time *)

Module RegimeScheduler.

(** [minTime + Math.random() * (maxTime - minTime)], with [u] the value of
    [Math.random()]. *)
Definition breakoutStartTime (minTime maxTime u : float) : float :=
  minTime + u * (maxTime - minTime).

End RegimeScheduler.

End Double.


(** ** Vocabulary of the specification *)

(** Properties of a timeline, as section 4.4 of the specification words
    them. *)
Module Timeline.

(** [t] lies in the half-open interval of [segment]. *)
Definition inSegment (segment : RegimeScheduler.RegimeSegment.t) (t : Q)
    : Prop :=
  RegimeScheduler.RegimeSegment.startTime segment <= t
  /\ t < RegimeScheduler.RegimeSegment.endTime segment.

(** The first segment starts at [from] and each segment starts where the
    previous one ends. *)
Fixpoint contiguous (from : Q) (segments : list RegimeScheduler.RegimeSegment.t)
    : Prop :=
  match segments with
  | [] => True
  | segment :: rest =>
      RegimeScheduler.RegimeSegment.startTime segment == from
      /\ contiguous (RegimeScheduler.RegimeSegment.endTime segment) rest
  end.

(** No instant belongs to two segments of the list. *)
Definition nonOverlapping (segments : list RegimeScheduler.RegimeSegment.t)
    : Prop :=
  forall (i j : nat) si sj (t : Q),
    segments !! i = Some si -> segments !! j = Some sj ->
    inSegment si t -> inSegment sj t -> i = j.

(** The union of the segments is exactly [[lo, hi)]. *)
Definition unionIs (segments : list RegimeScheduler.RegimeSegment.t)
    (lo hi : Q) : Prop :=
  forall t : Q,
    (exists segment, In segment segments /\ inSegment segment t)
    <-> lo <= t /\ t < hi.

(** The timeline invariant: contiguous from 0, non-overlapping, and
    covering exactly [[0, duration)]. *)
Definition partitions (duration : Q)
    (segments : list RegimeScheduler.RegimeSegment.t) : Prop :=
  contiguous 0 segments /\ nonOverlapping segments
  /\ unionIs segments 0 duration.

(** A contiguous run of well-oriented segments from [from] to [to]. *)
Fixpoint chain (from : Q) (segments : list RegimeScheduler.RegimeSegment.t)
    (to : Q) : Prop :=
  match segments with
  | [] => from == to
  | segment :: rest =>
      RegimeScheduler.RegimeSegment.startTime segment == from
      /\ RegimeScheduler.RegimeSegment.startTime segment
         <= RegimeScheduler.RegimeSegment.endTime segment
      /\ chain (RegimeScheduler.RegimeSegment.endTime segment) rest to
  end.

(** The sorted events follow one another inside [[from, duration]]: each
    starts no earlier than the previous one ends, ends no earlier than it
    starts, and ends by [duration]. *)
Fixpoint separated (from duration : Q) (events : list RegimeScheduler.Event.t)
    : Prop :=
  match events with
  | [] => True
  | event :: rest =>
      from <= RegimeScheduler.Event.startTime event
      /\ RegimeScheduler.Event.startTime event
         <= RegimeScheduler.Event.endTime event
      /\ RegimeScheduler.Event.endTime event <= duration
      /\ separated (RegimeScheduler.Event.endTime event) duration rest
  end.

(** The sorted events follow one another from [from] on: each starts no
    earlier than the previous one ends and ends no earlier than it starts.
    Nothing is asked of where they end. *)
Fixpoint ordered (from : Q) (events : list RegimeScheduler.Event.t) : Prop :=
  match events with
  | [] => True
  | event :: rest =>
      from <= RegimeScheduler.Event.startTime event
      /\ RegimeScheduler.Event.startTime event
         <= RegimeScheduler.Event.endTime event
      /\ ordered (RegimeScheduler.Event.endTime event) rest
  end.

(** No segment before the last one ends after the last one starts: no
    earlier segment reaches into the last. *)
Definition lastUnreached (segments : list RegimeScheduler.RegimeSegment.t)
    : Prop :=
  forall init lastSegment,
    segments = init ++ [lastSegment] ->
    Forall (fun segment =>
              RegimeScheduler.RegimeSegment.endTime segment
              <= RegimeScheduler.RegimeSegment.startTime lastSegment) init.

(** Lookups at and beyond [duration] answer what a lookup just before
    [duration], inside the last segment, answers. *)
Definition saturatesAtTail (this : RegimeScheduler.t) (duration : Q) : Prop :=
  forall (eps : Q) lastSegment (t : Q),
    0 < eps ->
    last (RegimeScheduler.timeline this) = Some lastSegment ->
    inSegment lastSegment (duration - eps) ->
    duration <= t ->
    RegimeScheduler.getCurrentRegime this t
    = RegimeScheduler.getCurrentRegime this (duration - eps).

(** The segment is a ranging period: regime Normal/Outside, flat, without
    target, and of positive length. *)
Definition isRanging (segment : RegimeScheduler.RegimeSegment.t) : Prop :=
  RegimeScheduler.RegimeSegment.regime segment = ("N", "O")%string
  /\ RegimeScheduler.RegimeSegment.sign segment = RegimeScheduler.F
  /\ RegimeScheduler.RegimeSegment.targetPrice segment = None
  /\ RegimeScheduler.RegimeSegment.startTime segment
     < RegimeScheduler.RegimeSegment.endTime segment.

(** The segment is a breakout move towards a target: regime
    Normal/Breakout, sign Up when the target is above [startPrice] and Down
    otherwise. *)
Definition isBreakoutMove (startPrice : Q)
    (segment : RegimeScheduler.RegimeSegment.t) : Prop :=
  RegimeScheduler.RegimeSegment.regime segment = ("N", "B")%string
  /\ exists target,
       RegimeScheduler.RegimeSegment.targetPrice segment = Some target
       /\ (startPrice < target ->
           RegimeScheduler.RegimeSegment.sign segment = RegimeScheduler.U)
       /\ (target <= startPrice ->
           RegimeScheduler.RegimeSegment.sign segment = RegimeScheduler.D).

(** The breakout tag of a segment is ["B"]. *)
Definition breakoutTagged (segment : RegimeScheduler.RegimeSegment.t) : bool :=
  bool_decide (snd (RegimeScheduler.RegimeSegment.regime segment) = "B"%string).

End Timeline.

(** The formulas of the specification, written as it words them. *)
Module Spec.

(** [clamp(x, lo, hi)]. *)
Definition clamp (x lo hi : Q) : Q :=
  if JS.Qltb x lo then lo else if JS.Qltb hi x then hi else x.

(** The speed-to-duration policy table of section 4.4. *)
Definition speedPolicy (speed : MarketScenario.BreakoutSpeed) (m : Q) : Q :=
  match speed with
  | MarketScenario.instant => 2
  | MarketScenario.gradual => clamp (10 + m * 5) 8 30
  | MarketScenario.accelerating => clamp (15 + m * 8) 10 40
  end.

(** The target bias as the specification words it, for the price [current],
    the model's delta [dp] and the target [target]. *)
Definition targetBias (current dp target : Q) : Q :=
  let distance := target - current in
  if JS.Qltb (Qabs distance) (current * 0.001) then dp
  else
    let direction := JS.Math_sign distance in
    let biasFactor := 0.7 * clamp (Qabs distance / current * 20) 0 1 in
    let stepMagnitude := Qmin 0.05 (Qabs distance * 0.1) in
    biasFactor * (direction * stepMagnitude) + (1 - biasFactor) * dp.

(** What step 1 of section 4.4 records for a scenario, the policy being
    applied to [m]. *)
Definition recordsBreakout (m : Q) (scenario : MarketScenario.t)
    (ev : RegimeScheduler.BreakoutEvent.t) : Prop :=
  let breakout := MarketScenario.breakout scenario in
  RegimeScheduler.BreakoutEvent.type ev = MarketScenario.type breakout
  /\ RegimeScheduler.BreakoutEvent.speed ev = MarketScenario.speed breakout
  /\ RegimeScheduler.BreakoutEvent.targetPrice ev
     == MarketScenario.startPrice scenario
        * (1 + MarketScenario.magnitude breakout / 100)
  /\ RegimeScheduler.BreakoutEvent.endTime ev
     == Qmin (RegimeScheduler.BreakoutEvent.startTime ev
              + speedPolicy (MarketScenario.speed breakout) m)
             (MarketScenario.duration scenario).

(** The buffer of a price model is full: it holds [2 * window + 1]
    entries, which is its capacity. *)
Definition bufferFull (this : PriceModel.t) : Prop :=
  PriceModel.maxBufferSize this = (2 * PriceModel.window this + 1)%nat
  /\ length (PriceModel.buffer this) = PriceModel.maxBufferSize this.

(** The regime the scheduler of a price model answers for an update whose
    clock reading is [now]. *)
Definition regimeAt (this : PriceModel.t) (now : Q)
    : RegimeScheduler.CurrentRegime :=
  RegimeScheduler.getCurrentRegime (PriceModel.scheduler this)
    (now - PriceModel.startTime this).

(** The generator state and the ticks of the step an update makes. *)
Definition stepOf (this : PriceModel.t) (input : PriceModel.Input)
    : QuoteGenerator.t * list QuoteGenerator.Tick :=
  let current := regimeAt this (PriceModel.now input) in
  QuoteGenerator.stepSecond (PriceModel.generator this)
    (PriceModel.nowDt input) (RegimeScheduler.regime current)
    (RegimeScheduler.sign current) (RegimeScheduler.targetPrice current)
    (PriceModel.nbUpdates input) (PriceModel.draws input).

(** The product of the first [n] draws. *)
Fixpoint productOfDraws (draws : nat -> Q) (n : nat) : Q :=
  match n with
  | O => 1
  | S n' => productOfDraws draws n' * draws n'
  end.

(** The price model as [update] sees it once it has read the clock: the
    elapsed time is [now - startTime]. *)
Definition clocked (this : PriceModel.t) (input : PriceModel.Input)
    : PriceModel.t := {|
  PriceModel.generator := PriceModel.generator this;
  PriceModel.window := PriceModel.window this;
  PriceModel.buffer := PriceModel.buffer this;
  PriceModel.maxBufferSize := PriceModel.maxBufferSize this;
  PriceModel.scenario := PriceModel.scenario this;
  PriceModel.scheduler := PriceModel.scheduler this;
  PriceModel.notifier := PriceModel.notifier this;
  PriceModel.startTime := PriceModel.startTime this;
  PriceModel.elapsedTime := PriceModel.now input - PriceModel.startTime this;
  PriceModel.hasNotifiedBreakoutStart :=
    PriceModel.hasNotifiedBreakoutStart this;
  PriceModel.pivot := PriceModel.pivot this;
  PriceModel.pivotBid := PriceModel.pivotBid this;
  PriceModel.pivotAsk := PriceModel.pivotAsk this;
  PriceModel.bestBid := PriceModel.bestBid this;
  PriceModel.bestAsk := PriceModel.bestAsk this
|}.

(** The price model was built by the constructor for [quoteModel] and
    [windowSeconds] and has since gone through the operations [ops]. *)
Definition reached (quoteModel : QuoteModel.t) (windowSeconds : nat)
    (this : PriceModel.t) : Prop :=
  exists scenario rand now ops,
    PriceModel.run
      (PriceModel.constructor quoteModel scenario windowSeconds rand now) ops
    = Some this.

End Spec.

(** Concrete inputs used by the examples below. *)
Module Examples.

(** The random source that always answers [u]. *)
Definition constRand (u : Q) : nat -> Q := fun _ => u.

(** A 60-second bullish scenario whose fake breakout reverses slowly: with
    the draws at 0 the reversal runs over [[42.5, 72.5)] and the main
    breakout over [[45, 60)]. *)
Definition overlappingFakeScenario : MarketScenario.t := {|
  MarketScenario.startPrice := 100.0;
  MarketScenario.duration := 60;
  MarketScenario.breakout := {|
    MarketScenario.type := MarketScenario.bullish;
    MarketScenario.timeWindow := (45, 55);
    MarketScenario.magnitude := 1.0;
    MarketScenario.speed := MarketScenario.gradual;
    MarketScenario.preWarning := Some 5;
    MarketScenario.notification := true |};
  MarketScenario.spread := {|
    MarketScenario.base := 0.02;
    MarketScenario.volatilityMultiplier := 1.5;
    MarketScenario.minSpread := 0.01;
    MarketScenario.maxSpread := 0.10 |};
  MarketScenario.advanced := Some {|
    MarketScenario.fakeBreakouts := Some [
      MarketScenario.FakeBreakoutConfig.mk (30, 35) 0.5 30 ] |};
  MarketScenario.recordReactionTime := true
|}.

(** A 60-second scenario without main breakout whose fake breakout runs
    over [[30, 42.5)] and reverses over [[42.5, 72.5)], past the end of the
    scenario, with the draw at 0. *)
Definition lateReversalScenario : MarketScenario.t := {|
  MarketScenario.startPrice := 100.0;
  MarketScenario.duration := 60;
  MarketScenario.breakout := {|
    MarketScenario.type := MarketScenario.none;
    MarketScenario.timeWindow := (0, 0);
    MarketScenario.magnitude := 0;
    MarketScenario.speed := MarketScenario.gradual;
    MarketScenario.preWarning := None;
    MarketScenario.notification := false |};
  MarketScenario.spread := {|
    MarketScenario.base := 0.02;
    MarketScenario.volatilityMultiplier := 1.5;
    MarketScenario.minSpread := 0.01;
    MarketScenario.maxSpread := 0.10 |};
  MarketScenario.advanced := Some {|
    MarketScenario.fakeBreakouts := Some [
      MarketScenario.FakeBreakoutConfig.mk (30, 30) 0.5 30 ] |};
  MarketScenario.recordReactionTime := true
|}.

(** The largest double below 1, [1 - 2^-53]. *)
Definition largestDraw : float := 0x1.fffffffffffffp-1%float.

(** The zero-weight model in doubles: its only bucket, for the ranging
    regime, has weight zero; it is drawn at every tick and moves nothing
    (delta 0, spread 0.02, size 100). *)
Definition zeroWeightDouble : Double.QuoteModel.t := {|
  Double.QuoteModel.transition := {[ "N,O,F"%string := [
    ({| Double.QuoteModel.dpBin := 0%float;
        Double.QuoteModel.spBin := 2%float;
        Double.QuoteModel.szBin := 1%float |}, 0%float) ] ]};
  Double.QuoteModel.ticksPerRegime := {[ "N,O"%string := 1%float ]};
  Double.QuoteModel.secondsPerRegime := {[ "N,O"%string := 1%float ]}
|}.

(** A model whose only bucket, for the ranging regime, holds the bin
    ["1,1,1"]: every tick moves the bid up by half a cent with a spread of
    one cent. *)
Definition halfCentDouble : Double.QuoteModel.t := {|
  Double.QuoteModel.transition := {[ "N,O,F"%string := [
    ({| Double.QuoteModel.dpBin := 1%float;
        Double.QuoteModel.spBin := 1%float;
        Double.QuoteModel.szBin := 1%float |}, 1%float) ] ]};
  Double.QuoteModel.ticksPerRegime := {[ "N,O"%string := 1%float ]};
  Double.QuoteModel.secondsPerRegime := {[ "N,O"%string := 1%float ]}
|}.

(** What the update made at second [k] of the ranging preset reads on the
    price path: the regime and sign its scheduler answers at that elapsed
    time (a ranging timeline has no target), [n] ticks, every draw at one
    half. *)
Definition rangingInput (n : nat) (k : nat) : Double.PriceModel.Input :=
  let current :=
    RegimeScheduler.getCurrentRegime
      (RegimeScheduler.schedule RegimeScheduler.new
         MarketScenario.createRangingScenario (constRand 0))
      (inject_Z (Z.of_nat k)) in
  {| Double.PriceModel.nowDt := 1000 * Z.of_nat k;
     Double.PriceModel.regime := RegimeScheduler.regime current;
     Double.PriceModel.sign := RegimeScheduler.sign current;
     Double.PriceModel.targetPrice := None;
     Double.PriceModel.nbUpdates := n;
     Double.PriceModel.draws := fun _ => 0.5%float |}.


(** The price path of the ranging preset (start price 100, base spread
    0.02) over [model], window 5. *)
Definition rangingDouble (model : Double.QuoteModel.t)
    : Double.PriceModel.t :=
  Double.PriceModel.constructor model 100%float 0.02%float 5.

(** A model whose table has the key ["N,B,U"] with no bucket in it. *)
Definition emptyBucketModel : QuoteModel.t := {|
  QuoteModel.transition := {[ "N,B,U"%string := [] ]};
  QuoteModel.ticksPerRegime := ∅;
  QuoteModel.secondsPerRegime := ∅
|}.

(** A model with two bins for the ranging regime; the second has a negative
    spread bucket. *)
Definition twoBinModel : QuoteModel.t := {|
  QuoteModel.transition := {[ "N,O,F"%string := [
    ({| QuoteModel.dpBin := 0; QuoteModel.spBin := 2; QuoteModel.szBin := 1 |},
     1);
    ({| QuoteModel.dpBin := 2; QuoteModel.spBin := -3; QuoteModel.szBin := 5 |},
     3) ] ]};
  QuoteModel.ticksPerRegime := {[ "N,O"%string := 3 ]};
  QuoteModel.secondsPerRegime := {[ "N,O"%string := 2 ]}
|}.

(** A model whose only bucket, for the ranging regime, has weight zero: it
    is drawn at every tick and moves nothing (delta 0, spread 0.02). *)
Definition zeroWeightModel : QuoteModel.t := {|
  QuoteModel.transition := {[ "N,O,F"%string := [
    ({| QuoteModel.dpBin := 0; QuoteModel.spBin := 2; QuoteModel.szBin := 1 |},
     0) ] ]};
  QuoteModel.ticksPerRegime := {[ "N,O"%string := 1 ]};
  QuoteModel.secondsPerRegime := {[ "N,O"%string := 1 ]}
|}.

(** The environment of the update made at second [k]: [n] ticks, every draw
    at one half. *)
Definition inputAt (n : nat) (k : nat) : PriceModel.Input := {|
  PriceModel.nowDt := inject_Z (Z.of_nat k) * 1000;
  PriceModel.now := inject_Z (Z.of_nat k);
  PriceModel.nowWarning := inject_Z (Z.of_nat k);
  PriceModel.nowStart := inject_Z (Z.of_nat k);
  PriceModel.nowProgress := inject_Z (Z.of_nat k);
  PriceModel.nowCompletion := inject_Z (Z.of_nat k);
  PriceModel.nbUpdates := n;
  PriceModel.draws := constRand (1 # 2)
|}.

(** [count] updates, one per second from second 1, each with [n] ticks. *)
Definition updates (n count : nat) : list PriceModel.Op :=
  map (fun k => PriceModel.OpUpdate (inputAt n k)) (seq 1 count).

(** The ranging preset over [model], window 5, started at second 0. *)
Definition rangingModel (model : QuoteModel.t) : PriceModel.t :=
  PriceModel.constructor model (Some MarketScenario.createRangingScenario) 5
    (constRand 0) 0.

(** A 50-second bullish scenario: with the draw at 9/10 the breakout starts
    at 38 and is cut at the end of the scenario. *)
Definition clampedScenario : MarketScenario.t := {|
  MarketScenario.startPrice := 100.0;
  MarketScenario.duration := 50;
  MarketScenario.breakout := {|
    MarketScenario.type := MarketScenario.bullish;
    MarketScenario.timeWindow := (20, 40);
    MarketScenario.magnitude := 1.0;
    MarketScenario.speed := MarketScenario.gradual;
    MarketScenario.preWarning := Some 5;
    MarketScenario.notification := true |};
  MarketScenario.spread := {|
    MarketScenario.base := 0.02;
    MarketScenario.volatilityMultiplier := 1.5;
    MarketScenario.minSpread := 0.01;
    MarketScenario.maxSpread := 0.10 |};
  MarketScenario.advanced := None;
  MarketScenario.recordReactionTime := true
|}.

(** A start event as [notifyBreakoutStart] builds it. *)
Definition startEvent : BreakoutNotifier.BreakoutEvent.t := {|
  BreakoutNotifier.BreakoutEvent.type := BreakoutNotifier.start;
  BreakoutNotifier.BreakoutEvent.breakoutType := MarketScenario.bullish;
  BreakoutNotifier.BreakoutEvent.timeToBreakout := None;
  BreakoutNotifier.BreakoutEvent.currentPrice := Some 100;
  BreakoutNotifier.BreakoutEvent.targetPrice := Some 101;
  BreakoutNotifier.BreakoutEvent.magnitude := Some 1;
  BreakoutNotifier.BreakoutEvent.expectedDuration := Some 15;
  BreakoutNotifier.BreakoutEvent.progress := None;
  BreakoutNotifier.BreakoutEvent.timestamp := 10 |}.

(** A notifier with callback 7 subscribed to start events. *)
Definition oneListener : BreakoutNotifier.t :=
  BreakoutNotifier.on BreakoutNotifier.new BreakoutNotifier.start 7%nat.

(** A notifier with callback 7 subscribed twice to start events. *)
Definition twiceSubscribed : BreakoutNotifier.t :=
  BreakoutNotifier.on oneListener BreakoutNotifier.start 7%nat.

End Examples.

(** * Properties *)

(** ** Comparisons and rounding on numbers *)

Lemma Qltb_lt (x y : Q) : JS.Qltb x y = true <-> x < y.
Proof.
  unfold JS.Qltb. rewrite negb_true_iff.
  split; intros H.
  - apply Qnot_le_lt. intros Hle. apply Qle_bool_iff in Hle. congruence.
  - destruct (Qle_bool y x) eqn:E; [|reflexivity].
    apply Qle_bool_iff in E. apply Qle_not_lt in E. contradiction.
Qed.

Lemma Qltb_ge (x y : Q) : JS.Qltb x y = false <-> y <= x.
Proof.
  unfold JS.Qltb. rewrite negb_false_iff. apply Qle_bool_iff.
Qed.

Lemma Qle_bool_false (x y : Q) : Qle_bool x y = false <-> y < x.
Proof.
  rewrite <- Qltb_lt. unfold JS.Qltb.
  destruct (Qle_bool x y); simpl; split; congruence.
Qed.

(** Case analysis on a comparison, leaving its meaning in the context. *)
Ltac case_Qltb x y :=
  let E := fresh "Hcmp" in
  destruct (JS.Qltb x y) eqn:E;
  [apply Qltb_lt in E | apply Qltb_ge in E].

Ltac case_Qle x y :=
  let E := fresh "Hcmp" in
  destruct (Qle_bool x y) eqn:E;
  [apply Qle_bool_iff in E | apply Qle_bool_false in E].

(** Closed comparisons between numerals, settled by evaluation. *)
Ltac eval_Q :=
  vm_compute; repeat split;
  first [ reflexivity | discriminate | (intros; discriminate) | exact I ].

Lemma Qmax_cases (x y : Q) :
  (y <= x /\ Qmax x y == x) \/ (x <= y /\ Qmax x y == y).
Proof.
  destruct (Qlt_le_dec x y) as [H|H].
  - right. split; [apply Qlt_le_weak; exact H|].
    apply Q.max_r. apply Qlt_le_weak; exact H.
  - left. split; [exact H|]. apply Q.max_l. exact H.
Qed.

Lemma Qmin_cases (x y : Q) :
  (x <= y /\ Qmin x y == x) \/ (y <= x /\ Qmin x y == y).
Proof.
  destruct (Qlt_le_dec y x) as [H|H].
  - right. split; [apply Qlt_le_weak; exact H|].
    apply Q.min_r. apply Qlt_le_weak; exact H.
  - left. split; [exact H|]. apply Q.min_l. exact H.
Qed.

Lemma Qabs_cases (x : Q) :
  (0 <= x /\ Qabs x == x) \/ (x <= 0 /\ Qabs x == - x).
Proof.
  destruct (Qlt_le_dec x 0) as [H|H].
  - right. split; [apply Qlt_le_weak; exact H|].
    apply Qabs_neg. apply Qlt_le_weak; exact H.
  - left. split; [exact H|]. apply Qabs_pos. exact H.
Qed.

(** The policy of the source is the clamp of the specification. *)
Lemma clamp_max_min (x lo hi : Q) :
  lo <= hi -> Qmax lo (Qmin hi x) == Spec.clamp x lo hi.
Proof.
  intros Hlohi. unfold Spec.clamp.
  case_Qltb x lo; [|case_Qltb hi x];
    destruct (Qmin_cases hi x) as [[? Hm]|[? Hm]];
    destruct (Qmax_cases lo (Qmin hi x)) as [[? HM]|[? HM]];
    rewrite ?HM, ?Hm in *; lra.
Qed.

Lemma calculateBreakoutDuration_policy speed (m : Q) :
  RegimeScheduler.calculateBreakoutDuration speed m == Spec.speedPolicy speed m.
Proof.
  destruct speed; simpl.
  - reflexivity.
  - apply clamp_max_min. lra.
  - apply clamp_max_min. lra.
Qed.

(** ** The timeline built by [schedule] *)

Section Chains.

Import RegimeScheduler.

Implicit Types (segments : list RegimeSegment.t) (segment : RegimeSegment.t).

Lemma chain_le from segments to :
  Timeline.chain from segments to -> from <= to.
Proof.
  revert from. induction segments as [|segment rest IH]; simpl; intros from H.
  - rewrite H. apply Qle_refl.
  - destruct H as (Hs & Ho & Hrest). apply IH in Hrest. lra.
Qed.

Lemma chain_app from mid to segments1 segments2 :
  Timeline.chain from segments1 mid -> Timeline.chain mid segments2 to ->
  Timeline.chain from (segments1 ++ segments2) to.
Proof.
  revert from. induction segments1 as [|segment rest IH]; simpl; intros from H1 H2.
  - destruct segments2 as [|s2 r2]; simpl in *.
    + lra.
    + destruct H2 as (Hs & Ho & Hrest). repeat split; try assumption. lra.
  - destruct H1 as (Hs & Ho & Hrest). repeat split; try assumption.
    apply IH; assumption.
Qed.

Lemma chain_contiguous from segments to :
  Timeline.chain from segments to -> Timeline.contiguous from segments.
Proof.
  revert from. induction segments as [|segment rest IH]; simpl; intros from H.
  - exact I.
  - destruct H as (Hs & Ho & Hrest). split; [exact Hs | apply IH; exact Hrest].
Qed.

(** Every segment of a chain lies between its two ends. *)
Lemma chain_bounds from segments to segment :
  Timeline.chain from segments to -> In segment segments ->
  from <= RegimeSegment.startTime segment
  /\ RegimeSegment.startTime segment <= RegimeSegment.endTime segment
  /\ RegimeSegment.endTime segment <= to.
Proof.
  revert from. induction segments as [|s rest IH]; simpl; intros from H Hin.
  - contradiction.
  - destruct H as (Hs & Ho & Hrest). destruct Hin as [->|Hin].
    + apply chain_le in Hrest. lra.
    + destruct (IH _ Hrest Hin) as (H1 & H2 & H3). lra.
Qed.

Lemma chain_union from segments to :
  Timeline.chain from segments to -> Timeline.unionIs segments from to.
Proof.
  revert from. induction segments as [|s rest IH]; simpl; intros from H t.
  - split.
    + intros (segment & [] & _).
    + intros [H1 H2]. lra.
  - destruct H as (Hs & Ho & Hrest).
    pose proof (chain_le _ _ _ Hrest) as Hle.
    specialize (IH _ Hrest t). split.
    + intros (segment & [<-|Hin] & [H1 H2]).
      * lra.
      * assert (RegimeSegment.endTime s <= t /\ t < to) as [? ?]
          by (apply IH; exists segment; split; [exact Hin | split; assumption]).
        lra.
    + intros [H1 H2].
      destruct (Qlt_le_dec t (RegimeSegment.endTime s)) as [Hlt|Hge].
      * exists s. split; [left; reflexivity | split; lra].
      * destruct IH as [_ IH]. destruct (IH (conj Hge H2)) as (segment & Hin & Hseg).
        exists segment. split; [right; exact Hin | exact Hseg].
Qed.

Lemma chain_nonOverlapping from segments to :
  Timeline.chain from segments to -> Timeline.nonOverlapping segments.
Proof.
  revert from. induction segments as [|s rest IH]; simpl; intros from H.
  - intros i j si sj t Hi. rewrite lookup_nil in Hi. discriminate.
  - destruct H as (Hs & Ho & Hrest).
    assert (Hlater : forall k sk t, rest !! k = Some sk ->
              Timeline.inSegment s t -> Timeline.inSegment sk t -> False).
    { intros k sk t Hk [_ H2] [H3 _].
      apply list_elem_of_lookup_2, list_elem_of_In in Hk.
      destruct (chain_bounds _ _ _ _ Hrest Hk) as (H4 & _). lra. }
    intros [|i] [|j] si sj t Hi Hj Hsi Hsj; simpl in Hi, Hj.
    + reflexivity.
    + injection Hi as <-. exfalso. eapply Hlater; eassumption.
    + injection Hj as <-. exfalso. eapply Hlater; eassumption.
    + f_equal. eapply (IH _ Hrest); eassumption.
Qed.

(** In a chain, an instant at or after the start of the last segment is
    found in the last segment or nowhere. *)
Lemma findSegment_chain_last from init lastSegment to (t : Q) :
  Timeline.chain from (init ++ [lastSegment]) to ->
  RegimeSegment.startTime lastSegment <= t ->
  findSegment (init ++ [lastSegment]) t = Some lastSegment
  \/ findSegment (init ++ [lastSegment]) t = None.
Proof.
  revert from. induction init as [|s rest IH]; simpl; intros from H Ht.
  - destruct (contains lastSegment t); [left | right]; reflexivity.
  - destruct H as (Hs & Ho & Hrest).
    assert (Hend : RegimeSegment.endTime s <= RegimeSegment.startTime lastSegment).
    { assert (Hin : In lastSegment (rest ++ [lastSegment]))
        by (apply in_or_app; right; left; reflexivity).
      destruct (chain_bounds _ _ _ _ Hrest Hin) as (H1 & _). exact H1. }
    unfold contains.
    case_Qltb t (RegimeSegment.endTime s).
    + lra.
    + rewrite andb_false_r. eapply IH; eassumption.
Qed.

End Chains.

Section Schedule.

Import RegimeScheduler.

Lemma chain_end_eq from segments (to to' : Q) :
  Timeline.chain from segments to -> to == to' ->
  Timeline.chain from segments to'.
Proof.
  revert from. induction segments as [|s r IH]; simpl; intros from H Heq.
  - lra.
  - destruct H as (H1 & H2 & H3). repeat split; try assumption.
    apply IH; assumption.
Qed.

Lemma buildSegments_chain startPrice (duration : Q) events : forall from,
  Timeline.separated from duration events ->
  Timeline.chain from (fst (buildSegments startPrice from events))
    (snd (buildSegments startPrice from events)).
Proof.
  induction events as [|event rest IH]; simpl; intros from H.
  - reflexivity.
  - destruct H as (Hfrom & Horient & Hend & Hrest).
    specialize (IH _ Hrest).
    destruct (buildSegments startPrice (Event.endTime event) rest)
      as [more final] eqn:Hbuild.
    simpl in *.
    case_Qltb from (Event.startTime event); simpl.
    + repeat split; try reflexivity; try assumption; lra.
    + repeat split; try assumption; lra.
Qed.

(** The loop leaves [currentTime] at the end of the last event. *)
Lemma buildSegments_final startPrice (duration : Q) events : forall from,
  Timeline.separated from duration events -> from <= duration ->
  snd (buildSegments startPrice from events) <= duration.
Proof.
  induction events as [|event rest IH]; simpl; intros from H Hle.
  - exact Hle.
  - destruct H as (Hfrom & Horient & Hend & Hrest).
    specialize (IH _ Hrest Hend).
    destruct (buildSegments startPrice (Event.endTime event) rest)
      as [more final] eqn:Hbuild.
    exact IH.
Qed.

Lemma buildSegments_nil_inv startPrice events : forall from,
  fst (buildSegments startPrice from events) = [] -> events = [].
Proof.
  destruct events as [|event rest]; simpl; intros from H.
  - reflexivity.
  - destruct (buildSegments startPrice (Event.endTime event) rest)
      as [more final].
    simpl in H. apply app_eq_nil in H as [_ H]. discriminate.
Qed.

(** The timeline of [schedule] is the segments of the loop followed by the
    closing ranging segment. *)
Lemma schedule_timeline this scenario rand :
  let built :=
    buildSegments (MarketScenario.startPrice scenario) 0
      (sortEvents (allEvents scenario rand)) in
  timeline (schedule this scenario rand)
  = fst built
    ++ (if JS.Qltb (snd built) (MarketScenario.duration scenario)
        then [rangingSegment (snd built) (MarketScenario.duration scenario)
                "Post-breakout ranging"]
        else []).
Proof.
  unfold schedule. simpl.
  destruct (buildSegments (MarketScenario.startPrice scenario) 0
              (sortEvents (allEvents scenario rand))) as [segments currentTime].
  reflexivity.
Qed.

(** For separated events the timeline is empty (and the duration is not
    positive), or it is a chain from 0 to the duration. *)
Lemma schedule_chain this scenario rand :
  Timeline.separated 0 (MarketScenario.duration scenario)
    (sortEvents (allEvents scenario rand)) ->
  (timeline (schedule this scenario rand) = []
   /\ MarketScenario.duration scenario <= 0)
  \/ Timeline.chain 0 (timeline (schedule this scenario rand))
       (MarketScenario.duration scenario).
Proof.
  intros Hsep. rewrite schedule_timeline. cbv zeta.
  pose proof (buildSegments_chain (MarketScenario.startPrice scenario) _ _ _ Hsep)
    as Hchain.
  set (built := buildSegments (MarketScenario.startPrice scenario) 0
                  (sortEvents (allEvents scenario rand))) in *.
  case_Qltb (snd built) (MarketScenario.duration scenario).
  - right. eapply chain_app; [exact Hchain|].
    simpl. repeat split; try reflexivity. lra.
  - rewrite app_nil_r.
    destruct (fst built) as [|segment rest] eqn:Hfst.
    + left. split; [reflexivity|].
      apply buildSegments_nil_inv in Hfst.
      subst built. rewrite Hfst in Hcmp. simpl in Hcmp. exact Hcmp.
    + right.
      assert (Hle : snd built <= MarketScenario.duration scenario).
      { destruct (Qlt_le_dec (MarketScenario.duration scenario) 0) as [Hneg|Hpos].
        - exfalso.
          destruct (sortEvents (allEvents scenario rand)) as [|event more] eqn:Hev.
          + subst built. simpl in Hfst. discriminate.
          + simpl in Hsep. destruct Hsep as (H1 & H2 & H3 & _). lra.
        - apply buildSegments_final; assumption. }
      assert (Heq : snd built == MarketScenario.duration scenario) by lra.
      eapply chain_end_eq; eassumption.
Qed.

End Schedule.

(** C1 (as amended).  When the events of a scenario, sorted by start time,
    follow one another inside [[0, duration]] (each starts no earlier than
    the previous one ends, the first no earlier than 0, none ends before it
    starts, none ends after [duration]), the timeline produced by
    [schedule] is contiguous from 0, pairwise non-overlapping, and its union
    is exactly [[0, duration)]. *)
Theorem schedule_partitions_duration
    (this : RegimeScheduler.t) (scenario : MarketScenario.t) (rand : nat -> Q) :
  Timeline.separated 0 (MarketScenario.duration scenario)
    (RegimeScheduler.sortEvents (RegimeScheduler.allEvents scenario rand)) ->
  Timeline.partitions (MarketScenario.duration scenario)
    (RegimeScheduler.timeline (RegimeScheduler.schedule this scenario rand)).
Proof.
  intros Hsep.
  destruct (schedule_chain this scenario rand Hsep) as [[Hnil Hdur]|Hchain].
  - rewrite Hnil. repeat split.
    + intros i j si sj t Hi. rewrite lookup_nil in Hi. discriminate.
    + destruct H as (segment & [] & _).
    + destruct H as (segment & [] & _).
    + intros [H1 H2]. lra.
  - split; [|split].
    + eapply chain_contiguous; exact Hchain.
    + eapply chain_nonOverlapping; exact Hchain.
    + eapply chain_union; exact Hchain.
Qed.

(** C1, instance: the fake-then-real preset, every draw at one half. *)
Lemma schedule_partitions_duration_witness :
  Timeline.separated 0
    (MarketScenario.duration MarketScenario.createFakeBreakoutScenario)
    (RegimeScheduler.sortEvents
       (RegimeScheduler.allEvents MarketScenario.createFakeBreakoutScenario
          (Examples.constRand (1 # 2))))
  /\ Timeline.partitions
       (MarketScenario.duration MarketScenario.createFakeBreakoutScenario)
       (RegimeScheduler.timeline
          (RegimeScheduler.schedule RegimeScheduler.new
             MarketScenario.createFakeBreakoutScenario
             (Examples.constRand (1 # 2)))).
Proof.
  split.
  - eval_Q.
  - apply schedule_partitions_duration. eval_Q.
Defined.

(** The timeline of the overlapping scenario with every draw at 0: the
    reversal of the fake breakout, [[42.5, 72.5)], is still running when the
    main breakout, [[45, 60)], starts. *)
Lemma overlapping_timeline_bounds :
  map (fun s => (Qred (RegimeScheduler.RegimeSegment.startTime s),
                 Qred (RegimeScheduler.RegimeSegment.endTime s),
                 RegimeScheduler.RegimeSegment.sign s))
    (RegimeScheduler.timeline
       (RegimeScheduler.schedule RegimeScheduler.new
          Examples.overlappingFakeScenario (Examples.constRand 0)))
  = [ (0, 30, RegimeScheduler.F);
      (30, 85 # 2, RegimeScheduler.U);
      (85 # 2, 145 # 2, RegimeScheduler.D);
      (45, 60, RegimeScheduler.U) ].
Proof. vm_compute. reflexivity. Qed.

(** C1 (as stated) fails: on the overlapping scenario the instant 50 lies in
    both the reversal segment and the main breakout segment, so the timeline
    of [schedule] does not partition [[0, duration)]. *)
Lemma schedule_partitions_counterexample :
  ~ Timeline.partitions
      (MarketScenario.duration Examples.overlappingFakeScenario)
      (RegimeScheduler.timeline
         (RegimeScheduler.schedule RegimeScheduler.new
            Examples.overlappingFakeScenario (Examples.constRand 0))).
Proof.
  intros (_ & Hno & _).
  assert (H : (2 = 3)%nat); [|discriminate H].
  eapply (Hno 2%nat 3%nat _ _ 50); [reflexivity | reflexivity | |]; eval_Q.
Qed.

(** ** Lookups past the end of the timeline *)

(** In a chain every lookup at or after the start of the last segment
    answers the last segment's values. *)
Lemma getCurrentRegime_chain_tail (this : RegimeScheduler.t) from to
    lastSegment (t : Q) :
  Timeline.chain from (RegimeScheduler.timeline this) to ->
  last (RegimeScheduler.timeline this) = Some lastSegment ->
  RegimeScheduler.RegimeSegment.startTime lastSegment <= t ->
  RegimeScheduler.getCurrentRegime this t
  = RegimeScheduler.ofSegment lastSegment.
Proof.
  intros Hchain Hlast Ht. unfold RegimeScheduler.getCurrentRegime.
  rewrite Hlast. apply last_Some in Hlast as [init Hinit].
  rewrite Hinit in Hchain |- *.
  destruct (findSegment_chain_last _ _ _ _ t Hchain Ht) as [-> | ->];
    reflexivity.
Qed.

(** Ordered events give a chain as well, wherever the last one ends. *)
Lemma buildSegments_chain_ordered startPrice events : forall from,
  Timeline.ordered from events ->
  Timeline.chain from
    (fst (RegimeScheduler.buildSegments startPrice from events))
    (snd (RegimeScheduler.buildSegments startPrice from events)).
Proof.
  induction events as [|event rest IH]; simpl; intros from H.
  - reflexivity.
  - destruct H as (Hfrom & Horient & Hrest).
    specialize (IH _ Hrest).
    destruct (RegimeScheduler.buildSegments startPrice
                (RegimeScheduler.Event.endTime event) rest)
      as [more final] eqn:Hbuild.
    simpl in *.
    case_Qltb from (RegimeScheduler.Event.startTime event); simpl.
    + repeat split; try reflexivity; try assumption; lra.
    + repeat split; try assumption; lra.
Qed.

Lemma schedule_chain_ordered this scenario rand :
  Timeline.ordered 0
    (RegimeScheduler.sortEvents (RegimeScheduler.allEvents scenario rand)) ->
  exists to,
    Timeline.chain 0
      (RegimeScheduler.timeline (RegimeScheduler.schedule this scenario rand))
      to.
Proof.
  intros Hord. rewrite schedule_timeline. cbv zeta.
  pose proof (buildSegments_chain_ordered
                (MarketScenario.startPrice scenario) _ _ Hord) as Hchain.
  set (built := RegimeScheduler.buildSegments
                  (MarketScenario.startPrice scenario) 0
                  (RegimeScheduler.sortEvents
                     (RegimeScheduler.allEvents scenario rand))) in *.
  case_Qltb (snd built) (MarketScenario.duration scenario).
  - exists (MarketScenario.duration scenario).
    eapply chain_app; [exact Hchain|].
    simpl. repeat split; try reflexivity. lra.
  - exists (snd built). rewrite app_nil_r. exact Hchain.
Qed.

(** In a chain no segment reaches into a later one. *)
Lemma chain_lastUnreached from segments to :
  Timeline.chain from segments to -> Timeline.lastUnreached segments.
Proof.
  intros Hchain init lastSegment ->. revert from Hchain.
  induction init as [|segment rest IH]; intros from Hchain.
  - constructor.
  - simpl in Hchain. destruct Hchain as (_ & _ & Hrest).
    constructor; [|eapply IH; exact Hrest].
    assert (Hin : In lastSegment (rest ++ [lastSegment]))
      by (apply in_or_app; right; left; reflexivity).
    destruct (chain_bounds _ _ _ _ Hrest Hin) as (H1 & _). exact H1.
Qed.

(** When no earlier segment reaches into the last one, every lookup from
    the start of the last segment on answers the last segment. *)
Lemma getCurrentRegime_tail_unreached (this : RegimeScheduler.t)
    lastSegment (t : Q) :
  Timeline.lastUnreached (RegimeScheduler.timeline this) ->
  last (RegimeScheduler.timeline this) = Some lastSegment ->
  RegimeScheduler.RegimeSegment.startTime lastSegment <= t ->
  RegimeScheduler.getCurrentRegime this t
  = RegimeScheduler.ofSegment lastSegment.
Proof.
  intros Hclear Hlast Ht. unfold RegimeScheduler.getCurrentRegime.
  rewrite Hlast. apply last_Some in Hlast as [init Hinit].
  specialize (Hclear init lastSegment Hinit). rewrite Hinit. clear Hinit.
  induction Hclear as [|segment rest Hend _ IH]; simpl.
  - destruct (RegimeScheduler.contains lastSegment t); reflexivity.
  - unfold RegimeScheduler.contains at 1.
    case_Qltb t (RegimeScheduler.RegimeSegment.endTime segment); [lra|].
    rewrite andb_false_r. exact IH.
Qed.

(** C8 (as amended).  When no segment of the scheduled timeline before the
    last one ends after the last one starts, every lookup at an elapsed time
    at or beyond [duration] returns the same regime, sign and target as a
    lookup at [duration - eps], for every [eps > 0] that puts
    [duration - eps] inside the last segment of the timeline.  That
    condition holds whenever the sorted events of the scenario do not
    overlap (the first starts no earlier than 0, each starts no earlier
    than the previous one ends, and none ends before it starts), wherever
    they end, after [duration] included. *)
Theorem getCurrentRegime_saturates
    (this : RegimeScheduler.t) (scenario : MarketScenario.t) (rand : nat -> Q) :
  (Timeline.ordered 0
     (RegimeScheduler.sortEvents (RegimeScheduler.allEvents scenario rand)) ->
   Timeline.lastUnreached
     (RegimeScheduler.timeline (RegimeScheduler.schedule this scenario rand)))
  /\ (Timeline.lastUnreached
        (RegimeScheduler.timeline
           (RegimeScheduler.schedule this scenario rand)) ->
      Timeline.saturatesAtTail (RegimeScheduler.schedule this scenario rand)
        (MarketScenario.duration scenario)).
Proof.
  split.
  - intros Hord.
    destruct (schedule_chain_ordered this scenario rand Hord) as [to Hchain].
    eapply chain_lastUnreached. exact Hchain.
  - intros Hclear eps lastSegment t Heps Hlast [Hin1 Hin2] Ht.
    rewrite (getCurrentRegime_tail_unreached _ _ t Hclear Hlast) by lra.
    rewrite (getCurrentRegime_tail_unreached _ _ _ Hclear Hlast) by lra.
    reflexivity.
Qed.

(** C8, instance: a fake breakout whose reversal runs over [[42.5, 72.5)],
    past the end of the 60-second scenario, and overlaps nothing; the last
    segment is that reversal, and lookups at 59 and from 60 on answer it. *)
Lemma getCurrentRegime_saturates_witness :
  Timeline.ordered 0
    (RegimeScheduler.sortEvents
       (RegimeScheduler.allEvents Examples.lateReversalScenario
          (Examples.constRand 0)))
  /\ ((fun segment =>
         Qeq_bool (RegimeScheduler.RegimeSegment.endTime segment) 72.5)
      <$> last (RegimeScheduler.timeline
                  (RegimeScheduler.schedule RegimeScheduler.new
                     Examples.lateReversalScenario (Examples.constRand 0))))
     = Some true
  /\ Timeline.saturatesAtTail
       (RegimeScheduler.schedule RegimeScheduler.new
          Examples.lateReversalScenario (Examples.constRand 0))
       (MarketScenario.duration Examples.lateReversalScenario).
Proof.
  assert (Hord : Timeline.ordered 0
                   (RegimeScheduler.sortEvents
                      (RegimeScheduler.allEvents Examples.lateReversalScenario
                         (Examples.constRand 0)))) by eval_Q.
  split; [exact Hord|]. split; [vm_compute; reflexivity|].
  destruct (getCurrentRegime_saturates RegimeScheduler.new
              Examples.lateReversalScenario (Examples.constRand 0))
    as [Hclear Hsat].
  exact (Hsat (Hclear Hord)).
Defined.

(** C8 (as stated) fails: on the overlapping scenario the last segment is
    the main breakout [[45, 60)], which contains 59, yet a lookup at 59 finds
    the earlier reversal segment (sign D, target 100) while a lookup at 80,
    past every segment, answers the main breakout (sign U, target 101). *)
Lemma getCurrentRegime_saturates_counterexample :
  ~ Timeline.saturatesAtTail
      (RegimeScheduler.schedule RegimeScheduler.new
         Examples.overlappingFakeScenario (Examples.constRand 0))
      (MarketScenario.duration Examples.overlappingFakeScenario).
Proof.
  intros Hsat.
  assert (H : RegimeScheduler.sign
                (RegimeScheduler.getCurrentRegime
                   (RegimeScheduler.schedule RegimeScheduler.new
                      Examples.overlappingFakeScenario (Examples.constRand 0))
                   80)
              = RegimeScheduler.sign
                  (RegimeScheduler.getCurrentRegime
                     (RegimeScheduler.schedule RegimeScheduler.new
                        Examples.overlappingFakeScenario (Examples.constRand 0))
                     (MarketScenario.duration Examples.overlappingFakeScenario
                      - 1))).
  { f_equal. eapply (Hsat 1 _ 80); [eval_Q | reflexivity | |]; eval_Q. }
  vm_compute in H. discriminate H.
Qed.

(** ** The breakout event recorded by [schedule] *)

Lemma schedule_breakoutEvent this scenario rand :
  MarketScenario.type (MarketScenario.breakout scenario) <> MarketScenario.none ->
  RegimeScheduler.breakoutEvent (RegimeScheduler.schedule this scenario rand)
  = Some (RegimeScheduler.mainBreakout scenario (rand 0%nat)).
Proof.
  intros Htype. unfold RegimeScheduler.schedule, RegimeScheduler.mainEvent.
  destruct (RegimeScheduler.buildSegments _ _ _) as [segments currentTime].
  simpl. destruct (decide _) as [Heq|_]; [contradiction | reflexivity].
Qed.

(** The start time is drawn inside the configured window. *)
Lemma mainBreakout_startTime scenario (u : Q) :
  let window := MarketScenario.timeWindow (MarketScenario.breakout scenario) in
  0 <= u < 1 -> fst window <= snd window ->
  fst window
  <= RegimeScheduler.BreakoutEvent.startTime
       (RegimeScheduler.mainBreakout scenario u)
  /\ RegimeScheduler.BreakoutEvent.startTime
       (RegimeScheduler.mainBreakout scenario u) <= snd window
  /\ (fst window < snd window ->
      RegimeScheduler.BreakoutEvent.startTime
        (RegimeScheduler.mainBreakout scenario u) < snd window).
Proof.
  unfold RegimeScheduler.mainBreakout.
  destruct (MarketScenario.timeWindow (MarketScenario.breakout scenario))
    as [minTime maxTime].
  simpl. intros [Hu0 Hu1] Hwin.
  assert (0 <= u * (maxTime - minTime)) by (apply Qmult_le_0_compat; lra).
  assert (0 <= (1 - u) * (maxTime - minTime)) by (apply Qmult_le_0_compat; lra).
  repeat split; try lra.
  intros Hlt.
  assert (0 < (1 - u) * (maxTime - minTime)) by (apply Qmult_lt_0_compat; lra).
  lra.
Qed.

(** C4 (as amended).  For a scenario whose breakout type is not [none],
    [schedule] records one breakout event: its type and speed are the
    scenario's, its target price is [startPrice * (1 + magnitude / 100)], and
    its end time is [min (startTime + d, duration)] where [d] is the speed
    policy (instant 2, gradual clamp(10 + m * 5, 8, 30), accelerating
    clamp(15 + m * 8, 10, 40)) applied to the absolute value [m] of the
    magnitude.  With a uniform draw its start time lies in the configured
    window, bounds included, and for start price 100, magnitude 1 and window
    (20, 40) the target price is 101 and the start time lies in
    [[20, 40]].  (The upper bound is not excluded: for the largest draws
    below 1 the sum [minTime + u * (maxTime - minTime)] rounds to [maxTime]
    in double precision.) *)
Theorem schedule_records_breakout
    (this : RegimeScheduler.t) (scenario : MarketScenario.t) (rand : nat -> Q) :
  let breakout := MarketScenario.breakout scenario in
  MarketScenario.type breakout <> MarketScenario.none ->
  0 <= rand 0%nat < 1 ->
  exists ev,
    RegimeScheduler.breakoutEvent (RegimeScheduler.schedule this scenario rand)
    = Some ev
    /\ Spec.recordsBreakout (Qabs (MarketScenario.magnitude breakout))
         scenario ev
    /\ (fst (MarketScenario.timeWindow breakout)
        <= snd (MarketScenario.timeWindow breakout) ->
        fst (MarketScenario.timeWindow breakout)
        <= RegimeScheduler.BreakoutEvent.startTime ev
        /\ RegimeScheduler.BreakoutEvent.startTime ev
           <= snd (MarketScenario.timeWindow breakout))
    /\ (MarketScenario.startPrice scenario == 100 ->
        MarketScenario.magnitude breakout == 1 ->
        MarketScenario.timeWindow breakout = (20, 40) ->
        RegimeScheduler.BreakoutEvent.targetPrice ev == 101
        /\ 20 <= RegimeScheduler.BreakoutEvent.startTime ev
        /\ RegimeScheduler.BreakoutEvent.startTime ev <= 40).
Proof.
  intros breakout Htype Hu. subst breakout.
  exists (RegimeScheduler.mainBreakout scenario (rand 0%nat)).
  split; [apply schedule_breakoutEvent; exact Htype|].
  pose proof (mainBreakout_startTime scenario (rand 0%nat)) as Hstart.
  cbv zeta in Hstart.
  assert (Hrec : Spec.recordsBreakout
            (Qabs (MarketScenario.magnitude (MarketScenario.breakout scenario)))
            scenario (RegimeScheduler.mainBreakout scenario (rand 0%nat))).
  { unfold Spec.recordsBreakout, RegimeScheduler.mainBreakout.
    destruct (MarketScenario.timeWindow (MarketScenario.breakout scenario))
      as [minTime maxTime].
    simpl. repeat split; try reflexivity.
    rewrite calculateBreakoutDuration_policy. reflexivity. }
  split; [exact Hrec|]. split.
  - intros Hwin. destruct (Hstart Hu Hwin) as (H1 & H2 & _).
    split; [exact H1 | exact H2].
  - intros Hprice Hmag Hwin.
    destruct Hrec as (_ & _ & Htarget & _).
    rewrite Hwin in Hstart. simpl in Hstart.
    destruct (Hstart Hu) as (H1 & H2 & _); [lra|].
    split; [|split; [exact H1 | exact H2]].
    rewrite Htarget, Hprice, Hmag. reflexivity.
Qed.

(** C4, instance: the bullish preset with the draw at one half. *)
Lemma schedule_records_breakout_witness :
  MarketScenario.type (MarketScenario.breakout MarketScenario.createBullishBreakout)
  <> MarketScenario.none
  /\ 0 <= Examples.constRand (1 # 2) 0%nat < 1
  /\ exists ev,
       RegimeScheduler.breakoutEvent
         (RegimeScheduler.schedule RegimeScheduler.new
            MarketScenario.createBullishBreakout (Examples.constRand (1 # 2)))
       = Some ev
       /\ RegimeScheduler.BreakoutEvent.targetPrice ev == 101
       /\ 20 <= RegimeScheduler.BreakoutEvent.startTime ev
       /\ RegimeScheduler.BreakoutEvent.startTime ev <= 40.
Proof.
  assert (Htype : MarketScenario.type
                    (MarketScenario.breakout MarketScenario.createBullishBreakout)
                  <> MarketScenario.none) by discriminate.
  assert (Hu : 0 <= Examples.constRand (1 # 2) 0%nat < 1) by eval_Q.
  split; [exact Htype|]. split; [exact Hu|].
  destruct (schedule_records_breakout RegimeScheduler.new
              MarketScenario.createBullishBreakout
              (Examples.constRand (1 # 2)) Htype Hu)
    as (ev & Hev & _ & _ & Hex).
  exists ev. split; [exact Hev|].
  apply Hex; [eval_Q | eval_Q | reflexivity].
Defined.

(** C4 (as stated) fails twice.  For the bearish preset (magnitude -1,
    gradual) the recorded event lasts 15 seconds, the policy at 1, and not
    the 8 seconds the policy gives at -1; with the draw at 0 it ends at 35,
    not at 28.  And the start time is not always below 40: for the largest
    double below 1, a value [Math.random()] can return, the sum
    [20 + u * (40 - 20)] is 40 in double precision. *)
Lemma schedule_records_breakout_counterexample :
  match RegimeScheduler.breakoutEvent
          (RegimeScheduler.schedule RegimeScheduler.new
             MarketScenario.createBearishBreakout (Examples.constRand 0))
  with
  | Some ev =>
      RegimeScheduler.BreakoutEvent.endTime ev == 35
      /\ ~ Spec.recordsBreakout
             (MarketScenario.magnitude
                (MarketScenario.breakout MarketScenario.createBearishBreakout))
             MarketScenario.createBearishBreakout ev
  | None => False
  end
  /\ PrimFloat.leb 0%float Examples.largestDraw = true
  /\ PrimFloat.ltb Examples.largestDraw 1%float = true
  /\ PrimFloat.eqb
       (Double.RegimeScheduler.breakoutStartTime 20%float 40%float
          Examples.largestDraw)
       40%float = true.
Proof.
  split; [|vm_compute; repeat split; reflexivity].
  rewrite schedule_breakoutEvent by discriminate.
  split; [eval_Q|].
  intros (_ & _ & _ & Hend). revert Hend. vm_compute. discriminate.
Qed.

(** ** The breakout notifier *)

Section Notifier.

Import BreakoutNotifier.

Lemma run_app this calls1 calls2 :
  run this (calls1 ++ calls2)
  = (fst (run (fst (run this calls1)) calls2),
     snd (run this calls1) ++ snd (run (fst (run this calls1)) calls2)).
Proof.
  revert this. induction calls1 as [|call rest IH]; simpl; intros this.
  - destruct (run this calls2); reflexivity.
  - destruct (step this call) as [this' out].
    rewrite IH.
    destruct (run this' rest) as [mid outs]. simpl.
    rewrite app_assoc. reflexivity.
Qed.

Lemma on_breakoutInProgress this ty cb :
  breakoutInProgress (on this ty cb) = breakoutInProgress this.
Proof. reflexivity. Qed.

Lemma onAny_breakoutInProgress this cb :
  breakoutInProgress (onAny this cb) = breakoutInProgress this.
Proof. reflexivity. Qed.

(** Once a breakout is in progress only a completion or a reset ends it. *)
Lemma step_keeps_inProgress this call :
  breakoutInProgress this = true ->
  isCompletionCall call = false -> isResetCall call = false ->
  breakoutInProgress (fst (step this call)) = true.
Proof.
  intros Hin Hc Hr. destruct call; simpl in *; try discriminate; try assumption.
  - unfold off. destruct (listeners this !! eventType); assumption.
  - unfold scheduleWarning.
    destruct (_ && _); [|assumption].
    destruct (JS.Qltb _ _); assumption.
  - unfold notifyBreakoutStart. rewrite Hin. assumption.
  - unfold notifyProgress. rewrite Hin. simpl.
    destruct (JS.Qltb _ _); simpl; auto.
Qed.

Lemma run_keeps_inProgress calls : forall this,
  breakoutInProgress this = true ->
  forallb (fun call => negb (isCompletionCall call || isResetCall call)) calls
  = true ->
  breakoutInProgress (fst (run this calls)) = true.
Proof.
  induction calls as [|call rest IH]; simpl; intros this Hin Hall.
  - exact Hin.
  - apply andb_true_iff in Hall as [Hcall Hrest].
    apply negb_true_iff, orb_false_iff in Hcall as [Hc Hr].
    pose proof (step_keeps_inProgress this call Hin Hc Hr) as Hstep.
    destruct (step this call) as [this' out]. simpl in Hstep.
    specialize (IH this' Hstep Hrest).
    destruct (run this' rest) as [final outs]. exact IH.
Qed.

Lemma notifyBreakoutStart_inProgress this ty cp tp mag dur now :
  breakoutInProgress (fst (notifyBreakoutStart this ty cp tp mag dur now))
  = true.
Proof.
  unfold notifyBreakoutStart.
  destruct (breakoutInProgress this) eqn:Hin; [exact Hin | reflexivity].
Qed.

Lemma emit_type this event delivery :
  In delivery (emit this event) ->
  BreakoutEvent.type (snd delivery) = BreakoutEvent.type event.
Proof.
  unfold emit. destruct (listeners this !! BreakoutEvent.type event)
    as [callbacks|]; [|intros []].
  intros Hin. apply in_map_iff in Hin as (callback & <- & _). reflexivity.
Qed.

(** A start event is delivered only when the notifier goes from idle to in
    progress. *)
Lemma start_delivery_transition this call delivery :
  In delivery (snd (step this call)) ->
  BreakoutEvent.type (snd delivery) = start ->
  breakoutInProgress this = false
  /\ breakoutInProgress (fst (step this call)) = true.
Proof.
  intros Hin Hstart. destruct call; simpl in Hin |- *; try contradiction.
  - unfold scheduleWarning in Hin.
    destruct (_ && _); [|contradiction].
    destruct (JS.Qltb _ _); [contradiction|].
    apply emit_type in Hin. simpl in Hin. congruence.
  - unfold notifyBreakoutStart in Hin |- *.
    destruct (breakoutInProgress this); [contradiction|].
    split; reflexivity.
  - unfold notifyProgress in Hin.
    destruct (negb _); [contradiction|].
    destruct (JS.Qltb _ _); [contradiction|].
    apply emit_type in Hin. simpl in Hin. congruence.
  - unfold notifyBreakoutCompletion in Hin.
    destruct (negb _); [contradiction|].
    apply emit_type in Hin. simpl in Hin. congruence.
Qed.

End Notifier.

(** C7 (as amended).  In every sequence of calls on a notifier, a
    [notifyBreakoutStart] call that follows an earlier one with neither a
    [notifyBreakoutCompletion] nor a [reset] in between delivers nothing and
    leaves the notifier's state unchanged; a [notifyBreakoutCompletion]
    call made while idle delivers nothing and leaves the state unchanged;
    and a start event is delivered only by a call that takes the notifier
    from idle to in progress. *)
Theorem duplicate_start_suppressed
    (this : BreakoutNotifier.t) (before between : list BreakoutNotifier.Call)
    (ty1 ty2 ty3 : MarketScenario.BreakoutType)
    (cp1 tp1 mag1 dur1 now1 cp2 tp2 mag2 dur2 now2 cp3 tp3 mag3 now3 : Q) :
  forallb (fun call =>
             negb (BreakoutNotifier.isCompletionCall call
                   || BreakoutNotifier.isResetCall call)) between = true ->
  let state :=
    fst (BreakoutNotifier.run this
           (before
            ++ BreakoutNotifier.CallNotifyBreakoutStart ty1 cp1 tp1 mag1 dur1 now1
               :: between)) in
  BreakoutNotifier.step state
    (BreakoutNotifier.CallNotifyBreakoutStart ty2 cp2 tp2 mag2 dur2 now2)
  = (state, [])
  /\ (forall idle,
        BreakoutNotifier.breakoutInProgress idle = false ->
        BreakoutNotifier.step idle
          (BreakoutNotifier.CallNotifyBreakoutCompletion ty3 cp3 tp3 mag3 now3)
        = (idle, []))
  /\ (forall notifier call delivery,
        In delivery (snd (BreakoutNotifier.step notifier call)) ->
        BreakoutNotifier.BreakoutEvent.type (snd delivery)
        = BreakoutNotifier.start ->
        BreakoutNotifier.breakoutInProgress notifier = false
        /\ BreakoutNotifier.breakoutInProgress
             (fst (BreakoutNotifier.step notifier call)) = true).
Proof.
  intros Hbetween state. split; [|split].
  - assert (Hin : BreakoutNotifier.breakoutInProgress state = true).
    { subst state. rewrite run_app. simpl fst.
      simpl BreakoutNotifier.run at 1.
      pose proof (notifyBreakoutStart_inProgress
                    (fst (BreakoutNotifier.run this before))
                    ty1 cp1 tp1 mag1 dur1 now1) as Hstart.
      destruct (BreakoutNotifier.notifyBreakoutStart _ _ _ _ _ _ _)
        as [started out].
      simpl in Hstart.
      pose proof (run_keeps_inProgress between started Hstart Hbetween) as Hrun.
      destruct (BreakoutNotifier.run started between) as [final outs].
      exact Hrun. }
    simpl. unfold BreakoutNotifier.notifyBreakoutStart. rewrite Hin.
    reflexivity.
  - intros idle Hidle. simpl.
    unfold BreakoutNotifier.notifyBreakoutCompletion. rewrite Hidle.
    reflexivity.
  - intros notifier call delivery Hin Hstart.
    apply (start_delivery_transition notifier call delivery Hin Hstart).
Qed.

(** C7, instance: a listener, a start, a progress report and a warning, then
    a second start. *)
Lemma duplicate_start_suppressed_witness :
  let between :=
    [BreakoutNotifier.CallNotifyProgress MarketScenario.bullish 100.5 101 1 12;
     BreakoutNotifier.CallScheduleWarning 20 18 5 MarketScenario.bullish 1 13] in
  let state :=
    fst (BreakoutNotifier.run BreakoutNotifier.new
           ([BreakoutNotifier.CallOn BreakoutNotifier.start 7%nat]
            ++ BreakoutNotifier.CallNotifyBreakoutStart
                 MarketScenario.bullish 100 101 1 15 10
               :: between)) in
  BreakoutNotifier.step state
    (BreakoutNotifier.CallNotifyBreakoutStart
       MarketScenario.bullish 100.6 101 1 15 14)
  = (state, []).
Proof.
  intros between state.
  apply (duplicate_start_suppressed BreakoutNotifier.new
           [BreakoutNotifier.CallOn BreakoutNotifier.start 7%nat] between
           MarketScenario.bullish MarketScenario.bullish MarketScenario.bullish
           100 101 1 15 10 100.6 101 1 15 14 0 0 0 0).
  reflexivity.
Defined.

(** C7 (as stated) fails: [reset] also returns the notifier to idle.  After
    a start and a reset, with no completion in between, a second start is
    delivered to the registered listener and the state changes. *)
Lemma duplicate_start_counterexample :
  let between := [BreakoutNotifier.CallReset] in
  let state :=
    fst (BreakoutNotifier.run BreakoutNotifier.new
           ([BreakoutNotifier.CallOn BreakoutNotifier.start 7%nat]
            ++ BreakoutNotifier.CallNotifyBreakoutStart
                 MarketScenario.bullish 100 101 1 15 10
               :: between)) in
  let second :=
    BreakoutNotifier.step state
      (BreakoutNotifier.CallNotifyBreakoutStart
         MarketScenario.bullish 100 101 1 15 20) in
  forallb (fun call => negb (BreakoutNotifier.isCompletionCall call)) between
  = true
  /\ map (fun d => (fst d, BreakoutNotifier.BreakoutEvent.type (snd d)))
       (snd second)
     = [(7%nat, BreakoutNotifier.start)]
  /\ BreakoutNotifier.breakoutInProgress state = false
  /\ BreakoutNotifier.breakoutInProgress (fst second) = true
  /\ second <> (state, []).
Proof.
  repeat split; try reflexivity.
  intros H. apply (f_equal snd) in H. vm_compute in H. discriminate H.
Qed.

(** ** The regime model *)

(** C6.  When the regime+sign key is absent from the transition table, or
    its bucket set is empty, [sampleTick] returns the neutral fallback tick
    (price delta 0, spread 0.01, size 100) whatever the random draw; being a
    total function it returns it as a value, not as an error. *)
Theorem sampleTick_fallback
    (this : QuoteModel.t) (regime : RegimeScheduler.Regime)
    (sign : RegimeScheduler.Sign) (u : Q) :
  QuoteModel.transition this !! QuoteModel.transitionKey regime sign = None
  \/ QuoteModel.transition this !! QuoteModel.transitionKey regime sign
     = Some [] ->
  QuoteModel.sampleTick this regime sign u
  = {| QuoteModel.dp := 0; QuoteModel.spread := 0.01; QuoteModel.size := 100 |}.
Proof.
  intros [Habsent | Hempty]; unfold QuoteModel.sampleTick.
  - rewrite Habsent. reflexivity.
  - rewrite Hempty. reflexivity.
Qed.

(** C6, instance: a model that knows only the key ["N,B,U"], with an empty
    bucket set, asked for that key. *)
Lemma sampleTick_fallback_witness :
  QuoteModel.sampleTick Examples.emptyBucketModel ("N", "B")%string
    RegimeScheduler.U (1 # 3)
  = {| QuoteModel.dp := 0; QuoteModel.spread := 0.01; QuoteModel.size := 100 |}.
Proof.
  apply (sampleTick_fallback Examples.emptyBucketModel ("N", "B")%string
           RegimeScheduler.U (1 # 3)).
  right. reflexivity.
Defined.

(** The fallback is also what a key absent from the table yields. *)
Example sampleTick_absent_key :
  QuoteModel.sampleTick Examples.emptyBucketModel ("N", "O")%string
    RegimeScheduler.F (1 # 3)
  = QuoteModel.fallback.
Proof. reflexivity. Qed.

(** A populated bucket is sampled by weight: with weights 1 and 3 a draw of
    one half lands in the second bin. *)
Example sampleTick_weighted :
  QuoteModel.sampleTick Examples.twoBinModel ("N", "O")%string
    RegimeScheduler.F (1 # 2)
  = QuoteModel.decode
      {| QuoteModel.dpBin := 2; QuoteModel.spBin := -3; QuoteModel.szBin := 5 |}.
Proof. reflexivity. Qed.

(** ** The quote generator *)

Lemma Math_sign_cases (x : Q) :
  (0 < x /\ JS.Math_sign x = 1) \/ (x < 0 /\ JS.Math_sign x = -1)
  \/ (x == 0 /\ JS.Math_sign x = 0).
Proof.
  unfold JS.Math_sign.
  case_Qltb 0 x; [left; split; [assumption | reflexivity]|].
  case_Qltb x 0; [right; left; split; [assumption | reflexivity]|].
  right; right. split; [lra | reflexivity].
Qed.

Lemma Qdiv_nonneg (x y : Q) : 0 <= x -> 0 < y -> 0 <= x / y.
Proof.
  intros Hx Hy. unfold Qdiv. apply Qmult_le_0_compat; [exact Hx|].
  apply Qinv_le_0_compat. apply Qlt_le_weak. exact Hy.
Qed.

(** On a nonnegative argument the source's [Math.min(1.0, x)] is the clamp
    to [[0, 1]]. *)
Lemma urgency_clamp (x : Q) : 0 <= x -> Qmin 1.0 x == Spec.clamp x 0 1.
Proof.
  intros Hx. unfold Spec.clamp.
  destruct (Qmin_cases 1.0 x) as [[H Hm]|[H Hm]]; rewrite Hm;
    case_Qltb x 0; try lra; case_Qltb 1 x; lra.
Qed.

(** C5.  For a positive current bid: when [|targetPrice - bid|] is below
    0.1% of the bid, [biasTowardTarget] returns the model's delta unchanged;
    otherwise it returns
    [biasFactor * (direction * stepMagnitude) + (1 - biasFactor) * dp] with
    [direction] the sign of [targetPrice - bid],
    [biasFactor = 0.7 * clamp(|distance| / bid * 20, 0, 1)], which lies in
    [[0, 0.7]], and [stepMagnitude = min(0.05, |distance| * 0.1)]. *)
Theorem biasTowardTarget_blend
    (this : QuoteGenerator.t) (dp targetPrice : Q) :
  let current := QuoteGenerator.bid this in
  let distance := targetPrice - current in
  let direction := JS.Math_sign distance in
  let biasFactor := 0.7 * Spec.clamp (Qabs distance / current * 20) 0 1 in
  let stepMagnitude := Qmin 0.05 (Qabs distance * 0.1) in
  0 < current ->
  (Qabs distance < current * 0.001 ->
   QuoteGenerator.biasTowardTarget this dp targetPrice = dp)
  /\ (~ Qabs distance < current * 0.001 ->
      QuoteGenerator.biasTowardTarget this dp targetPrice
      == biasFactor * (direction * stepMagnitude) + (1 - biasFactor) * dp
      /\ (current < targetPrice -> direction = 1)
      /\ (targetPrice < current -> direction = -1))
  /\ 0 <= biasFactor <= 0.7.
Proof.
  intros current distance direction biasFactor stepMagnitude Hpos.
  assert (Hx : 0 <= Qabs distance / current * 20).
  { assert (0 <= Qabs distance / current)
      by (apply Qdiv_nonneg; [apply Qabs_nonneg | exact Hpos]).
    lra. }
  split; [|split].
  - intros Hclose. unfold QuoteGenerator.biasTowardTarget.
    fold current. fold distance.
    case_Qltb (Qabs distance) (current * 0.001); [reflexivity | lra].
  - intros Hfar. split; [|split].
    + unfold QuoteGenerator.biasTowardTarget.
      fold current. fold distance.
      case_Qltb (Qabs distance) (current * 0.001); [contradiction|].
      subst biasFactor direction stepMagnitude.
      rewrite (urgency_clamp _ Hx). reflexivity.
    + intros Hup. subst direction.
      destruct (Math_sign_cases distance) as [[_ ->]|[[H _]|[H _]]];
        [reflexivity | subst distance; lra | subst distance; lra].
    + intros Hdown. subst direction.
      destruct (Math_sign_cases distance) as [[H _]|[[_ ->]|[H _]]];
        [subst distance; lra | reflexivity | subst distance; lra].
  - subst biasFactor. unfold Spec.clamp.
    case_Qltb (Qabs distance / current * 20) 0; [lra|].
    case_Qltb 1 (Qabs distance / current * 20); lra.
Qed.

(** C5, instance: a generator at 100 steered towards 101 with a model delta
    of 0.005: the bias factor is 0.7 * 0.2, the step 0.05, and the result is
    0.0113. *)
Lemma biasTowardTarget_blend_witness :
  0 < QuoteGenerator.bid (QuoteGenerator.new QuoteModel.empty 100 100.02)
  /\ QuoteGenerator.biasTowardTarget
       (QuoteGenerator.new QuoteModel.empty 100 100.02) 0.005 101
     == 0.0113
  /\ QuoteGenerator.biasTowardTarget
       (QuoteGenerator.new QuoteModel.empty 100 100.02) 0.005 100.05
     = 0.005.
Proof.
  assert (Hpos : 0 < QuoteGenerator.bid
                       (QuoteGenerator.new QuoteModel.empty 100 100.02))
    by eval_Q.
  split; [exact Hpos|]. split.
  - destruct (biasTowardTarget_blend
                (QuoteGenerator.new QuoteModel.empty 100 100.02) 0.005 101 Hpos)
      as (_ & Hfar & _).
    destruct Hfar as (Heq & _); [vm_compute; discriminate|].
    rewrite Heq. eval_Q.
  - apply (biasTowardTarget_blend
             (QuoteGenerator.new QuoteModel.empty 100 100.02) 0.005 100.05 Hpos).
    eval_Q.
Defined.

(** C5 (as stated) fails for a negative current price: at a bid of -100
    with the target at 0 and a model delta of 0, the distance 100 is not
    within 0.1% of the price and the claimed bias factor is
    [0.7 * clamp(-20, 0, 1) = 0], so the claimed result is the delta, 0;
    the code computes [Math.min(1, -20) = -20], a bias factor of -14, and
    returns -0.7 (-0.7000000000000001 in double precision). *)
Lemma biasTowardTarget_blend_counterexample :
  ~ QuoteGenerator.biasTowardTarget
      (QuoteGenerator.new QuoteModel.empty (-100) (-99.98)) 0 0
    == Spec.targetBias (-100) 0 0
  /\ Qeq_bool
       (QuoteGenerator.biasTowardTarget
          (QuoteGenerator.new QuoteModel.empty (-100) (-99.98)) 0 0)
       (-0.7) = true
  /\ Qeq_bool (Spec.targetBias (-100) 0 0) 0 = true
  /\ PrimFloat.ltb
       (Double.QuoteGenerator.biasTowardTarget
          (Double.QuoteGenerator.new Double.QuoteModel.empty
             (-100)%float (-99.98)%float)
          0%float 0%float)
       (-0.5)%float = true.
Proof.
  split; [|split; [|split]].
  - intros H. apply Qeq_bool_iff in H. vm_compute in H. discriminate H.
  - vm_compute. reflexivity.
  - vm_compute. reflexivity.
  - vm_compute. reflexivity.
Qed.

Lemma stepLoop_S this ts regime targetPrice draws n i currentSign :
  QuoteGenerator.stepLoop this ts regime targetPrice draws (S n) i currentSign
  = let step :=
      QuoteGenerator.stepOnce this ts regime currentSign targetPrice (draws i)
    in
    let rest :=
      QuoteGenerator.stepLoop (fst (fst step)) ts regime targetPrice draws n
        (S i) (snd step) in
    (fst rest, snd (fst step) :: snd rest).
Proof.
  cbn [QuoteGenerator.stepLoop].
  destruct (QuoteGenerator.stepOnce this ts regime currentSign targetPrice
              (draws i)) as [[this1 tick1] sign1].
  cbn [fst snd].
  destruct (QuoteGenerator.stepLoop this1 ts regime targetPrice draws n (S i)
              sign1) as [final ticks].
  reflexivity.
Qed.

Lemma stepOnce_model this ts regime currentSign targetPrice (u : Q) :
  QuoteGenerator.model
    (fst (fst (QuoteGenerator.stepOnce this ts regime currentSign targetPrice u)))
  = QuoteGenerator.model this.
Proof. reflexivity. Qed.

(** The model consulted by the generator never changes, and each tick of
    the loop is the tick of one iteration. *)
Lemma stepLoop_ticks ts regime targetPrice draws n : forall this i currentSign tick,
  In tick
    (snd (QuoteGenerator.stepLoop this ts regime targetPrice draws n i
            currentSign)) ->
  exists this' sign' u,
    QuoteGenerator.model this' = QuoteGenerator.model this
    /\ tick = snd (fst (QuoteGenerator.stepOnce this' ts regime sign'
                          targetPrice u)).
Proof.
  induction n as [|n IH]; intros this i currentSign tick Hin.
  - destruct Hin.
  - rewrite stepLoop_S in Hin. cbv zeta in Hin. cbn [snd] in Hin.
    destruct Hin as [<-|Hin].
    + exists this, currentSign, (draws i). split; reflexivity.
    + destruct (IH _ _ _ _ Hin) as (this' & sign' & u & Hmodel & Htick).
      exists this', sign', u. split; [|exact Htick].
      rewrite Hmodel. apply stepOnce_model.
Qed.

(** ** The price model and its rolling buffer *)

Section Buffer.

Import PriceModel.

Lemma constructor_full quoteModel scenario windowSeconds rand now :
  Spec.bufferFull (constructor quoteModel scenario windowSeconds rand now).
Proof.
  unfold Spec.bufferFull, constructor. simpl. split; [reflexivity|].
  apply length_replicate.
Qed.

Lemma resetWithScenario_full this scenario rand now :
  Spec.bufferFull this -> Spec.bufferFull (resetWithScenario this scenario rand now).
Proof.
  intros [Hmax Hlen]. unfold Spec.bufferFull, resetWithScenario. simpl.
  split; [exact Hmax | apply length_replicate].
Qed.

(** The notification step touches the notifier and the latch only. *)
Lemma handleBreakoutNotifications_fields this input :
  exists notifier' latch,
    fst (handleBreakoutNotifications this input)
    = setNotification this notifier' latch.
Proof.
  unfold handleBreakoutNotifications.
  destruct (RegimeScheduler.getBreakoutEvent (scheduler this)) as [ev|];
    [|exists (notifier this), (hasNotifiedBreakoutStart this);
      destruct this; reflexivity].
  destruct (decide _) as [Hnone|Hsome];
    [exists (notifier this), (hasNotifiedBreakoutStart this);
      destruct this; reflexivity|].
  repeat lazymatch goal with
         | |- context [match ?x with pair _ _ => _ end] => destruct x
         end.
  eexists _, _. reflexivity.
Qed.

Lemma pushEntry_full buffer maxBufferSize entry :
  length buffer = maxBufferSize -> (0 < maxBufferSize)%nat ->
  pushEntry buffer maxBufferSize entry = tail buffer ++ [entry]
  /\ length (pushEntry buffer maxBufferSize entry) = maxBufferSize.
Proof.
  intros Hlen Hpos. unfold pushEntry.
  rewrite length_app. simpl.
  destruct (Nat.ltb_spec maxBufferSize (length buffer + 1)) as [_|Hge]; [|lia].
  destruct buffer as [|oldest rest]; simpl in *; [lia|].
  split; [reflexivity|]. rewrite length_app. simpl. lia.
Qed.

(** One update of a full buffer: it does not throw, it appends the entry of
    the step and drops the oldest one, and it runs pivot detection on the
    centre of the new buffer. *)
Lemma update_full this input :
  Spec.bufferFull this ->
  exists this' out entry centre,
    update this input = Some (this', out)
    /\ buffer this' = tail (buffer this) ++ [entry]
    /\ window this' = window this
    /\ Spec.bufferFull this'
    /\ buffer this' !! window this' = Some centre
    /\ pivot this' = detectPivot (buffer this') centre
    /\ pivotBid this' = bid centre /\ pivotAsk this' = ask centre
    /\ generator this' = fst (Spec.stepOf this input)
    /\ match last (snd (Spec.stepOf this input)) with
       | Some lastTick =>
           entry = {| bid := QuoteGenerator.priceBid lastTick;
                      ask := QuoteGenerator.priceAsk lastTick;
                      mid := QuoteGenerator.getVolumeWeightedMid
                               (fst (Spec.stepOf this input))
                               (QuoteGenerator.sizeBid lastTick)
                               (QuoteGenerator.sizeAsk lastTick) |}
       | None => last (buffer this) = Some entry
       end.
Proof.
  intros [Hmax Hlen]. unfold update, Spec.stepOf, Spec.regimeAt.
  set (this1 := {| generator := generator this; elapsedTime := _ |}).
  destruct (handleBreakoutNotifications_fields this1 input)
    as (notifier' & latch & Hfields).
  destruct (handleBreakoutNotifications this1 input) as [this2 deliveries].
  simpl in Hfields. subst this2. subst this1.
  cbn [setNotification buffer maxBufferSize window pivot pivotBid pivotAsk
       scenario scheduler notifier startTime elapsedTime
       hasNotifiedBreakoutStart generator bestBid bestAsk].
  destruct (QuoteGenerator.stepSecond _ _ _ _ _ _ _) as [generator' ticks].
  cbn [fst snd].
  unfold stepPrice.
  cbn [setNotification buffer maxBufferSize window pivot pivotBid pivotAsk
       scenario scheduler notifier startTime elapsedTime
       hasNotifiedBreakoutStart generator bestBid bestAsk].
  assert (Hnonempty : exists lastEntry, last (buffer this) = Some lastEntry).
  { destruct (last (buffer this)) as [lastEntry|] eqn:Hlast; [eauto|].
    apply last_None in Hlast. rewrite Hlast in Hlen. simpl in Hlen. lia. }
  destruct Hnonempty as (lastEntry & HlastEntry). rewrite HlastEntry.
  set (entry := match last ticks with
                | Some lastTick =>
                    {| bid := QuoteGenerator.priceBid lastTick;
                       ask := QuoteGenerator.priceAsk lastTick;
                       mid := QuoteGenerator.getVolumeWeightedMid generator'
                                (QuoteGenerator.sizeBid lastTick)
                                (QuoteGenerator.sizeAsk lastTick) |}
                | None => lastEntry
                end).
  destruct (pushEntry_full (buffer this) (maxBufferSize this) entry Hlen)
    as [Hpush Hfull]; [lia|].
  assert (Hcentre : exists centre,
            pushEntry (buffer this) (maxBufferSize this) entry !! window this
            = Some centre).
  { destruct (pushEntry (buffer this) (maxBufferSize this) entry !! window this)
      as [centre|] eqn:Hcentre; [eauto|].
    apply lookup_ge_None in Hcentre. lia. }
  destruct Hcentre as (centre & Hcentre).
  subst entry.
  destruct (last ticks) as [lastTick|];
    rewrite Hfull, Nat.eqb_refl, Hcentre;
    eexists _, _, _, centre; (split; [reflexivity|]); simpl;
    repeat split; try assumption; try reflexivity.
Qed.

Lemma apply_full this op :
  Spec.bufferFull this -> exists this', apply this op = Some this' /\ Spec.bufferFull this'.
Proof.
  intros Hfull. destruct op as [input|scenario rand now]; simpl.
  - destruct (update_full this input Hfull)
      as (this' & out & entry & centre & -> & _ & _ & Hfull' & _).
    exists this'. split; [reflexivity | exact Hfull'].
  - eexists. split; [reflexivity|]. apply resetWithScenario_full. exact Hfull.
Qed.

Lemma run_full ops : forall this,
  Spec.bufferFull this -> exists this', run this ops = Some this' /\ Spec.bufferFull this'
                             /\ window this' = window this.
Proof.
  induction ops as [|op rest IH]; simpl; intros this Hfull.
  - exists this. repeat split; try reflexivity; apply Hfull.
  - destruct (apply_full this op Hfull) as (this1 & Happly & Hfull1).
    assert (Hwin : window this1 = window this).
    { destruct op as [input|scenario rand now]; simpl in Happly.
      - destruct (update_full this input Hfull)
          as (this' & out & entry & centre & Hupd & _ & Hw & _).
        rewrite Hupd in Happly. simpl in Happly. injection Happly as <-.
        exact Hw.
      - injection Happly as <-. reflexivity. }
    rewrite Happly.
    destruct (IH this1 Hfull1) as (this' & Hrun & Hfull' & Hw').
    exists this'. repeat split; try assumption; try apply Hfull'. congruence.
Qed.

Lemma run_snoc this ops op :
  run this (ops ++ [op])
  = match run this ops with
    | Some this' => apply this' op
    | None => None
    end.
Proof.
  revert this. induction ops as [|o rest IH]; simpl; intros this.
  - destruct (apply this op); reflexivity.
  - destruct (apply this o) as [this1|]; [apply IH | reflexivity].
Qed.

End Buffer.

(** C9.  The buffer of a price model holds exactly [2 * window + 1] entries
    at all times.  The constructor fills it to capacity with that many
    copies of the entry made of the base bid, the base ask and their mid;
    after any sequence of updates and scenario resets it still has that
    length; and every further update returns, appends the entry of the step
    (the last tick's bid and ask with the generator's volume-weighted mid
    when the step made ticks, the newest entry again when it made none) and
    drops the oldest one, so that the buffer-full guard of pivot detection
    holds and the pivot is recomputed from the centre entry on every update,
    the first one included. *)
Theorem buffer_always_full
    (quoteModel : QuoteModel.t) (scenario : option MarketScenario.t)
    (windowSeconds : nat) (rand : nat -> Q) (now : Q)
    (ops : list PriceModel.Op) :
  let initial :=
    PriceModel.constructor quoteModel scenario windowSeconds rand now in
  let baseBid :=
    MarketScenario.startPrice
      (default MarketScenario.createRangingScenario scenario) in
  let baseAsk :=
    baseBid
    + MarketScenario.base
        (MarketScenario.spread
           (default MarketScenario.createRangingScenario scenario)) in
  PriceModel.buffer initial
  = replicate (2 * windowSeconds + 1)
      {| PriceModel.bid := baseBid; PriceModel.ask := baseAsk;
         PriceModel.mid := (baseBid + baseAsk) / 2 |}
  /\ exists this,
       PriceModel.run initial ops = Some this
       /\ length (PriceModel.buffer this) = (2 * windowSeconds + 1)%nat
       /\ forall input, exists this' out entry centre,
            PriceModel.update this input = Some (this', out)
            /\ match last (snd (Spec.stepOf this input)) with
               | Some lastTick =>
                   entry
                   = {| PriceModel.bid := QuoteGenerator.priceBid lastTick;
                        PriceModel.ask := QuoteGenerator.priceAsk lastTick;
                        PriceModel.mid :=
                          QuoteGenerator.getVolumeWeightedMid
                            (fst (Spec.stepOf this input))
                            (QuoteGenerator.sizeBid lastTick)
                            (QuoteGenerator.sizeAsk lastTick) |}
               | None => last (PriceModel.buffer this) = Some entry
               end
            /\ PriceModel.buffer this'
               = tail (PriceModel.buffer this) ++ [entry]
            /\ length (PriceModel.buffer this')
               = PriceModel.maxBufferSize this'
            /\ length (PriceModel.buffer this') = (2 * windowSeconds + 1)%nat
            /\ PriceModel.buffer this' !! windowSeconds = Some centre
            /\ PriceModel.pivot this'
               = PriceModel.detectPivot (PriceModel.buffer this') centre.
Proof.
  intros initial baseBid baseAsk. split; [reflexivity|].
  destruct (run_full ops initial (constructor_full _ _ _ _ _))
    as (this & Hrun & Hfull & Hwin).
  exists this. split; [exact Hrun|].
  assert (Hw : PriceModel.window this = windowSeconds) by exact Hwin.
  destruct Hfull as [Hmax Hlen]. split; [lia|].
  intros input.
  destruct (update_full this input (conj Hmax Hlen))
    as (this' & out & entry & centre & Hupd & Hbuf & Hw' & [Hmax' Hlen']
        & Hcentre & Hpivot & _ & _ & _ & Hentry).
  exists this', out, entry, centre.
  rewrite Hw', Hw in *. repeat split; try assumption. lia.
Qed.

(** The first update of the window-5 ranging model over the empty model
    already runs pivot detection on a buffer of 11 entries. *)
Example first_update_detects :
  (fun this => (length (PriceModel.buffer this), PriceModel.pivot this))
  <$> PriceModel.run (Examples.rangingModel QuoteModel.empty)
        (Examples.updates 0 1)
  = Some (11%nat, Some PriceModel.PH).
Proof. vm_compute. reflexivity. Qed.

(** ** Equal sizes and the arithmetic mid *)

Lemma stepLoop_length ts regime targetPrice draws n : forall this i currentSign,
  length (snd (QuoteGenerator.stepLoop this ts regime targetPrice draws n i
                 currentSign)) = n.
Proof.
  induction n as [|n IH]; intros this i currentSign.
  - reflexivity.
  - rewrite stepLoop_S. cbv zeta. cbn [snd length]. rewrite IH. reflexivity.
Qed.

Lemma getVolumeWeightedMid_equal_sizes (this : QuoteGenerator.t) (s : Q) :
  QuoteGenerator.getVolumeWeightedMid this s s
  == (QuoteGenerator.bid this + QuoteGenerator.ask this) / 2.
Proof.
  unfold QuoteGenerator.getVolumeWeightedMid.
  destruct (Qeq_bool (s + s) 0) eqn:Hzero; [reflexivity|].
  apply Qeq_bool_neq in Hzero.
  assert (Hs : ~ s == 0) by (intros H; apply Hzero; rewrite H; reflexivity).
  field. lra.
Qed.

(** The step of that update: one tick at 100.01 / 100.02, sizes 250. *)
Example two_bin_step :
  map (fun tick =>
         Qeq_bool (QuoteGenerator.priceBid tick) 100.01
         && Qeq_bool (QuoteGenerator.priceAsk tick) 100.02
         && Qeq_bool (QuoteGenerator.sizeBid tick) 250
         && Qeq_bool (QuoteGenerator.sizeAsk tick) 250)
    (snd (Spec.stepOf (Examples.rangingModel Examples.twoBinModel)
            (Examples.inputAt 1 1)))
  = [true].
Proof. vm_compute. reflexivity. Qed.

(** ** The factory presets *)

Lemma calculateBreakoutDuration_min speed (m : Q) :
  2 <= RegimeScheduler.calculateBreakoutDuration speed m.
Proof.
  destruct speed; simpl.
  - lra.
  - destruct (Qmax_cases 8 (Qmin 30 (10 + m * 5))) as [[_ ->]|[H ->]]; lra.
  - destruct (Qmax_cases 10 (Qmin 40 (15 + m * 8))) as [[_ ->]|[H ->]]; lra.
Qed.

Lemma mainEvent_some scenario rand :
  MarketScenario.type (MarketScenario.breakout scenario) <> MarketScenario.none ->
  RegimeScheduler.mainEvent scenario rand
  = Some (RegimeScheduler.mainBreakout scenario (rand 0%nat)).
Proof.
  intros Htype. unfold RegimeScheduler.mainEvent.
  destruct (decide _) as [Heq|_]; [contradiction | reflexivity].
Qed.

(** The events of a scenario without fake breakouts whose window lies inside
    [[0, duration]] are separated, whatever the draw: this is the case the
    specification tests. *)
Lemma separated_single_breakout scenario rand :
  let window := MarketScenario.timeWindow (MarketScenario.breakout scenario) in
  RegimeScheduler.fakeBreakoutsOf scenario = [] ->
  0 <= fst window -> fst window <= snd window ->
  snd window <= MarketScenario.duration scenario ->
  0 <= rand 0%nat < 1 ->
  Timeline.separated 0 (MarketScenario.duration scenario)
    (RegimeScheduler.sortEvents (RegimeScheduler.allEvents scenario rand)).
Proof.
  intros window Hfakes Hlo Hwin Hhi Hu.
  unfold RegimeScheduler.allEvents. rewrite Hfakes.
  unfold RegimeScheduler.mainEvent.
  destruct (decide _) as [Hnone|Hsome]; simpl; [exact I|].
  destruct (mainBreakout_startTime scenario (rand 0%nat) Hu Hwin)
    as (H1 & H2 & _).
  fold window in H1, H2.
  assert (Hend : RegimeScheduler.BreakoutEvent.endTime
                   (RegimeScheduler.mainBreakout scenario (rand 0%nat))
                 == Qmin (RegimeScheduler.BreakoutEvent.startTime
                            (RegimeScheduler.mainBreakout scenario (rand 0%nat))
                          + RegimeScheduler.calculateBreakoutDuration
                              (MarketScenario.speed
                                 (MarketScenario.breakout scenario))
                              (Qabs (MarketScenario.magnitude
                                       (MarketScenario.breakout scenario))))
                      (MarketScenario.duration scenario)).
  { unfold RegimeScheduler.mainBreakout.
    destruct (MarketScenario.timeWindow (MarketScenario.breakout scenario)).
    reflexivity. }
  pose proof (calculateBreakoutDuration_min
                (MarketScenario.speed (MarketScenario.breakout scenario))
                (Qabs (MarketScenario.magnitude
                         (MarketScenario.breakout scenario)))) as Hdur.
  destruct (Qmin_cases
              (RegimeScheduler.BreakoutEvent.startTime
                 (RegimeScheduler.mainBreakout scenario (rand 0%nat))
               + RegimeScheduler.calculateBreakoutDuration
                   (MarketScenario.speed (MarketScenario.breakout scenario))
                   (Qabs (MarketScenario.magnitude
                            (MarketScenario.breakout scenario))))
              (MarketScenario.duration scenario)) as [[Hc Hm]|[Hc Hm]];
    rewrite Hm in Hend; repeat split; lra.
Qed.

(** A scenario without breakout and without fakes is one ranging segment
    over [[0, duration)]. *)
Lemma schedule_ranging_single_segment this scenario rand :
  MarketScenario.type (MarketScenario.breakout scenario) = MarketScenario.none ->
  RegimeScheduler.fakeBreakoutsOf scenario = [] ->
  0 < MarketScenario.duration scenario ->
  RegimeScheduler.timeline (RegimeScheduler.schedule this scenario rand)
  = [RegimeScheduler.rangingSegment 0 (MarketScenario.duration scenario)
       "Post-breakout ranging"].
Proof.
  intros Hnone Hfakes Hpos. rewrite schedule_timeline. cbv zeta.
  unfold RegimeScheduler.allEvents, RegimeScheduler.mainEvent.
  rewrite Hfakes. destruct (decide _) as [_|Hsome]; [|contradiction].
  simpl. apply Qltb_lt in Hpos. rewrite Hpos. reflexivity.
Qed.

(** The fake-then-real preset: the fake breakout and its reversal are over
    by 42.5 and the main breakout starts at 50 or later, so its events are
    separated for every pair of draws. *)
Lemma separated_fake_preset rand :
  0 <= rand 0%nat < 1 -> 0 <= rand 1%nat < 1 ->
  Timeline.separated 0
    (MarketScenario.duration MarketScenario.createFakeBreakoutScenario)
    (RegimeScheduler.sortEvents
       (RegimeScheduler.allEvents MarketScenario.createFakeBreakoutScenario
          rand)).
Proof.
  intros Hu0 Hu1.
  unfold RegimeScheduler.allEvents.
  rewrite mainEvent_some by discriminate.
  unfold RegimeScheduler.mainBreakout, RegimeScheduler.fakeBreakoutsOf.
  cbn -[Qplus Qmult Qminus Qdiv Qmin JS.Qltb
        RegimeScheduler.calculateBreakoutDuration Qabs].
  assert (Hmain : RegimeScheduler.calculateBreakoutDuration
                    MarketScenario.gradual (Qabs 1.0) == 15) by eval_Q.
  assert (Hfake : RegimeScheduler.calculateBreakoutDuration
                    MarketScenario.gradual (Qabs 0.5) == 25 # 2) by eval_Q.
  set (dmain := RegimeScheduler.calculateBreakoutDuration
                  MarketScenario.gradual (Qabs 1.0)) in *.
  set (dfake := RegimeScheduler.calculateBreakoutDuration
                  MarketScenario.gradual (Qabs 0.5)) in *.
  destruct (Qmin_cases (50 + rand 0%nat * (70 - 50) + dmain) 90)
    as [[Hc Hm]|[Hc Hm]];
    repeat (match goal with
            | |- context [JS.Qltb ?x ?y] => case_Qltb x y
            end; cbn -[Qplus Qmult Qminus Qdiv Qmin JS.Qltb] in *);
    try lra;
    repeat split; cbn -[Qplus Qmult Qminus Qdiv Qmin]; rewrite ?Hm; lra.
Qed.

(** Past the end of the bullish preset the lookup keeps answering the
    closing ranging period. *)
Example bullish_preset_tail :
  RegimeScheduler.getCurrentRegime
    (RegimeScheduler.schedule RegimeScheduler.new
       MarketScenario.createBullishBreakout (Examples.constRand (1 # 2))) 75
  = RegimeScheduler.getCurrentRegime
      (RegimeScheduler.schedule RegimeScheduler.new
         MarketScenario.createBullishBreakout (Examples.constRand (1 # 2)))
      (60 - (1 # 2))
  /\ RegimeScheduler.getCurrentRegime
       (RegimeScheduler.schedule RegimeScheduler.new
          MarketScenario.createBullishBreakout (Examples.constRand (1 # 2))) 75
     = {| RegimeScheduler.regime := ("N", "O")%string;
          RegimeScheduler.sign := RegimeScheduler.F;
          RegimeScheduler.targetPrice := None |}.
Proof. split; vm_compute; reflexivity. Qed.

(** ** The price path in double precision *)

Section DoublePath.

Import Double.




Lemma double_stepLoop_S this ts regime targetPrice draws n i currentSign :
  QuoteGenerator.stepLoop this ts regime targetPrice draws (S n) i currentSign
  = let step :=
      QuoteGenerator.stepOnce this ts regime currentSign targetPrice (draws i)
    in
    let rest :=
      QuoteGenerator.stepLoop (fst (fst step)) ts regime targetPrice draws n
        (S i) (snd step) in
    (fst rest, snd (fst step) :: snd rest).
Proof.
  cbn [QuoteGenerator.stepLoop].
  destruct (QuoteGenerator.stepOnce this ts regime currentSign targetPrice
              (draws i)) as [[this1 tick1] sign1].
  cbn [fst snd].
  destruct (QuoteGenerator.stepLoop this1 ts regime targetPrice draws n (S i)
              sign1) as [final ticks].
  reflexivity.
Qed.

Lemma double_stepLoop_length ts regime targetPrice draws n :
  forall this i currentSign,
  length (snd (QuoteGenerator.stepLoop this ts regime targetPrice draws n i
                 currentSign)) = n.
Proof.
  induction n as [|n IH]; intros this i currentSign.
  - reflexivity.
  - rewrite double_stepLoop_S. cbv zeta. cbn [snd length]. rewrite IH.
    reflexivity.
Qed.

(** Each tick of the loop is the tick of one iteration, made with the
    generator's model. *)
Lemma double_stepLoop_ticks ts regime targetPrice draws n :
  forall this i currentSign tick,
  In tick
    (snd (QuoteGenerator.stepLoop this ts regime targetPrice draws n i
            currentSign)) ->
  exists this' sign' u,
    QuoteGenerator.model this' = QuoteGenerator.model this
    /\ tick = snd (fst (QuoteGenerator.stepOnce this' ts regime sign'
                          targetPrice u)).
Proof.
  induction n as [|n IH]; intros this i currentSign tick Hin.
  - destruct Hin.
  - rewrite double_stepLoop_S in Hin. cbv zeta in Hin. cbn [snd] in Hin.
    destruct Hin as [<-|Hin].
    + exists this, currentSign, (draws i). split; reflexivity.
    + destruct (IH _ _ _ _ Hin) as (this' & sign' & u & Hmodel & Htick).
      exists this', sign', u. split; [|exact Htick].
      rewrite Hmodel. reflexivity.
Qed.

Lemma double_constructor_full quoteModel startPrice spreadBase windowSeconds :
  PriceModel.full
    (PriceModel.constructor quoteModel startPrice spreadBase windowSeconds).
Proof.
  unfold PriceModel.full, PriceModel.constructor. simpl.
  split; [reflexivity | apply length_replicate].
Qed.

Lemma double_pushEntry_full buffer maxBufferSize entry :
  length buffer = maxBufferSize -> (0 < maxBufferSize)%nat ->
  PriceModel.pushEntry buffer maxBufferSize entry = tail buffer ++ [entry]
  /\ length (tail buffer ++ [entry]) = maxBufferSize.
Proof.
  intros Hlen Hpos. unfold PriceModel.pushEntry. rewrite length_app. simpl.
  replace (maxBufferSize <? length buffer + 1)%nat with true
    by (symmetry; apply Nat.ltb_lt; lia).
  destruct buffer as [|first rest]; simpl in *; [lia|].
  split; [reflexivity|]. rewrite length_app. simpl. lia.
Qed.

(** One update of a full buffer: it does not throw, it appends the entry of
    the step and drops the oldest one, and it runs pivot detection on the
    centre of the new buffer. *)
Lemma double_update_full this input :
  PriceModel.full this ->
  let step :=
    QuoteGenerator.stepSecond (PriceModel.generator this)
      (PriceModel.nowDt input) (PriceModel.regime input)
      (PriceModel.sign input) (PriceModel.targetPrice input)
      (PriceModel.nbUpdates input) (PriceModel.draws input) in
  exists this' entry centre,
    PriceModel.update this input = Some this'
    /\ PriceModel.buffer this' = tail (PriceModel.buffer this) ++ [entry]
    /\ PriceModel.window this' = PriceModel.window this
    /\ PriceModel.full this'
    /\ PriceModel.buffer this' !! PriceModel.window this' = Some centre
    /\ PriceModel.pivot this'
       = PriceModel.detectPivot (PriceModel.buffer this') centre
    /\ PriceModel.generator this' = fst step
    /\ match last (snd step) with
       | Some lastTick =>
           entry = {| PriceModel.bid := QuoteGenerator.priceBid lastTick;
                      PriceModel.ask := QuoteGenerator.priceAsk lastTick;
                      PriceModel.mid :=
                        QuoteGenerator.getVolumeWeightedMid (fst step)
                          (QuoteGenerator.sizeBid lastTick)
                          (QuoteGenerator.sizeAsk lastTick) |}
       | None => last (PriceModel.buffer this) = Some entry
       end.
Proof.
  intros [Hmax Hlen] step. unfold PriceModel.update. fold step.
  destruct step as [generator' ticks]. cbn [fst snd].
  unfold PriceModel.stepPrice.
  assert (Hnonempty : exists lastEntry,
            last (PriceModel.buffer this) = Some lastEntry).
  { destruct (last (PriceModel.buffer this)) as [lastEntry|] eqn:Hlast;
      [eauto|].
    apply last_None in Hlast. rewrite Hlast in Hlen. simpl in Hlen. lia. }
  destruct Hnonempty as (lastEntry & HlastEntry). rewrite HlastEntry.
  assert (Hpos : (0 < PriceModel.maxBufferSize this)%nat) by lia.
  assert (Hcentre : forall entry, exists centre,
            (tail (PriceModel.buffer this) ++ [entry])
              !! PriceModel.window this = Some centre).
  { intros entry. apply lookup_lt_is_Some.
    rewrite (proj2 (double_pushEntry_full _ _ entry Hlen Hpos)). lia. }
  destruct (last ticks) as [lastTick|].
  - match goal with
    | |- context [PriceModel.pushEntry _ _ ?e] =>
        destruct (double_pushEntry_full _ _ e Hlen Hpos) as [Hpush Hlen'];
        destruct (Hcentre e) as (centre & Hc)
    end.
    rewrite Hpush, Hlen', Nat.eqb_refl, Hc.
    eexists _, _, centre. split; [reflexivity|].
    cbn. repeat split; try assumption; reflexivity.
  - destruct (double_pushEntry_full _ _ lastEntry Hlen Hpos) as [Hpush Hlen'].
    destruct (Hcentre lastEntry) as (centre & Hc).
    rewrite Hpush, Hlen', Nat.eqb_refl, Hc.
    eexists _, lastEntry, centre. split; [reflexivity|].
    cbn. repeat split; try assumption; reflexivity.
Qed.



(** Every state of a run from a full buffer has a full buffer, and no
    update of the run throws. *)
Lemma trace_full inputs : forall this,
  PriceModel.full this ->
  length (PriceModel.trace this inputs) = length inputs
  /\ Forall PriceModel.full (PriceModel.trace this inputs).
Proof.
  induction inputs as [|input rest IH]; intros this Hfull.
  - split; [reflexivity | constructor].
  - destruct (double_update_full this input Hfull)
      as (this' & entry & centre & Hupd & _ & _ & Hfull' & _).
    cbn [PriceModel.trace]. rewrite Hupd.
    destruct (IH this' Hfull') as [Hlen Hall].
    split; [simpl; rewrite Hlen; reflexivity|].
    constructor; assumption.
Qed.

End DoublePath.




(** C3 (the code at the failing input).  A generator at 2 / 2.02 over a
    model whose ticks move the bid up by half a cent with a spread of one
    cent: the single tick of the step is 2.01 / 2.01, a book of zero width,
    although the generator's own ask, 2.0149999999999997, is [bid + 0.01]
    above its bid, 2.005: [Math.round(2.005 * 100)] is
    [Math.round(200.5) = 201] and [Math.round(2.0149999999999997 * 100)] is
    [Math.round(201.49999999999997) = 201].  The same happens at 128 /
    128.02, where the tick is 128.01 / 128.01. *)
Theorem stepSecond_zero_width_tick :
  map (fun tick => (Double.QuoteGenerator.priceBid tick,
                    Double.QuoteGenerator.priceAsk tick))
    (snd (Double.QuoteGenerator.stepSecond
            (Double.QuoteGenerator.new Examples.halfCentDouble
               2%float 2.02%float)
            0%Z ("N", "O")%string RegimeScheduler.F None 1
            (fun _ => 0.5%float)))
  = [(2.01%float, 2.01%float)]
  /\ (let generator :=
        fst (Double.QuoteGenerator.stepSecond
               (Double.QuoteGenerator.new Examples.halfCentDouble
                  2%float 2.02%float)
               0%Z ("N", "O")%string RegimeScheduler.F None 1
               (fun _ => 0.5%float)) in
      Double.QuoteGenerator.bid generator = 2.005%float
      /\ Double.QuoteGenerator.ask generator = 2.0149999999999997%float
      /\ Double.QuoteGenerator.ask generator
         = (Double.QuoteGenerator.bid generator + 0.01)%float
      /\ (Double.QuoteGenerator.bid generator * 100)%float = 200.5%float
      /\ (Double.QuoteGenerator.ask generator * 100)%float
         = 201.49999999999997%float)
  /\ map (fun tick => (Double.QuoteGenerator.priceBid tick,
                       Double.QuoteGenerator.priceAsk tick))
       (snd (Double.QuoteGenerator.stepSecond
               (Double.QuoteGenerator.new Examples.halfCentDouble
                  128%float 128.02%float)
               0%Z ("N", "O")%string RegimeScheduler.F None 1
               (fun _ => 0.5%float)))
     = [(128.01%float, 128.01%float)].
Proof.
  repeat split; vm_compute; reflexivity.
Qed.

(** C10 (as amended).  Every step of [stepSecond] emits as many ticks as
    updates were drawn, each with equal bid and ask sizes, both the floor of
    half a sampled size.  [getVolumeWeightedMid (0, 0)] is exactly
    [(bid + ask) / 2], through the zero-total-size fallback.  For the other
    sizes [getVolumeWeightedMid (s, s)] is [(bid * s + ask * s) / (s + s)],
    which is [(bid + ask) / 2] in exact arithmetic (the third part, over
    the rationals) but not always in double precision.  And in every state
    of a run of updates from the constructor, a further update whose step
    has ticks records as mid [getVolumeWeightedMid (s, s)] of the
    generator, [s] being the size of the last tick. *)
Theorem equal_sizes_give_arithmetic_mid :
  (forall (this : Double.QuoteGenerator.t) (ts : Z)
          (regime : RegimeScheduler.Regime) (sign : RegimeScheduler.Sign)
          (targetPrice : option float) (n : nat) (draws : nat -> float),
      let ticks :=
        snd (Double.QuoteGenerator.stepSecond this ts regime sign targetPrice
               n draws) in
      length ticks = n
      /\ forall tick, In tick ticks ->
           Double.QuoteGenerator.sizeBid tick
           = Double.QuoteGenerator.sizeAsk tick
           /\ exists sign' u,
                Double.QuoteGenerator.sizeBid tick
                = Double.Math_floor
                    (Double.QuoteModel.size
                       (Double.QuoteModel.sampleTick
                          (Double.QuoteGenerator.model this) regime sign' u)
                     / 2)%float)
  /\ (forall this : Double.QuoteGenerator.t,
        Double.QuoteGenerator.getVolumeWeightedMid this 0%float 0%float
        = ((Double.QuoteGenerator.bid this + Double.QuoteGenerator.ask this)
           / 2)%float)
  /\ (forall (this : QuoteGenerator.t) (s : Q),
        QuoteGenerator.getVolumeWeightedMid this s s
        == (QuoteGenerator.bid this + QuoteGenerator.ask this) / 2)
  /\ (forall (quoteModel : Double.QuoteModel.t) (startPrice spreadBase : float)
             (windowSeconds : nat) (inputs : list Double.PriceModel.Input)
             (this : Double.PriceModel.t) (input : Double.PriceModel.Input),
        let initial :=
          Double.PriceModel.constructor quoteModel startPrice spreadBase
            windowSeconds in
        In this (initial :: Double.PriceModel.trace initial inputs) ->
        (0 < Double.PriceModel.nbUpdates input)%nat ->
        exists this' entry tick,
          Double.PriceModel.update this input = Some this'
          /\ last (Double.PriceModel.buffer this') = Some entry
          /\ last (snd (Double.QuoteGenerator.stepSecond
                          (Double.PriceModel.generator this)
                          (Double.PriceModel.nowDt input)
                          (Double.PriceModel.regime input)
                          (Double.PriceModel.sign input)
                          (Double.PriceModel.targetPrice input)
                          (Double.PriceModel.nbUpdates input)
                          (Double.PriceModel.draws input))) = Some tick
          /\ Double.QuoteGenerator.sizeBid tick
             = Double.QuoteGenerator.sizeAsk tick
          /\ Double.PriceModel.mid entry
             = Double.QuoteGenerator.getVolumeWeightedMid
                 (Double.PriceModel.generator this')
                 (Double.QuoteGenerator.sizeBid tick)
                 (Double.QuoteGenerator.sizeBid tick)).
Proof.
  split; [|split; [|split]].
  - intros this ts regime sign targetPrice n draws ticks. subst ticks.
    unfold Double.QuoteGenerator.stepSecond.
    split; [apply double_stepLoop_length|].
    intros tick Hin.
    apply double_stepLoop_ticks in Hin as (this' & sign' & u & Hmodel & ->).
    split; [reflexivity|]. exists sign', u. rewrite <- Hmodel. reflexivity.
  - intros this. reflexivity.
  - apply getVolumeWeightedMid_equal_sizes.
  - intros quoteModel startPrice spreadBase windowSeconds inputs this input
      initial Hin Hticks.
    assert (Hfull : Double.PriceModel.full this).
    { pose proof (double_constructor_full quoteModel startPrice spreadBase
                    windowSeconds) as Hinit.
      destruct Hin as [<-|Hin]; [exact Hinit|].
      destruct (trace_full inputs _ Hinit) as [_ Hall].
      rewrite Forall_forall in Hall. apply Hall.
      apply list_elem_of_In. exact Hin. }
    destruct (double_update_full this input Hfull)
      as (this' & entry & centre & Hupd & Hbuf & _ & _ & _ & _ & Hgen
          & Hentry).
    cbv zeta in Hgen, Hentry.
    destruct (last (snd (Double.QuoteGenerator.stepSecond _ _ _ _ _ _ _)))
      as [tick|] eqn:Hlast.
    + exists this', entry, tick. split; [exact Hupd|].
      split; [rewrite Hbuf; apply last_snoc|]. split; [reflexivity|].
      assert (Hsize : Double.QuoteGenerator.sizeBid tick
                      = Double.QuoteGenerator.sizeAsk tick).
      { assert (Hin' : In tick
                  (snd (Double.QuoteGenerator.stepSecond
                          (Double.PriceModel.generator this)
                          (Double.PriceModel.nowDt input)
                          (Double.PriceModel.regime input)
                          (Double.PriceModel.sign input)
                          (Double.PriceModel.targetPrice input)
                          (Double.PriceModel.nbUpdates input)
                          (Double.PriceModel.draws input)))).
        { apply last_Some in Hlast as [front ->].
          apply in_or_app. right. left. reflexivity. }
        unfold Double.QuoteGenerator.stepSecond in Hin'.
        apply double_stepLoop_ticks in Hin' as (g & sign' & u & _ & ->).
        reflexivity. }
      split; [exact Hsize|].
      rewrite Hentry, Hgen. cbn [Double.PriceModel.mid].
      rewrite <- Hsize. reflexivity.
    + exfalso. apply last_None in Hlast. apply (f_equal length) in Hlast.
      unfold Double.QuoteGenerator.stepSecond in Hlast.
      rewrite double_stepLoop_length in Hlast. simpl in Hlast. lia.
Qed.

(** C10, instance: the first update of the window-5 ranging preset over the
    zero-weight model, with one tick of sizes 50 and 50; the mid recorded
    is [getVolumeWeightedMid (50, 50)] of the generator. *)
Lemma equal_sizes_give_arithmetic_mid_witness :
  let initial := Examples.rangingDouble Examples.zeroWeightDouble in
  In initial (initial :: Double.PriceModel.trace initial [])
  /\ (0 < Double.PriceModel.nbUpdates (Examples.rangingInput 1 1))%nat
  /\ exists this' entry,
       Double.PriceModel.update initial (Examples.rangingInput 1 1)
       = Some this'
       /\ last (Double.PriceModel.buffer this') = Some entry
       /\ Double.PriceModel.mid entry
          = Double.QuoteGenerator.getVolumeWeightedMid
              (Double.PriceModel.generator this') 50%float 50%float.
Proof.
  intros initial.
  assert (Hin : In initial (initial :: Double.PriceModel.trace initial []))
    by (left; reflexivity).
  assert (Hn : (0 < Double.PriceModel.nbUpdates (Examples.rangingInput 1 1))%nat)
    by (simpl; lia).
  split; [exact Hin|]. split; [exact Hn|].
  destruct equal_sizes_give_arithmetic_mid as (_ & _ & _ & Hmid).
  destruct (Hmid Examples.zeroWeightDouble 100%float 0.02%float 5%nat []
              initial (Examples.rangingInput 1 1) Hin Hn)
    as (this' & entry & tick & Hupd & Hlast & Htick & Hsize & Hentry).
  exists this', entry. split; [exact Hupd|]. split; [exact Hlast|].
  assert (Hfifty : Double.QuoteGenerator.sizeBid tick = 50%float).
  { vm_compute in Htick. injection Htick as <-. reflexivity. }
  rewrite Hfifty in Hentry. exact Hentry.
Defined.

(** C10 (as stated) fails in double precision: for the generator at 100 /
    100.02, [getVolumeWeightedMid (50, 50)] is
    [(100 * 50 + 100.02 * 50) / 100 = 100.01] while [(100 + 100.02) / 2] is
    100.00999999999999, and [===] tells them apart; so the mid recorded by
    the first update of the window-5 ranging preset over the zero-weight
    model is not the arithmetic mid of the generator's bid and ask. *)
Lemma equal_sizes_mid_counterexample :
  (let generator :=
     Double.QuoteGenerator.new Examples.zeroWeightDouble 100%float 100.02%float
   in
   Double.QuoteGenerator.getVolumeWeightedMid generator 50%float 50%float
   = 100.01%float
   /\ Double.QuoteGenerator.getMid generator = 100.00999999999999%float
   /\ PrimFloat.eqb
        (Double.QuoteGenerator.getVolumeWeightedMid generator 50%float
           50%float)
        (Double.QuoteGenerator.getMid generator) = false)
  /\ (fun this' =>
        (Double.PriceModel.recordedMid this',
         ((Double.QuoteGenerator.bid (Double.PriceModel.generator this')
           + Double.QuoteGenerator.ask (Double.PriceModel.generator this'))
          / 2)%float))
     <$> Double.PriceModel.update
           (Examples.rangingDouble Examples.zeroWeightDouble)
           (Examples.rangingInput 1 1)
     = Some (Some 100.01%float, 100.00999999999999%float).
Proof.
  repeat split; vm_compute; reflexivity.
Qed.

(** * Further properties of the sources *)

(** ** RegimeScheduler: durations and the event sort *)

(** X1.  Whatever the speed and the magnitude, a breakout lasts between 2
    and 40 seconds: exactly 2 when instant, between 8 and 30 when gradual,
    between 10 and 40 when accelerating; and a larger magnitude never gives
    a shorter breakout. *)
Theorem calculateBreakoutDuration_bounds
    (speed : MarketScenario.BreakoutSpeed) (m m' : Q) :
  2 <= RegimeScheduler.calculateBreakoutDuration speed m <= 40
  /\ match speed with
     | MarketScenario.instant =>
         RegimeScheduler.calculateBreakoutDuration speed m == 2
     | MarketScenario.gradual =>
         8 <= RegimeScheduler.calculateBreakoutDuration speed m <= 30
     | MarketScenario.accelerating =>
         10 <= RegimeScheduler.calculateBreakoutDuration speed m <= 40
     end
  /\ (m <= m' ->
      RegimeScheduler.calculateBreakoutDuration speed m
      <= RegimeScheduler.calculateBreakoutDuration speed m').
Proof.
  destruct speed; simpl.
  - repeat split; lra.
  - destruct (Qmin_cases 30 (10 + m * 5)) as [[? Hm]|[? Hm]];
      destruct (Qmax_cases 8 (Qmin 30 (10 + m * 5))) as [[? HM]|[? HM]];
      destruct (Qmin_cases 30 (10 + m' * 5)) as [[? Hm']|[? Hm']];
      destruct (Qmax_cases 8 (Qmin 30 (10 + m' * 5))) as [[? HM']|[? HM']];
      rewrite ?HM, ?HM', ?Hm, ?Hm' in *; repeat split; intros; lra.
  - destruct (Qmin_cases 40 (15 + m * 8)) as [[? Hm]|[? Hm]];
      destruct (Qmax_cases 10 (Qmin 40 (15 + m * 8))) as [[? HM]|[? HM]];
      destruct (Qmin_cases 40 (15 + m' * 8)) as [[? Hm']|[? Hm']];
      destruct (Qmax_cases 10 (Qmin 40 (15 + m' * 8))) as [[? HM']|[? HM']];
      rewrite ?HM, ?HM', ?Hm, ?Hm' in *; repeat split; intros; lra.
Qed.

Lemma calculateBreakoutDuration_bounds_witness :
  (1 # 2) <= 2
  /\ RegimeScheduler.calculateBreakoutDuration MarketScenario.gradual (1 # 2)
     <= RegimeScheduler.calculateBreakoutDuration MarketScenario.gradual 2.
Proof.
  assert (H : (1 # 2) <= 2) by eval_Q.
  split; [exact H|].
  apply (calculateBreakoutDuration_bounds MarketScenario.gradual (1 # 2) 2).
  exact H.
Defined.

Section EventSort.

Import RegimeScheduler.

Lemma insertEvent_perm a sorted : insertEvent a sorted ≡ₚ a :: sorted.
Proof.
  induction sorted as [|b rest IH]; simpl.
  - reflexivity.
  - destruct (JS.Qltb _ _); [|reflexivity].
    rewrite IH. apply Permutation_swap.
Qed.

Lemma insertEvent_sorted a sorted :
  StronglySorted (fun x y => Event.startTime x <= Event.startTime y) sorted ->
  StronglySorted (fun x y => Event.startTime x <= Event.startTime y)
    (insertEvent a sorted).
Proof.
  induction 1 as [|b rest Hsorted IH Hall]; simpl.
  - repeat constructor.
  - case_Qltb (Event.startTime b - Event.startTime a) 0.
    + constructor; [exact IH|].
      rewrite insertEvent_perm. constructor; [lra | exact Hall].
    + constructor; [constructor; assumption|].
      constructor; [lra|].
      eapply Forall_impl; [exact Hall|]. simpl. intros c Hc. lra.
Qed.

(** Inserting [a] leaves the elements that share a start time with one
    another in their order, [a] coming first among its equals. *)
Lemma insertEvent_stable (k : Q) a sorted :
  filter (fun e => Event.startTime e == k) (insertEvent a sorted)
  = filter (fun e => Event.startTime e == k) (a :: sorted).
Proof.
  induction sorted as [|b rest IH]; simpl.
  - reflexivity.
  - case_Qltb (Event.startTime b - Event.startTime a) 0; [|reflexivity].
    rewrite !filter_cons in *.
    destruct (decide (Event.startTime b == k)) as [Hb|Hb];
      destruct (decide (Event.startTime a == k)) as [Ha|Ha];
      rewrite ?IH; try reflexivity.
    exfalso. lra.
Qed.

End EventSort.

(** X2.  The sort of the scheduled events loses and adds nothing (its
    result is a permutation of its input), orders the events by start time,
    and is stable: events with the same start time keep the order they were
    pushed in. *)
Theorem sortEvents_stable_sort (events : list RegimeScheduler.Event.t) (k : Q) :
  RegimeScheduler.sortEvents events ≡ₚ events
  /\ StronglySorted
       (fun x y => RegimeScheduler.Event.startTime x
                   <= RegimeScheduler.Event.startTime y)
       (RegimeScheduler.sortEvents events)
  /\ filter (fun e => RegimeScheduler.Event.startTime e == k)
       (RegimeScheduler.sortEvents events)
     = filter (fun e => RegimeScheduler.Event.startTime e == k) events.
Proof.
  unfold RegimeScheduler.sortEvents.
  induction events as [|a rest (IHp & IHs & IHf)]; simpl.
  - repeat split; constructor.
  - split; [|split].
    + rewrite insertEvent_perm, IHp. reflexivity.
    + apply insertEvent_sorted. exact IHs.
    + rewrite insertEvent_stable, !filter_cons, IHf. reflexivity.
Qed.

(** ** RegimeScheduler: the shape of the timeline *)

Section TimelineShape.

Import RegimeScheduler.

Lemma buildSegments_shape startPrice events : forall from,
  Forall (fun segment => Timeline.isRanging segment
                         \/ Timeline.isBreakoutMove startPrice segment)
    (fst (buildSegments startPrice from events))
  /\ filter (fun segment => Timeline.breakoutTagged segment = true)
       (fst (buildSegments startPrice from events))
     = map (eventSegment startPrice) events.
Proof.
  induction events as [|event rest IH]; simpl; intros from.
  - split; constructor.
  - destruct (IH (Event.endTime event)) as [IHshape IHfilter].
    destruct (buildSegments startPrice (Event.endTime event) rest)
      as [more final].
    simpl in *.
    assert (Hevent : Timeline.isBreakoutMove startPrice
                       (eventSegment startPrice event)).
    { split; [reflexivity|]. exists (Event.targetPrice event). simpl.
      split; [reflexivity|].
      case_Qltb startPrice (Event.targetPrice event); split; intros;
        try reflexivity; lra. }
    case_Qltb from (Event.startTime event); simpl.
    + split.
      * constructor; [left; repeat split; assumption|].
        constructor; [right; exact Hevent | exact IHshape].
      * rewrite filter_cons. simpl. rewrite filter_cons. simpl.
        rewrite IHfilter. reflexivity.
    + split.
      * constructor; [right; exact Hevent | exact IHshape].
      * rewrite filter_cons. simpl. rewrite IHfilter. reflexivity.
Qed.

End TimelineShape.

(** X3.  Whatever the scenario and the draws, every segment of the scheduled
    timeline is either a ranging period (regime Normal/Outside, sign Flat,
    no target, and strictly positive length) or a breakout move (regime
    Normal/Breakout with a target, sign Up when the target is above the start
    price and Down otherwise); a move back to the start price itself, such
    as the reversal of a fake breakout, is therefore always labelled Down. *)
Theorem timeline_segments_shape
    (this : RegimeScheduler.t) (scenario : MarketScenario.t) (rand : nat -> Q) :
  Forall (fun segment =>
            Timeline.isRanging segment
            \/ Timeline.isBreakoutMove (MarketScenario.startPrice scenario)
                 segment)
    (RegimeScheduler.timeline (RegimeScheduler.schedule this scenario rand)).
Proof.
  rewrite schedule_timeline. cbv zeta. apply Forall_app. split.
  - apply buildSegments_shape.
  - case_Qltb (snd (RegimeScheduler.buildSegments
                      (MarketScenario.startPrice scenario) 0
                      (RegimeScheduler.sortEvents
                         (RegimeScheduler.allEvents scenario rand))))
              (MarketScenario.duration scenario).
    + constructor; [|constructor]. left. repeat split. exact Hcmp.
    + constructor.
Qed.

Lemma sortEvents_perm events :
  RegimeScheduler.sortEvents events ≡ₚ events.
Proof.
  unfold RegimeScheduler.sortEvents.
  induction events as [|a rest IH]; simpl; [reflexivity|].
  rewrite insertEvent_perm, IH. reflexivity.
Qed.

Lemma fakeEvents_length startPrice rand fakes : forall k,
  length (RegimeScheduler.fakeEvents startPrice rand k fakes)
  = (2 * length fakes)%nat.
Proof.
  induction fakes as [|fake rest IH]; intros k; simpl.
  - reflexivity.
  - destruct (MarketScenario.FakeBreakoutConfig.timeWindow fake).
    simpl. rewrite IH. lia.
Qed.

(** X4.  No scheduled event is dropped or merged: the breakout segments of
    the timeline, in order, are the sorted events, one segment each, even
    when events overlap; there are two per fake breakout plus one when the
    scenario has a main breakout. *)
Theorem timeline_breakout_segments
    (this : RegimeScheduler.t) (scenario : MarketScenario.t) (rand : nat -> Q) :
  filter (fun segment => Timeline.breakoutTagged segment = true)
    (RegimeScheduler.timeline (RegimeScheduler.schedule this scenario rand))
  = map (RegimeScheduler.eventSegment (MarketScenario.startPrice scenario))
      (RegimeScheduler.sortEvents (RegimeScheduler.allEvents scenario rand))
  /\ length
       (filter (fun segment => Timeline.breakoutTagged segment = true)
          (RegimeScheduler.timeline
             (RegimeScheduler.schedule this scenario rand)))
     = (2 * length (RegimeScheduler.fakeBreakoutsOf scenario)
        + (if decide (MarketScenario.type (MarketScenario.breakout scenario)
                      = MarketScenario.none) then 0 else 1))%nat.
Proof.
  assert (Hfilter :
    filter (fun segment => Timeline.breakoutTagged segment = true)
      (RegimeScheduler.timeline (RegimeScheduler.schedule this scenario rand))
    = map (RegimeScheduler.eventSegment (MarketScenario.startPrice scenario))
        (RegimeScheduler.sortEvents (RegimeScheduler.allEvents scenario rand))).
  { rewrite schedule_timeline. cbv zeta. rewrite filter_app.
    rewrite (proj2 (buildSegments_shape _ _ _)).
    destruct (JS.Qltb _ _); simpl.
    - rewrite filter_cons. simpl. rewrite app_nil_r. reflexivity.
    - rewrite app_nil_r. reflexivity. }
  split; [exact Hfilter|].
  rewrite Hfilter, length_map.
  rewrite (Permutation_length (sortEvents_perm _)).
  unfold RegimeScheduler.allEvents, RegimeScheduler.mainEvent.
  rewrite length_app, fakeEvents_length.
  destruct (decide _); simpl; lia.
Qed.

(** ** RegimeScheduler: lookups on the timeline *)

Section Lookups.

Import RegimeScheduler.

Lemma contains_inSegment segment (t : Q) :
  contains segment t = true <-> Timeline.inSegment segment t.
Proof.
  unfold contains, Timeline.inSegment.
  rewrite andb_true_iff, Qle_bool_iff, Qltb_lt. reflexivity.
Qed.

Lemma findSegment_Some segments (t : Q) segment :
  findSegment segments t = Some segment ->
  In segment segments /\ Timeline.inSegment segment t.
Proof.
  induction segments as [|s rest IH]; simpl; [discriminate|].
  destruct (contains s t) eqn:Hc.
  - intros [= <-]. split; [left; reflexivity|].
    apply contains_inSegment. exact Hc.
  - intros H. destruct (IH H) as [Hin Hseg]. split; [right|]; assumption.
Qed.

Lemma findSegment_None segments (t : Q) :
  findSegment segments t = None ->
  forall segment, In segment segments -> ~ Timeline.inSegment segment t.
Proof.
  induction segments as [|s rest IH]; simpl; intros H segment Hin.
  - contradiction.
  - destruct (contains s t) eqn:Hc; [discriminate|].
    destruct Hin as [<-|Hin].
    + rewrite <- contains_inSegment. congruence.
    + apply IH; assumption.
Qed.

(** In a chain an instant lies in at most one segment. *)
Lemma chain_unique from segments to s1 s2 (t : Q) :
  Timeline.chain from segments to ->
  In s1 segments -> In s2 segments ->
  Timeline.inSegment s1 t -> Timeline.inSegment s2 t -> s1 = s2.
Proof.
  intros Hchain Hin1 Hin2 H1 H2.
  apply list_elem_of_In, list_elem_of_lookup in Hin1 as [i Hi].
  apply list_elem_of_In, list_elem_of_lookup in Hin2 as [j Hj].
  pose proof (chain_nonOverlapping _ _ _ Hchain i j s1 s2 t Hi Hj H1 H2) as ->.
  congruence.
Qed.

Lemma isInBreakout_found this (t : Q) segment :
  findSegment (timeline this) t = Some segment ->
  isInBreakout this t = Timeline.breakoutTagged segment.
Proof.
  intros Hfind. unfold isInBreakout, getCurrentRegime.
  destruct (last (timeline this)) as [lastSegment|] eqn:Hlast.
  - rewrite Hfind. reflexivity.
  - apply last_None in Hlast. rewrite Hlast in Hfind. discriminate.
Qed.

Lemma timeline_tagged_event this scenario rand segment :
  In segment (timeline (schedule this scenario rand)) ->
  Timeline.breakoutTagged segment = true ->
  exists event,
    In event (sortEvents (allEvents scenario rand))
    /\ segment = eventSegment (MarketScenario.startPrice scenario) event.
Proof.
  intros Hin Htag.
  assert (Hf : In segment
                 (filter (fun s => Timeline.breakoutTagged s = true)
                    (timeline (schedule this scenario rand)))).
  { apply list_elem_of_In, list_elem_of_filter. split; [exact Htag|].
    apply list_elem_of_In. exact Hin. }
  rewrite schedule_timeline in Hf. cbv zeta in Hf.
  rewrite filter_app, (proj2 (buildSegments_shape _ _ _)) in Hf.
  apply in_app_or in Hf as [Hf|Hf].
  - apply in_map_iff in Hf as (event & Heq & Hev). eauto.
  - destruct (JS.Qltb _ _); simpl in Hf; contradiction.
Qed.

Lemma timeline_event_segment this scenario rand event :
  In event (sortEvents (allEvents scenario rand)) ->
  In (eventSegment (MarketScenario.startPrice scenario) event)
    (timeline (schedule this scenario rand)).
Proof.
  intros Hev.
  assert (Hf : In (eventSegment (MarketScenario.startPrice scenario) event)
                 (filter (fun s => Timeline.breakoutTagged s = true)
                    (fst (buildSegments (MarketScenario.startPrice scenario) 0
                            (sortEvents (allEvents scenario rand)))))).
  { rewrite (proj2 (buildSegments_shape _ _ _)). apply in_map. exact Hev. }
  apply list_elem_of_In, list_elem_of_filter in Hf as [_ Hf].
  apply list_elem_of_In in Hf.
  rewrite schedule_timeline. cbv zeta. apply in_or_app. left. exact Hf.
Qed.

End Lookups.

(** X5.  [schedule] rebuilds the timeline and the scenario from its argument
    alone, but it overwrites the recorded breakout event only when the new
    scenario has a breakout: scheduling a scenario of type [none] on a used
    scheduler keeps the previous event, so [getTimeUntilBreakout] still
    counts down to it; after [reset] it answers nothing. *)
Theorem schedule_keeps_stale_event
    (this : RegimeScheduler.t) (scenario : MarketScenario.t)
    (rand : nat -> Q) (t : Q) :
  MarketScenario.type (MarketScenario.breakout scenario) = MarketScenario.none ->
  RegimeScheduler.timeline (RegimeScheduler.schedule this scenario rand)
  = RegimeScheduler.timeline
      (RegimeScheduler.schedule RegimeScheduler.new scenario rand)
  /\ RegimeScheduler.getBreakoutEvent
       (RegimeScheduler.schedule this scenario rand)
     = RegimeScheduler.getBreakoutEvent this
  /\ RegimeScheduler.getTimeUntilBreakout
       (RegimeScheduler.schedule this scenario rand) t
     = RegimeScheduler.getTimeUntilBreakout this t
  /\ RegimeScheduler.getTimeUntilBreakout
       (RegimeScheduler.schedule (RegimeScheduler.reset this) scenario rand) t
     = None.
Proof.
  intros Hnone.
  assert (Hmain : RegimeScheduler.mainEvent scenario rand = None).
  { unfold RegimeScheduler.mainEvent.
    destruct (decide _) as [_|Hne]; [reflexivity | contradiction]. }
  assert (Hev : forall s,
            RegimeScheduler.breakoutEvent
              (RegimeScheduler.schedule s scenario rand)
            = RegimeScheduler.breakoutEvent s).
  { intros s. unfold RegimeScheduler.schedule. rewrite Hmain.
    destruct (RegimeScheduler.buildSegments _ _ _). reflexivity. }
  split; [rewrite !schedule_timeline; reflexivity|].
  split; [apply Hev|].
  unfold RegimeScheduler.getTimeUntilBreakout. rewrite !Hev.
  split; reflexivity.
Qed.

(** X5, instance: the ranging preset scheduled on a scheduler that had
    scheduled the bullish preset still reports 30 - 10 = 20 seconds to the
    breakout. *)
Lemma schedule_keeps_stale_event_witness :
  MarketScenario.type
    (MarketScenario.breakout MarketScenario.createRangingScenario)
  = MarketScenario.none
  /\ RegimeScheduler.getTimeUntilBreakout
       (RegimeScheduler.schedule
          (RegimeScheduler.schedule RegimeScheduler.new
             MarketScenario.createBullishBreakout (Examples.constRand (1 # 2)))
          MarketScenario.createRangingScenario (Examples.constRand 0)) 10
     = RegimeScheduler.getTimeUntilBreakout
         (RegimeScheduler.schedule RegimeScheduler.new
            MarketScenario.createBullishBreakout (Examples.constRand (1 # 2)))
         10
  /\ (fun d => Qeq_bool d 20)
     <$> RegimeScheduler.getTimeUntilBreakout
           (RegimeScheduler.schedule RegimeScheduler.new
              MarketScenario.createBullishBreakout
              (Examples.constRand (1 # 2))) 10
     = Some true.
Proof.
  split; [reflexivity|]. split.
  - apply (schedule_keeps_stale_event
             (RegimeScheduler.schedule RegimeScheduler.new
                MarketScenario.createBullishBreakout
                (Examples.constRand (1 # 2)))
             MarketScenario.createRangingScenario (Examples.constRand 0) 10).
    reflexivity.
  - vm_compute. reflexivity.
Defined.

(** X6.  When the sorted events follow one another inside [[0, duration]],
    [isInBreakout] at an elapsed time inside [[0, duration)] is true exactly
    when that time lies in the interval of one of the scheduled events, fake
    or main. *)
Theorem isInBreakout_iff_in_event
    (this : RegimeScheduler.t) (scenario : MarketScenario.t)
    (rand : nat -> Q) (t : Q) :
  Timeline.separated 0 (MarketScenario.duration scenario)
    (RegimeScheduler.sortEvents (RegimeScheduler.allEvents scenario rand)) ->
  0 <= t -> t < MarketScenario.duration scenario ->
  RegimeScheduler.isInBreakout (RegimeScheduler.schedule this scenario rand) t
  = true
  <-> exists event,
        In event
          (RegimeScheduler.sortEvents (RegimeScheduler.allEvents scenario rand))
        /\ RegimeScheduler.Event.startTime event <= t
        /\ t < RegimeScheduler.Event.endTime event.
Proof.
  intros Hsep Ht0 Ht1.
  destruct (schedule_chain this scenario rand Hsep) as [[_ Hdur]|Hchain];
    [lra|].
  destruct (proj2 (chain_union _ _ _ Hchain t) (conj Ht0 Ht1))
    as (covering & Hcov & Hcovt).
  destruct (RegimeScheduler.findSegment
              (RegimeScheduler.timeline
                 (RegimeScheduler.schedule this scenario rand)) t)
    as [found|] eqn:Hfind;
    [|exfalso; exact (findSegment_None _ _ Hfind _ Hcov Hcovt)].
  rewrite (isInBreakout_found _ _ _ Hfind).
  destruct (findSegment_Some _ _ _ Hfind) as [Hin Hfound].
  split.
  - intros Htag.
    destruct (timeline_tagged_event _ _ _ _ Hin Htag) as (event & Hev & ->).
    exists event. split; [exact Hev | exact Hfound].
  - intros (event & Hev & Hstart & Hend).
    pose proof (timeline_event_segment this _ _ _ Hev) as Hseg.
    assert (Heq : found
                  = RegimeScheduler.eventSegment
                      (MarketScenario.startPrice scenario) event).
    { eapply chain_unique; try eassumption. split; assumption. }
    rewrite Heq. reflexivity.
Qed.

(** X6, instance: the bullish preset with the draw at one half has its
    breakout over [[30, 45)]; 40 lies inside. *)
Lemma isInBreakout_iff_in_event_witness :
  Timeline.separated 0
    (MarketScenario.duration MarketScenario.createBullishBreakout)
    (RegimeScheduler.sortEvents
       (RegimeScheduler.allEvents MarketScenario.createBullishBreakout
          (Examples.constRand (1 # 2))))
  /\ 0 <= 40 /\ 40 < MarketScenario.duration MarketScenario.createBullishBreakout
  /\ RegimeScheduler.isInBreakout
       (RegimeScheduler.schedule RegimeScheduler.new
          MarketScenario.createBullishBreakout (Examples.constRand (1 # 2))) 40
     = true.
Proof.
  assert (Hsep : Timeline.separated 0
    (MarketScenario.duration MarketScenario.createBullishBreakout)
    (RegimeScheduler.sortEvents
       (RegimeScheduler.allEvents MarketScenario.createBullishBreakout
          (Examples.constRand (1 # 2))))) by eval_Q.
  assert (H0 : 0 <= 40) by eval_Q.
  assert (H1 : 40 < MarketScenario.duration MarketScenario.createBullishBreakout)
    by eval_Q.
  split; [exact Hsep|]. split; [exact H0|]. split; [exact H1|].
  apply (isInBreakout_iff_in_event RegimeScheduler.new
           MarketScenario.createBullishBreakout (Examples.constRand (1 # 2))
           40 Hsep H0 H1).
  eexists. split; [left; reflexivity|]. eval_Q.
Defined.

(** X7.  When the sorted events follow one another inside [[0, duration]]
    and the last segment of the timeline is a breakout move (the main
    breakout is cut at the end of the scenario, or ends exactly there),
    [isInBreakout] is true at every elapsed time from the start of that
    segment on, without end: the scheduler never leaves the breakout. *)
Theorem isInBreakout_never_ends
    (this : RegimeScheduler.t) (scenario : MarketScenario.t)
    (rand : nat -> Q) lastSegment (t : Q) :
  Timeline.separated 0 (MarketScenario.duration scenario)
    (RegimeScheduler.sortEvents (RegimeScheduler.allEvents scenario rand)) ->
  last (RegimeScheduler.timeline (RegimeScheduler.schedule this scenario rand))
  = Some lastSegment ->
  Timeline.breakoutTagged lastSegment = true ->
  RegimeScheduler.RegimeSegment.startTime lastSegment <= t ->
  RegimeScheduler.isInBreakout (RegimeScheduler.schedule this scenario rand) t
  = true.
Proof.
  intros Hsep Hlast Htag Ht.
  destruct (schedule_chain this scenario rand Hsep) as [[Hnil _]|Hchain].
  - rewrite Hnil in Hlast. discriminate.
  - unfold RegimeScheduler.isInBreakout.
    rewrite (getCurrentRegime_chain_tail _ _ _ _ t Hchain Hlast Ht).
    exact Htag.
Qed.

(** X7, instance: the 50-second bullish scenario with the draw at 9/10; the
    breakout [[38, 50)] is the last segment, and the scheduler still reports
    a breakout at second 1000. *)
Lemma isInBreakout_never_ends_witness :
  exists lastSegment,
    last (RegimeScheduler.timeline
            (RegimeScheduler.schedule RegimeScheduler.new
               Examples.clampedScenario (Examples.constRand (9 # 10))))
    = Some lastSegment
    /\ RegimeScheduler.RegimeSegment.startTime lastSegment == 38
    /\ RegimeScheduler.RegimeSegment.endTime lastSegment == 50
    /\ RegimeScheduler.isInBreakout
         (RegimeScheduler.schedule RegimeScheduler.new
            Examples.clampedScenario (Examples.constRand (9 # 10))) 1000
       = true.
Proof.
  eexists. split; [reflexivity|]. split; [eval_Q|]. split; [eval_Q|].
  eapply (isInBreakout_never_ends RegimeScheduler.new Examples.clampedScenario
            (Examples.constRand (9 # 10)) _ 1000).
  - eval_Q.
  - reflexivity.
  - reflexivity.
  - eval_Q.
Defined.

(** X8.  A scenario without breakout and without fake breakouts is one
    ranging segment over [[0, duration)] (no segment at all when the
    duration is not positive), and every lookup, at any elapsed time, inside
    the scenario or beyond it, answers regime Normal/Outside, sign Flat, no
    target, and no breakout. *)
Theorem ranging_scenario_is_flat
    (this : RegimeScheduler.t) (scenario : MarketScenario.t)
    (rand : nat -> Q) (t : Q) :
  MarketScenario.type (MarketScenario.breakout scenario) = MarketScenario.none ->
  RegimeScheduler.fakeBreakoutsOf scenario = [] ->
  RegimeScheduler.timeline (RegimeScheduler.schedule this scenario rand)
  = (if JS.Qltb 0 (MarketScenario.duration scenario)
     then [RegimeScheduler.rangingSegment 0 (MarketScenario.duration scenario)
             "Post-breakout ranging"]
     else [])
  /\ RegimeScheduler.getCurrentRegime
       (RegimeScheduler.schedule this scenario rand) t
     = {| RegimeScheduler.regime := ("N", "O")%string;
          RegimeScheduler.sign := RegimeScheduler.F;
          RegimeScheduler.targetPrice := None |}
  /\ RegimeScheduler.isInBreakout
       (RegimeScheduler.schedule this scenario rand) t = false.
Proof.
  intros Hnone Hfakes.
  assert (Htl : RegimeScheduler.timeline
                  (RegimeScheduler.schedule this scenario rand)
                = (if JS.Qltb 0 (MarketScenario.duration scenario)
                   then [RegimeScheduler.rangingSegment 0
                           (MarketScenario.duration scenario)
                           "Post-breakout ranging"]
                   else [])).
  { rewrite schedule_timeline. cbv zeta.
    unfold RegimeScheduler.allEvents, RegimeScheduler.mainEvent.
    rewrite Hfakes. destruct (decide _) as [_|Hsome]; [|contradiction].
    reflexivity. }
  split; [exact Htl|].
  assert (Hreg : RegimeScheduler.getCurrentRegime
                   (RegimeScheduler.schedule this scenario rand) t
                 = {| RegimeScheduler.regime := ("N", "O")%string;
                      RegimeScheduler.sign := RegimeScheduler.F;
                      RegimeScheduler.targetPrice := None |}).
  { unfold RegimeScheduler.getCurrentRegime. rewrite Htl.
    destruct (JS.Qltb 0 (MarketScenario.duration scenario)); simpl;
      [|reflexivity].
    destruct (RegimeScheduler.contains _ t); reflexivity. }
  split; [exact Hreg|].
  unfold RegimeScheduler.isInBreakout. rewrite Hreg. reflexivity.
Qed.

(** X8, instance: the ranging preset, looked up well past its 60 seconds. *)
Lemma ranging_scenario_is_flat_witness :
  RegimeScheduler.isInBreakout
    (RegimeScheduler.schedule RegimeScheduler.new
       MarketScenario.createRangingScenario (Examples.constRand 0)) 3600
  = false.
Proof.
  apply (ranging_scenario_is_flat RegimeScheduler.new
           MarketScenario.createRangingScenario (Examples.constRand 0) 3600);
    reflexivity.
Defined.

(** ** The factory presets *)

Lemma separated_partitions this scenario rand :
  Timeline.separated 0 (MarketScenario.duration scenario)
    (RegimeScheduler.sortEvents (RegimeScheduler.allEvents scenario rand)) ->
  Timeline.partitions (MarketScenario.duration scenario)
    (RegimeScheduler.timeline (RegimeScheduler.schedule this scenario rand)).
Proof.
  intros Hsep.
  destruct (schedule_chain this scenario rand Hsep) as [[Hnil Hdur]|Hchain].
  - rewrite Hnil. split; [exact I|]. split.
    + intros i j si sj t Hi. rewrite lookup_nil in Hi. discriminate.
    + intros t. split; [intros (segment & [] & _) | intros [H1 H2]; lra].
  - split; [|split].
    + eapply chain_contiguous; exact Hchain.
    + eapply chain_nonOverlapping; exact Hchain.
    + eapply chain_union; exact Hchain.
Qed.

(** X9.  For each of the four factory presets (bullish, bearish,
    fake-then-real, ranging) and for every pair of uniform draws, the
    scheduled timeline is contiguous from 0, non-overlapping, and covers
    exactly [[0, duration)]. *)
Theorem presets_partition (this : RegimeScheduler.t) (rand : nat -> Q) :
  0 <= rand 0%nat < 1 -> 0 <= rand 1%nat < 1 ->
  Forall (fun scenario =>
            Timeline.partitions (MarketScenario.duration scenario)
              (RegimeScheduler.timeline
                 (RegimeScheduler.schedule this scenario rand)))
    [MarketScenario.createBullishBreakout;
     MarketScenario.createBearishBreakout;
     MarketScenario.createFakeBreakoutScenario;
     MarketScenario.createRangingScenario].
Proof.
  intros Hu0 Hu1.
  constructor; [|constructor; [|constructor; [|constructor; [|constructor]]]];
    apply separated_partitions.
  - apply separated_single_breakout; try assumption; eval_Q.
  - apply separated_single_breakout; try assumption; eval_Q.
  - apply separated_fake_preset; assumption.
  - exact I.
Qed.

(** X9, instance: both draws at 3/4. *)
Lemma presets_partition_witness :
  0 <= Examples.constRand (3 # 4) 0%nat < 1
  /\ Timeline.partitions
       (MarketScenario.duration MarketScenario.createFakeBreakoutScenario)
       (RegimeScheduler.timeline
          (RegimeScheduler.schedule RegimeScheduler.new
             MarketScenario.createFakeBreakoutScenario
             (Examples.constRand (3 # 4)))).
Proof.
  assert (Hu : 0 <= Examples.constRand (3 # 4) 0%nat < 1) by eval_Q.
  split; [exact Hu|].
  pose proof (presets_partition RegimeScheduler.new
                (Examples.constRand (3 # 4)) Hu Hu) as Hall.
  rewrite Forall_forall in Hall. apply Hall.
  apply list_elem_of_In. right. right. left. reflexivity.
Defined.

(** ** BreakoutNotifier: listeners *)

Section Listeners.

Import BreakoutNotifier.

Lemma removeFirst_snoc callback callbacks :
  ~ In callback callbacks ->
  removeFirst callback (callbacks ++ [callback]) = callbacks.
Proof.
  induction callbacks as [|c rest IH]; simpl; intros Hnot.
  - destruct (decide (callback = callback)); [reflexivity | contradiction].
  - destruct (decide (c = callback)) as [->|_].
    + exfalso. apply Hnot. left. reflexivity.
    + rewrite IH; [reflexivity|]. intros Hin. apply Hnot. right. exact Hin.
Qed.

Lemma receivers_lookup this event :
  receivers this event
  = default [] (listeners this !! BreakoutEvent.type event).
Proof.
  unfold receivers, emit.
  destruct (listeners this !! BreakoutEvent.type event) as [callbacks|];
    [|reflexivity].
  simpl. induction callbacks as [|c rest IH]; simpl; [reflexivity|].
  rewrite IH. reflexivity.
Qed.

Lemma emit_receivers this this' event :
  receivers this event = receivers this' event ->
  emit this event = emit this' event.
Proof.
  rewrite !receivers_lookup. unfold emit.
  destruct (listeners this !! BreakoutEvent.type event);
    destruct (listeners this' !! BreakoutEvent.type event);
    simpl; intros H; subst; reflexivity.
Qed.

Lemma receivers_on this ty callback event :
  receivers (on this ty callback) event
  = if decide (ty = BreakoutEvent.type event)
    then receivers this event ++ [callback]
    else receivers this event.
Proof.
  rewrite !receivers_lookup. unfold on. simpl.
  destruct (decide (ty = BreakoutEvent.type event)) as [<-|Hne].
  - rewrite lookup_insert_eq. reflexivity.
  - rewrite lookup_insert_ne by exact Hne. reflexivity.
Qed.

Lemma receivers_off this ty callback event :
  receivers (off this ty callback) event
  = if decide (ty = BreakoutEvent.type event)
    then removeFirst callback (receivers this event)
    else receivers this event.
Proof.
  rewrite !receivers_lookup. unfold off.
  destruct (listeners this !! ty) as [callbacks|] eqn:Hty.
  - simpl. destruct (decide (ty = BreakoutEvent.type event)) as [<-|Hne].
    + rewrite lookup_insert_eq, Hty. reflexivity.
    + rewrite lookup_insert_ne by exact Hne. reflexivity.
  - destruct (decide (ty = BreakoutEvent.type event)) as [<-|Hne];
      [rewrite Hty|]; reflexivity.
Qed.

End Listeners.

(** X10.  Subscribing a callback that is not yet registered for an event
    type and unsubscribing it again leaves every delivery as it was: each
    event, of any type, reaches the same callbacks in the same order, and the
    notifier's breakout state and throttle times are untouched. *)
Theorem on_off_round_trip
    (this : BreakoutNotifier.t) (ty : BreakoutNotifier.BreakoutEventType)
    (callback : BreakoutNotifier.EventCallback)
    (event : BreakoutNotifier.BreakoutEvent.t) :
  ~ In callback (default [] (BreakoutNotifier.listeners this !! ty)) ->
  let after := BreakoutNotifier.off (BreakoutNotifier.on this ty callback)
                 ty callback in
  BreakoutNotifier.emit after event = BreakoutNotifier.emit this event
  /\ BreakoutNotifier.breakoutInProgress after
     = BreakoutNotifier.breakoutInProgress this
  /\ BreakoutNotifier.lastWarningTime after
     = BreakoutNotifier.lastWarningTime this
  /\ BreakoutNotifier.lastProgressTime after
     = BreakoutNotifier.lastProgressTime this
  /\ BreakoutNotifier.breakoutStartPrice after
     = BreakoutNotifier.breakoutStartPrice this.
Proof.
  intros Hfresh after. split.
  - apply emit_receivers. subst after.
    rewrite receivers_off, receivers_on.
    destruct (decide (ty = BreakoutNotifier.BreakoutEvent.type event))
      as [Heq|Hne]; [|reflexivity].
    apply removeFirst_snoc. rewrite receivers_lookup, <- Heq. exact Hfresh.
  - subst after. unfold BreakoutNotifier.off, BreakoutNotifier.on. simpl.
    rewrite lookup_insert_eq. simpl. repeat split.
Qed.

(** X10, instance: callback 9 subscribed to and unsubscribed from start
    events next to callback 7. *)
Lemma on_off_round_trip_witness :
  ~ In 9%nat
      (default []
         (BreakoutNotifier.listeners Examples.oneListener
            !! BreakoutNotifier.start))
  /\ BreakoutNotifier.emit
       (BreakoutNotifier.off
          (BreakoutNotifier.on Examples.oneListener BreakoutNotifier.start
             9%nat)
          BreakoutNotifier.start 9%nat) Examples.startEvent
     = BreakoutNotifier.emit Examples.oneListener Examples.startEvent.
Proof.
  assert (Hfresh : ~ In 9%nat
                     (default []
                        (BreakoutNotifier.listeners Examples.oneListener
                           !! BreakoutNotifier.start))).
  { vm_compute. intros [H|[]]. discriminate H. }
  split; [exact Hfresh|].
  exact (proj1 (on_off_round_trip Examples.oneListener BreakoutNotifier.start
                  9%nat Examples.startEvent Hfresh)).
Defined.

(** X11.  [off] removes one registration only, the earliest: the callbacks
    an event of that type reaches afterwards are those it reached before
    with the first occurrence of the callback taken out, in the same order,
    so a callback registered twice is still called once; events of the other
    types reach the same callbacks as before. *)
Theorem off_removes_first_registration
    (this : BreakoutNotifier.t) (ty : BreakoutNotifier.BreakoutEventType)
    (callback : BreakoutNotifier.EventCallback)
    (event : BreakoutNotifier.BreakoutEvent.t) :
  (BreakoutNotifier.BreakoutEvent.type event = ty ->
   BreakoutNotifier.receivers (BreakoutNotifier.off this ty callback) event
   = BreakoutNotifier.removeFirst callback
       (BreakoutNotifier.receivers this event))
  /\ (BreakoutNotifier.BreakoutEvent.type event <> ty ->
      BreakoutNotifier.receivers (BreakoutNotifier.off this ty callback) event
      = BreakoutNotifier.receivers this event)
  /\ (BreakoutNotifier.BreakoutEvent.type event = ty ->
      In callback
        (BreakoutNotifier.receivers
           (BreakoutNotifier.off
              (BreakoutNotifier.on (BreakoutNotifier.on this ty callback)
                 ty callback) ty callback) event)).
Proof.
  split; [|split].
  - intros <-. rewrite receivers_off.
    destruct (decide _) as [_|Hne]; [reflexivity | contradiction].
  - intros Hne. rewrite receivers_off.
    destruct (decide _) as [Heq|_]; [|reflexivity].
    exfalso. apply Hne. symmetry. exact Heq.
  - intros <-. rewrite receivers_off, !receivers_on.
    destruct (decide _) as [_|Hne]; [|contradiction].
    induction (BreakoutNotifier.receivers this event) as [|c rest IH]; simpl.
    + destruct (decide (callback = callback)); [|contradiction].
      left. reflexivity.
    + destruct (decide (c = callback)) as [->|_].
      * apply in_or_app. right. left. reflexivity.
      * right. exact IH.
Qed.

(** X11, instance: callback 7 registered twice for start events and
    unsubscribed once is still reached, once. *)
Lemma off_removes_first_registration_witness :
  BreakoutNotifier.BreakoutEvent.type Examples.startEvent
  = BreakoutNotifier.start
  /\ BreakoutNotifier.receivers
       (BreakoutNotifier.off Examples.twiceSubscribed BreakoutNotifier.start
          7%nat) Examples.startEvent
     = BreakoutNotifier.removeFirst 7%nat
         (BreakoutNotifier.receivers Examples.twiceSubscribed
            Examples.startEvent).
Proof.
  split; [reflexivity|].
  apply (proj1 (off_removes_first_registration Examples.twiceSubscribed
                  BreakoutNotifier.start 7%nat Examples.startEvent)).
  reflexivity.
Defined.

(** X12.  After [onAny], the callback receives every event, whatever its
    type, after the callbacks that were registered before it. *)
Theorem onAny_receives_everything
    (this : BreakoutNotifier.t) (callback : BreakoutNotifier.EventCallback)
    (event : BreakoutNotifier.BreakoutEvent.t) :
  BreakoutNotifier.receivers (BreakoutNotifier.onAny this callback) event
  = BreakoutNotifier.receivers this event ++ [callback].
Proof.
  unfold BreakoutNotifier.onAny. simpl.
  rewrite !receivers_on.
  destruct (BreakoutNotifier.BreakoutEvent.type event) eqn:Hty;
    repeat (destruct (decide _) as [Heq|Hne];
            [try discriminate Heq | try (exfalso; apply Hne; reflexivity)]);
    reflexivity.
Qed.

(** ** BreakoutNotifier: throttling and event payloads *)

Section Throttle.

Import BreakoutNotifier.

Lemma emit_event this event delivery :
  In delivery (emit this event) -> snd delivery = event.
Proof.
  unfold emit. destruct (listeners this !! BreakoutEvent.type event)
    as [callbacks|]; [|intros []].
  intros Hin. apply in_map_iff in Hin as (callback & <- & _). reflexivity.
Qed.

(** Only [scheduleWarning] and [reset] move the time of the last warning. *)
Lemma step_keeps_lastWarningTime this call :
  isWarningCall call = false -> isResetCall call = false ->
  lastWarningTime (fst (step this call)) = lastWarningTime this.
Proof.
  intros Hw Hr. destruct call; simpl in *; try discriminate; try reflexivity.
  - unfold off. destruct (listeners this !! eventType); reflexivity.
  - unfold notifyBreakoutStart. destruct (breakoutInProgress this); reflexivity.
  - unfold notifyProgress. destruct (negb _); [reflexivity|].
    destruct (JS.Qltb _ _); reflexivity.
  - unfold notifyBreakoutCompletion. destruct (negb _); reflexivity.
Qed.

Lemma run_keeps_lastWarningTime calls : forall this,
  forallb (fun call => negb (isWarningCall call || isResetCall call)) calls
  = true ->
  lastWarningTime (fst (run this calls)) = lastWarningTime this.
Proof.
  induction calls as [|call rest IH]; simpl; intros this Hall.
  - reflexivity.
  - apply andb_true_iff in Hall as [Hcall Hrest].
    apply negb_true_iff, orb_false_iff in Hcall as [Hw Hr].
    pose proof (step_keeps_lastWarningTime this call Hw Hr) as Hstep.
    destruct (step this call) as [this' out]. simpl in Hstep.
    specialize (IH this' Hrest).
    destruct (run this' rest) as [final outs]. simpl in *. congruence.
Qed.

End Throttle.

(** X13.  After a [scheduleWarning] call that fires (the breakout lies
    within the lead time and at least one second has passed since the last
    warning), every later [scheduleWarning] call whose clock reading is less
    than one second after it delivers nothing and changes nothing, whatever
    its arguments, as long as no [reset] and no other [scheduleWarning] came
    in between. *)
Theorem warning_throttled_for_one_second
    (this : BreakoutNotifier.t) (between : list BreakoutNotifier.Call)
    (ty1 ty2 : MarketScenario.BreakoutType)
    (bt1 ct1 lead1 mag1 now1 bt2 ct2 lead2 mag2 now2 : Q) :
  0 < bt1 - ct1 -> bt1 - ct1 <= lead1 ->
  1 <= now1 - BreakoutNotifier.lastWarningTime this ->
  forallb (fun call =>
             negb (BreakoutNotifier.isWarningCall call
                   || BreakoutNotifier.isResetCall call)) between = true ->
  now2 - now1 < 1 ->
  let state :=
    fst (BreakoutNotifier.run this
           (BreakoutNotifier.CallScheduleWarning bt1 ct1 lead1 ty1 mag1 now1
            :: between)) in
  BreakoutNotifier.step state
    (BreakoutNotifier.CallScheduleWarning bt2 ct2 lead2 ty2 mag2 now2)
  = (state, []).
Proof.
  intros Hpos Hlead Hfree Hbetween Hsoon state.
  assert (Hlast : BreakoutNotifier.lastWarningTime state = now1).
  { subst state. simpl.
    unfold BreakoutNotifier.scheduleWarning.
    apply Qltb_lt in Hpos. apply Qle_bool_iff in Hlead.
    rewrite Hpos, Hlead. simpl.
    assert (Hthr : JS.Qltb (now1 - BreakoutNotifier.lastWarningTime this) 1.0
                   = false) by (apply Qltb_ge; lra).
    rewrite Hthr.
    match goal with
    | |- context [BreakoutNotifier.run ?s between] =>
        pose proof (run_keeps_lastWarningTime between s Hbetween) as Hrun;
        destruct (BreakoutNotifier.run s between) as [final outs]
    end.
    simpl in *. exact Hrun. }
  simpl. unfold BreakoutNotifier.scheduleWarning.
  destruct (_ && _); [|reflexivity].
  assert (Hthr : JS.Qltb (now2 - BreakoutNotifier.lastWarningTime state) 1.0
                 = true) by (apply Qltb_lt; rewrite Hlast; lra).
  rewrite Hthr. reflexivity.
Qed.

(** X13, instance: a warning at clock 10 for a breakout 3 seconds away; a
    second request at clock 10.5 is dropped. *)
Lemma warning_throttled_for_one_second_witness :
  let this :=
    BreakoutNotifier.on BreakoutNotifier.new BreakoutNotifier.warning 7%nat in
  let between :=
    [BreakoutNotifier.CallNotifyBreakoutStart MarketScenario.bullish
       100 101 1 15 (41 # 4)] in
  let state :=
    fst (BreakoutNotifier.run this
           (BreakoutNotifier.CallScheduleWarning 30 27 5
              MarketScenario.bullish 1 10 :: between)) in
  map fst
    (snd (BreakoutNotifier.step this
            (BreakoutNotifier.CallScheduleWarning 30 27 5
               MarketScenario.bullish 1 10)))
  = [7%nat]
  /\ BreakoutNotifier.step state
       (BreakoutNotifier.CallScheduleWarning 30 (55 # 2) 5
          MarketScenario.bullish 1 (21 # 2))
     = (state, []).
Proof.
  intros this between state. split; [reflexivity|].
  apply (warning_throttled_for_one_second this between
           MarketScenario.bullish MarketScenario.bullish
           30 27 5 1 10 30 (55 # 2) 5 1 (21 # 2)); eval_Q.
Defined.

(** X14.  What the notifier delivers is well formed.  A progress event is
    delivered only while a breakout is in progress and carries a progress
    value between 0 and 1; a completion event is delivered only by the call
    that ends a breakout in progress and carries progress 1; a warning event
    carries a strictly positive time to breakout that does not exceed the
    lead time asked for. *)
Theorem deliveries_well_formed
    (this : BreakoutNotifier.t) (call : BreakoutNotifier.Call)
    (delivery : BreakoutNotifier.Delivery) :
  In delivery (snd (BreakoutNotifier.step this call)) ->
  match BreakoutNotifier.BreakoutEvent.type (snd delivery) with
  | BreakoutNotifier.progress =>
      BreakoutNotifier.breakoutInProgress this = true
      /\ exists p,
           BreakoutNotifier.BreakoutEvent.progress (snd delivery) = Some p
           /\ 0 <= p <= 1
  | BreakoutNotifier.completion =>
      BreakoutNotifier.breakoutInProgress this = true
      /\ BreakoutNotifier.breakoutInProgress
           (fst (BreakoutNotifier.step this call)) = false
      /\ BreakoutNotifier.BreakoutEvent.progress (snd delivery) = Some 1.0
  | BreakoutNotifier.warning =>
      exists timeToBreakout lead,
        BreakoutNotifier.BreakoutEvent.timeToBreakout (snd delivery)
        = Some timeToBreakout
        /\ BreakoutNotifier.isWarningCall call = true
        /\ 0 < timeToBreakout <= lead
        /\ match call with
           | BreakoutNotifier.CallScheduleWarning _ _ warningLead _ _ _ =>
               lead = warningLead
           | _ => False
           end
  | BreakoutNotifier.start =>
      BreakoutNotifier.breakoutInProgress this = false
  end.
Proof.
  intros Hin. destruct call; simpl in Hin; try contradiction.
  - unfold BreakoutNotifier.scheduleWarning in Hin.
    destruct (JS.Qltb 0 (breakoutTime - currentTime)) eqn:Hpos;
      [|contradiction].
    destruct (Qle_bool (breakoutTime - currentTime) warningLead) eqn:Hlead;
      [|contradiction].
    simpl in Hin.
    destruct (JS.Qltb (now - BreakoutNotifier.lastWarningTime this) 1.0);
      simpl in Hin; [contradiction|].
    apply emit_event in Hin. rewrite Hin. simpl.
    exists (breakoutTime - currentTime), warningLead.
    apply Qltb_lt in Hpos. apply Qle_bool_iff in Hlead.
    repeat split; assumption.
  - unfold BreakoutNotifier.notifyBreakoutStart in Hin.
    destruct (BreakoutNotifier.breakoutInProgress this) eqn:Hflag;
      [contradiction|].
    apply emit_event in Hin. rewrite Hin. simpl. reflexivity.
  - unfold BreakoutNotifier.notifyProgress in Hin.
    destruct (BreakoutNotifier.breakoutInProgress this) eqn:Hflag;
      [|contradiction].
    simpl in Hin. destruct (JS.Qltb _ _); simpl in Hin; [contradiction|].
    apply emit_event in Hin. rewrite Hin. simpl.
    split; [reflexivity|]. eexists. split; [reflexivity|].
    destruct (negb _); [|lra].
    match goal with
    | |- 0 <= Qmax 0 (Qmin 1 ?x) <= 1 =>
        destruct (Qmin_cases 1 x) as [[? Hm]|[? Hm]];
        destruct (Qmax_cases 0 (Qmin 1 x)) as [[? HM]|[? HM]];
        rewrite ?HM, ?Hm in *; lra
    end.
  - simpl. unfold BreakoutNotifier.notifyBreakoutCompletion in Hin |- *.
    destruct (BreakoutNotifier.breakoutInProgress this) eqn:Hflag;
      [|contradiction].
    simpl in Hin. apply emit_event in Hin. rewrite Hin. simpl.
    repeat split.
Qed.

(** X14, instance: a progress report half-way past the target; the value
    delivered is clamped into [[0, 1]]. *)
Lemma deliveries_well_formed_witness :
  let this :=
    fst (BreakoutNotifier.run BreakoutNotifier.new
           [BreakoutNotifier.CallOn BreakoutNotifier.progress 7%nat;
            BreakoutNotifier.CallNotifyBreakoutStart MarketScenario.bullish
              100 101 1 15 10]) in
  let call :=
    BreakoutNotifier.CallNotifyProgress MarketScenario.bullish (203 # 2) 101 1
      12 in
  exists delivery,
    In delivery (snd (BreakoutNotifier.step this call))
    /\ BreakoutNotifier.breakoutInProgress this = true
    /\ exists p,
         BreakoutNotifier.BreakoutEvent.progress (snd delivery) = Some p
         /\ 0 <= p <= 1.
Proof.
  intros this call.
  eexists. split; [left; reflexivity|].
  exact (deliveries_well_formed this call _
           (or_introl eq_refl
              : In _ (snd (BreakoutNotifier.step this call)))).
Defined.

Section Silence.

Import BreakoutNotifier.

(** Without a subscription an empty listener table stays empty. *)
Lemma step_keeps_no_listeners this call :
  listeners this = ∅ -> isSubscribeCall call = false ->
  listeners (fst (step this call)) = ∅ /\ snd (step this call) = [].
Proof.
  intros Hempty Hsub.
  assert (Hemit : forall s event, listeners s = ∅ -> emit s event = []).
  { intros s event Hs. unfold emit. rewrite Hs, lookup_empty. reflexivity. }
  destruct call; simpl in *; try discriminate; try (split; [assumption|reflexivity]).
  - unfold off. rewrite Hempty, lookup_empty. split; [assumption|reflexivity].
  - unfold scheduleWarning.
    destruct (_ && _); [|split; [assumption|reflexivity]].
    destruct (JS.Qltb _ _); [split; [assumption|reflexivity]|].
    simpl. split; [assumption|]. apply Hemit. assumption.
  - unfold notifyBreakoutStart.
    destruct (breakoutInProgress this); [split; [assumption|reflexivity]|].
    simpl. split; [assumption|]. apply Hemit. assumption.
  - unfold notifyProgress.
    destruct (negb _); [split; [assumption|reflexivity]|].
    destruct (JS.Qltb _ _); [split; [assumption|reflexivity]|].
    simpl. split; [assumption|]. apply Hemit. assumption.
  - unfold notifyBreakoutCompletion.
    destruct (negb _); [split; [assumption|reflexivity]|].
    simpl. split; [assumption|]. apply Hemit. assumption.
  - split; reflexivity.
Qed.

Lemma run_keeps_no_listeners calls : forall this,
  listeners this = ∅ ->
  forallb (fun call => negb (isSubscribeCall call)) calls = true ->
  snd (run this calls) = [].
Proof.
  induction calls as [|call rest IH]; simpl; intros this Hempty Hall.
  - reflexivity.
  - apply andb_true_iff in Hall as [Hcall Hrest].
    apply negb_true_iff in Hcall.
    destruct (step_keeps_no_listeners this call Hempty Hcall) as [Hl Hout].
    destruct (step this call) as [this' out]. simpl in Hl, Hout.
    specialize (IH this' Hl Hrest).
    destruct (run this' rest) as [final outs]. simpl in *. subst. reflexivity.
Qed.

End Silence.

(** X15.  [clearListeners] silences the notifier without touching its
    breakout state: the in-progress flag and the throttle times stay as they
    were, and no later call delivers anything until a callback is subscribed
    again with [on] or [onAny]. *)
Theorem clearListeners_silences
    (this : BreakoutNotifier.t) (calls : list BreakoutNotifier.Call) :
  forallb (fun call => negb (BreakoutNotifier.isSubscribeCall call)) calls
  = true ->
  snd (BreakoutNotifier.run (BreakoutNotifier.clearListeners this) calls) = []
  /\ BreakoutNotifier.breakoutInProgress (BreakoutNotifier.clearListeners this)
     = BreakoutNotifier.breakoutInProgress this
  /\ BreakoutNotifier.lastWarningTime (BreakoutNotifier.clearListeners this)
     = BreakoutNotifier.lastWarningTime this
  /\ BreakoutNotifier.lastProgressTime (BreakoutNotifier.clearListeners this)
     = BreakoutNotifier.lastProgressTime this.
Proof.
  intros Hall. split; [|repeat split].
  apply run_keeps_no_listeners; [reflexivity | exact Hall].
Qed.

(** X15, instance: a listener, cleared, then a start and a completion. *)
Lemma clearListeners_silences_witness :
  snd (BreakoutNotifier.run
         (BreakoutNotifier.clearListeners
            (BreakoutNotifier.onAny BreakoutNotifier.new 7%nat))
         [BreakoutNotifier.CallNotifyBreakoutStart MarketScenario.bullish
            100 101 1 15 10;
          BreakoutNotifier.CallNotifyBreakoutCompletion MarketScenario.bullish
            101 101 1 20])
  = [].
Proof.
  apply (clearListeners_silences
           (BreakoutNotifier.onAny BreakoutNotifier.new 7%nat)).
  reflexivity.
Defined.

(** ** QuoteModel: rates and sampling *)

Lemma Qdiv_le_self (n s : Q) : 0 <= n -> 1 <= s -> 0 <= n / s <= n.
Proof.
  intros Hn Hs. split.
  - apply Qdiv_nonneg; lra.
  - apply Qle_shift_div_r; [lra|]. nra.
Qed.

(** X16.  The update rate of a regime never divides by zero and never
    exceeds the tick count: a regime absent from the tick table has rate 0;
    for a non-negative tick count [n] the rate lies between 0 and [n]; it is
    [n / s] for a recorded number of seconds [s >= 1], and [n] itself when
    the seconds are missing, zero or below 1. *)
Theorem lambda_bounds (this : QuoteModel.t) (regime : RegimeScheduler.Regime) :
  let key := QuoteModel.regimeKey regime in
  (QuoteModel.ticksPerRegime this !! key = None ->
   QuoteModel.lambda this regime == 0)
  /\ (forall n, QuoteModel.ticksPerRegime this !! key = Some n -> 0 <= n ->
      0 <= QuoteModel.lambda this regime <= n)
  /\ (forall n s,
        QuoteModel.ticksPerRegime this !! key = Some n ->
        QuoteModel.secondsPerRegime this !! key = Some s -> 1 <= s ->
        QuoteModel.lambda this regime == n / s)
  /\ (forall n,
        QuoteModel.ticksPerRegime this !! key = Some n ->
        (QuoteModel.secondsPerRegime this !! key = None
         \/ exists s, QuoteModel.secondsPerRegime this !! key = Some s
                      /\ s <= 1) ->
        QuoteModel.lambda this regime == n).
Proof.
  intros key. unfold QuoteModel.lambda. fold key.
  set (secs := Qmax 1 (QuoteModel.orElse
                         (QuoteModel.secondsPerRegime this !! key) 1)).
  assert (Hsecs : 1 <= secs).
  { subst secs. destruct (Qmax_cases 1 (QuoteModel.orElse
                  (QuoteModel.secondsPerRegime this !! key) 1))
      as [[_ ->]|[H ->]]; lra. }
  assert (Hor : forall n, QuoteModel.orElse (Some n) 0 == n).
  { intros n. unfold QuoteModel.orElse.
    destruct (Qeq_bool n 0) eqn:Hz; [|reflexivity].
    apply Qeq_bool_iff in Hz. rewrite Hz. reflexivity. }
  split; [|split; [|split]].
  - intros ->. simpl. unfold Qdiv. lra.
  - intros n -> Hn.
    assert (H := Qdiv_le_self (QuoteModel.orElse (Some n) 0) secs).
    rewrite (Hor n) in H. rewrite (Hor n). apply H; assumption.
  - intros n s -> Hs H1. rewrite (Hor n).
    assert (Heq : secs == s).
    { subst secs. rewrite Hs. unfold QuoteModel.orElse.
      destruct (Qeq_bool s 0) eqn:Hz;
        [apply Qeq_bool_iff in Hz; lra|].
      apply Q.max_r. exact H1. }
    rewrite Heq. reflexivity.
  - intros n -> Hs. rewrite (Hor n).
    assert (Heq : secs == 1).
    { subst secs. destruct Hs as [->|(s & -> & Hs)].
      - reflexivity.
      - unfold QuoteModel.orElse.
        destruct (Qeq_bool s 0); [reflexivity|].
        apply Q.max_l. exact Hs. }
    rewrite Heq. field.
Qed.

(** X16, instance: the two-bin model records 3 ticks over 2 seconds for the
    ranging regime: rate 3/2. *)
Lemma lambda_bounds_witness :
  QuoteModel.lambda Examples.twoBinModel ("N", "O")%string == 3 / 2
  /\ QuoteModel.lambda Examples.emptyBucketModel ("N", "O")%string == 0.
Proof.
  split.
  - destruct (lambda_bounds Examples.twoBinModel ("N", "O")%string)
      as (_ & _ & Hrate & _).
    apply (Hrate 3 2); [reflexivity | reflexivity | eval_Q].
  - destruct (lambda_bounds Examples.emptyBucketModel ("N", "O")%string)
      as (Hnone & _).
    apply Hnone. reflexivity.
Defined.

Section Selection.

Import QuoteModel.

Lemma fold_weight_shift entries : forall acc,
  fold_left (fun sum (e : Bin * Q) => sum + snd e) entries acc
  == acc + totalWeight entries.
Proof.
  unfold totalWeight.
  induction entries as [|e rest IH]; simpl; intros acc.
  - lra.
  - rewrite (IH (acc + snd e)), (IH (0 + snd e)). lra.
Qed.

Lemma totalWeight_cons e rest :
  totalWeight (e :: rest) == snd e + totalWeight rest.
Proof.
  unfold totalWeight at 1. simpl. rewrite fold_weight_shift. lra.
Qed.

Lemma totalWeight_app pre post :
  totalWeight (pre ++ post) == totalWeight pre + totalWeight post.
Proof.
  induction pre as [|e rest IH]; simpl.
  - unfold totalWeight at 2. simpl. lra.
  - rewrite !totalWeight_cons, IH. lra.
Qed.

Lemma selectBin_compat entries : forall r r',
  r == r' -> selectBin entries r = selectBin entries r'.
Proof.
  induction entries as [|[bin w] rest IH]; simpl; intros r r' Heq.
  - reflexivity.
  - assert (Hle : Qle_bool (r - w) 0 = Qle_bool (r' - w) 0).
    { destruct (Qle_bool (r - w) 0) eqn:H1;
        destruct (Qle_bool (r' - w) 0) eqn:H2; try reflexivity.
      - apply Qle_bool_iff in H1. apply Qle_bool_false in H2. lra.
      - apply Qle_bool_iff in H2. apply Qle_bool_false in H1. lra. }
    rewrite Hle. destruct (Qle_bool (r' - w) 0); [reflexivity|].
    apply IH. rewrite Heq. reflexivity.
Qed.

(** The loop always draws a bin when the scaled draw does not exceed the
    total weight. *)
Lemma selectBin_total entries : forall r,
  entries <> [] -> r <= totalWeight entries ->
  exists bin w, In (bin, w) entries /\ selectBin entries r = Some (decode bin).
Proof.
  induction entries as [|[bin w] rest IH]; intros r Hne Hr; [contradiction|].
  simpl. rewrite totalWeight_cons in Hr. simpl in Hr.
  case_Qle (r - w) 0.
  - exists bin, w. split; [left; reflexivity | reflexivity].
  - destruct rest as [|e rest'].
    + unfold totalWeight in Hr. simpl in Hr. lra.
    + destruct (IH (r - w)) as (bin' & w' & Hin & Hsel); [discriminate | lra |].
      exists bin', w'. split; [right; exact Hin | exact Hsel].
Qed.

(** The loop skips a prefix of non-negative weights whose total is below
    the scaled draw. *)
Lemma selectBin_skip pre : forall r post,
  Forall (fun e : Bin * Q => 0 <= snd e) pre ->
  totalWeight pre < r ->
  selectBin (pre ++ post) r = selectBin post (r - totalWeight pre).
Proof.
  induction pre as [|[bin w] rest IH]; simpl; intros r post Hall Hr.
  - apply selectBin_compat. unfold totalWeight. simpl. lra.
  - apply Forall_cons in Hall as [Hw Hrest]. simpl in Hw.
    rewrite totalWeight_cons in Hr. simpl in Hr.
    assert (Hrest_nonneg : 0 <= totalWeight rest).
    { clear - Hrest. induction rest as [|e r IH].
      - unfold totalWeight. simpl. lra.
      - apply Forall_cons in Hrest as [He Hr]. rewrite totalWeight_cons.
        specialize (IH Hr). lra. }
    case_Qle (r - w) 0; [lra|].
    rewrite IH by (assumption || lra).
    apply selectBin_compat. rewrite totalWeight_cons. simpl. lra.
Qed.

Lemma sampleTick_nonempty this regime sign (u : Q) entries :
  transition this !! transitionKey regime sign = Some entries ->
  entries <> [] ->
  sampleTick this regime sign u
  = default fallback (selectBin entries (u * totalWeight entries)).
Proof.
  intros Hbucket Hne. unfold sampleTick. rewrite Hbucket.
  destruct entries; [contradiction | reflexivity].
Qed.

End Selection.

(** X17.  [sampleTick] draws the bin whose share of the cumulative weight
    contains the scaled draw: if the bins before it have non-negative
    weights of total [S], its weight is [w], and [S < u * total <= S + w]
    (or [u * total <= w] for the first bin), the tick returned is that bin
    decoded: delta bucket times 0.005, spread bucket times 0.01, size bucket
    times 100. *)
Theorem sampleTick_selects_by_weight
    (this : QuoteModel.t) (regime : RegimeScheduler.Regime)
    (sign : RegimeScheduler.Sign) (u : Q)
    (pre post : list (QuoteModel.Bin * Q)) (bin : QuoteModel.Bin) (w : Q) :
  QuoteModel.transition this !! QuoteModel.transitionKey regime sign
  = Some (pre ++ (bin, w) :: post) ->
  Forall (fun e : QuoteModel.Bin * Q => 0 <= snd e) pre ->
  pre = [] \/ QuoteModel.totalWeight pre
              < u * QuoteModel.totalWeight (pre ++ (bin, w) :: post) ->
  u * QuoteModel.totalWeight (pre ++ (bin, w) :: post)
  <= QuoteModel.totalWeight pre + w ->
  QuoteModel.sampleTick this regime sign u
  = {| QuoteModel.dp := QuoteModel.dpBin bin * 0.005;
       QuoteModel.spread := QuoteModel.spBin bin * 0.01;
       QuoteModel.size := QuoteModel.szBin bin * 100 |}.
Proof.
  intros Hbucket Hpre Hlow Hhigh.
  rewrite (sampleTick_nonempty _ _ _ _ _ Hbucket)
    by (destruct pre; discriminate).
  set (r := u * QuoteModel.totalWeight (pre ++ (bin, w) :: post)) in *.
  assert (Hsel : QuoteModel.selectBin (pre ++ (bin, w) :: post) r
                 = Some (QuoteModel.decode bin)).
  { destruct Hlow as [->|Hlow].
    - simpl. assert (H0 : QuoteModel.totalWeight [] == 0) by reflexivity.
      assert (Hle : Qle_bool (r - w) 0 = true) by (apply Qle_bool_iff; lra).
      rewrite Hle. reflexivity.
    - rewrite selectBin_skip by assumption. simpl.
      assert (Hle : Qle_bool (r - QuoteModel.totalWeight pre - w) 0 = true)
        by (apply Qle_bool_iff; lra).
      rewrite Hle. reflexivity. }
  rewrite Hsel. reflexivity.
Qed.

(** X17, instance: in the two-bin model (weights 1 and 3) a draw of one half
    scales to 2 and lands in the second bin, whose share is (1, 4]. *)
Lemma sampleTick_selects_by_weight_witness :
  QuoteModel.sampleTick Examples.twoBinModel ("N", "O")%string
    RegimeScheduler.F (1 # 2)
  = {| QuoteModel.dp := 2 * 0.005;
       QuoteModel.spread := -3 * 0.01;
       QuoteModel.size := 5 * 100 |}.
Proof.
  apply (sampleTick_selects_by_weight Examples.twoBinModel ("N", "O")%string
           RegimeScheduler.F (1 # 2)
           [({| QuoteModel.dpBin := 0; QuoteModel.spBin := 2;
                QuoteModel.szBin := 1 |}, 1)]
           []
           {| QuoteModel.dpBin := 2; QuoteModel.spBin := -3;
              QuoteModel.szBin := 5 |} 3).
  - reflexivity.
  - constructor; [eval_Q | constructor].
  - right. eval_Q.
  - eval_Q.
Defined.

(** X18.  For a key whose bucket set is not empty and has a non-negative
    total weight, and a draw [u <= 1], [sampleTick] returns one of the
    bucket's bins decoded: the neutral fallback after the selection loop is
    never reached. *)
Theorem sampleTick_draws_from_bucket
    (this : QuoteModel.t) (regime : RegimeScheduler.Regime)
    (sign : RegimeScheduler.Sign) (u : Q)
    (entries : list (QuoteModel.Bin * Q)) :
  QuoteModel.transition this !! QuoteModel.transitionKey regime sign
  = Some entries ->
  entries <> [] -> 0 <= QuoteModel.totalWeight entries -> u <= 1 ->
  exists bin w,
    In (bin, w) entries
    /\ QuoteModel.sampleTick this regime sign u = QuoteModel.decode bin.
Proof.
  intros Hbucket Hne Htotal Hu.
  rewrite (sampleTick_nonempty _ _ _ _ _ Hbucket Hne).
  destruct (selectBin_total entries (u * QuoteModel.totalWeight entries))
    as (bin & w & Hin & Hsel).
  - exact Hne.
  - nra.
  - exists bin, w. split; [exact Hin|]. rewrite Hsel. reflexivity.
Qed.

(** X18, instance: the zero-weight model; its only bin is drawn although
    its weight is 0. *)
Lemma sampleTick_draws_from_bucket_witness :
  exists bin w,
    In (bin, w)
      [({| QuoteModel.dpBin := 0; QuoteModel.spBin := 2;
           QuoteModel.szBin := 1 |}, 0)]
    /\ QuoteModel.sampleTick Examples.zeroWeightModel ("N", "O")%string
         RegimeScheduler.F (1 # 2)
       = QuoteModel.decode bin.
Proof.
  apply (sampleTick_draws_from_bucket Examples.zeroWeightModel
           ("N", "O")%string RegimeScheduler.F (1 # 2)).
  - reflexivity.
  - discriminate.
  - eval_Q.
  - eval_Q.
Defined.

Lemma poissonLoop_spec (L : Q) (draws : nat -> Q) (k : nat) :
  forall fuel k0 (p : Q),
    p == Spec.productOfDraws draws k0 ->
    QuoteModel.poissonLoop L draws fuel k0 p = Some k
    <-> (k0 <= k < k0 + fuel)%nat
        /\ Spec.productOfDraws draws (S k) <= L
        /\ forall j, (k0 <= j < k)%nat -> L < Spec.productOfDraws draws (S j).
Proof.
  induction fuel as [|fuel IH]; intros k0 p Hp; cbn [QuoteModel.poissonLoop].
  - split; [discriminate | intros [H _]; lia].
  - assert (Hp' : p * draws k0 == Spec.productOfDraws draws (S k0))
      by (simpl; rewrite Hp; reflexivity).
    case_Qltb L (p * draws k0).
    + rewrite (IH (S k0) (p * draws k0) Hp'). rewrite Hp' in Hcmp. split.
      * intros (Hk & Hle & Hall). split; [lia|]. split; [exact Hle|].
        intros j Hj. destruct (decide (j = k0)) as [->|Hne];
          [exact Hcmp | apply Hall; lia].
      * intros (Hk & Hle & Hall). split; [|split; [exact Hle|]].
        -- destruct (decide (k = k0)) as [->|Hne]; [lra | lia].
        -- intros j Hj. apply Hall. lia.
    + rewrite Hp' in Hcmp. replace (S k0 - 1)%nat with k0 by lia. split.
      * intros [= <-]. split; [lia|]. split; [exact Hcmp|]. intros j Hj. lia.
      * intros (Hk & Hle & Hall). f_equal.
        destruct (decide (k = k0)) as [->|Hne]; [reflexivity|].
        exfalso. assert (Hlt := Hall k0 ltac:(lia)). lra.
Qed.

(** X19.  The Poisson sampler returns the number of draws whose running
    product stays above [L = exp(-lambda)]: it returns [k] exactly when the
    product of the first [k + 1] draws is the first to fall to [L] or below
    (and the loop was given more than [k] iterations).  In particular, when
    the first draw is already at or below [L], as for a regime of rate 0
    where [L = 1], it returns 0: no update. *)
Theorem poissonSample_counts_draws_above
    (L : Q) (draws : nat -> Q) (fuel k : nat) :
  (QuoteModel.poissonSample L draws fuel = Some k
   <-> (k < fuel)%nat
       /\ Spec.productOfDraws draws (S k) <= L
       /\ forall j, (j < k)%nat -> L < Spec.productOfDraws draws (S j))
  /\ ((0 < fuel)%nat -> draws 0%nat <= L ->
      QuoteModel.poissonSample L draws fuel = Some 0%nat).
Proof.
  assert (Hspec : forall k',
    QuoteModel.poissonSample L draws fuel = Some k'
    <-> (k' < fuel)%nat
        /\ Spec.productOfDraws draws (S k') <= L
        /\ forall j, (j < k')%nat -> L < Spec.productOfDraws draws (S j)).
  { intros k'. unfold QuoteModel.poissonSample.
    rewrite (poissonLoop_spec L draws k' fuel 0 1) by reflexivity.
    split; intros (Hk & Hle & Hall); (split; [lia|]);
      (split; [exact Hle|]); intros j Hj; apply Hall; lia. }
  split; [apply Hspec|].
  intros Hfuel Hdraw. apply Hspec. split; [exact Hfuel|]. split.
  - cbn [Spec.productOfDraws]. lra.
  - intros j Hj. lia.
Qed.

(** X19, instance: with [L = 1/4] and every draw at one half, the products
    1/2, 1/4 fall to [L] at the second draw: one update. *)
Lemma poissonSample_counts_draws_above_witness :
  QuoteModel.poissonSample (1 # 4) (Examples.constRand (1 # 2)) 10 = Some 1%nat
  /\ QuoteModel.poissonSample 1 (Examples.constRand (1 # 2)) 10 = Some 0%nat.
Proof.
  split.
  - apply (poissonSample_counts_draws_above (1 # 4)
             (Examples.constRand (1 # 2)) 10 1).
    split; [lia|]. split; [eval_Q|].
    intros j Hj. assert (j = 0%nat) as -> by lia. eval_Q.
  - apply (poissonSample_counts_draws_above 1
             (Examples.constRand (1 # 2)) 10 0); [lia | eval_Q].
Defined.

(** ** QuoteGenerator: ticks and the running book *)

Lemma Math_round_near (x : Q) :
  x - (1 # 2) < JS.Math_round x /\ JS.Math_round x <= x + (1 # 2).
Proof.
  unfold JS.Math_round.
  pose proof (Qfloor_le (x + (1 # 2))) as Hle.
  pose proof (Qlt_floor (x + (1 # 2))) as Hlt.
  rewrite inject_Z_plus in Hlt. change (inject_Z 1) with 1 in Hlt.
  split; lra.
Qed.

(** A price rounded to the cent is a whole number of cents, at most half a
    cent away from the price. *)
Lemma cent_rounding (x : Q) :
  (exists cents : Z, JS.Math_round (x * 100) / 100 == inject_Z cents / 100)
  /\ Qabs (JS.Math_round (x * 100) / 100 - x) <= 0.005.
Proof.
  split.
  - exists (Qfloor (x * 100 + (1 # 2))). reflexivity.
  - destruct (Math_round_near (x * 100)) as [Hlo Hhi].
    apply Qabs_Qle_condition.
    unfold Qdiv. change (/ 100) with (1 # 100). split; lra.
Qed.

Lemma stepOnce_book this ts regime currentSign targetPrice (u : Q) :
  let this' :=
    fst (fst (QuoteGenerator.stepOnce this ts regime currentSign targetPrice u))
  in
  let tick :=
    snd (fst (QuoteGenerator.stepOnce this ts regime currentSign targetPrice u))
  in
  QuoteGenerator.bid this' + 0.01 <= QuoteGenerator.ask this'
  /\ QuoteGenerator.time tick = ts
  /\ QuoteGenerator.priceBid tick
     = JS.Math_round (QuoteGenerator.bid this' * 100) / 100
  /\ QuoteGenerator.priceAsk tick
     = JS.Math_round (QuoteGenerator.ask this' * 100) / 100.
Proof.
  unfold QuoteGenerator.stepOnce. simpl.
  split; [|repeat split].
  match goal with
  | |- _ <= Qmax ?a ?b => destruct (Qmax_cases a b) as [[H ->]|[H ->]]; lra
  end.
Qed.


(** X20.  [stepSecond] emits exactly as many ticks as the update count it
    sampled, all stamped with the step's time; every price it emits is a
    whole number of cents and every size a whole number; and with an
    update count of 0 it emits nothing and leaves the generator as it
    was. *)
Theorem stepSecond_ticks_well_formed
    (this : QuoteGenerator.t) (ts : Q) (regime : RegimeScheduler.Regime)
    (sign : RegimeScheduler.Sign) (targetPrice : option Q) (n : nat)
    (draws : nat -> Q) :
  let result :=
    QuoteGenerator.stepSecond this ts regime sign targetPrice n draws in
  length (snd result) = n
  /\ (n = 0%nat -> result = (this, []))
  /\ forall tick, In tick (snd result) ->
       QuoteGenerator.time tick = ts
       /\ (exists cents : Z,
             QuoteGenerator.priceBid tick == inject_Z cents / 100)
       /\ (exists cents : Z,
             QuoteGenerator.priceAsk tick == inject_Z cents / 100)
       /\ (exists units : Z, QuoteGenerator.sizeBid tick = inject_Z units)
       /\ (exists units : Z, QuoteGenerator.sizeAsk tick = inject_Z units).
Proof.
  intros result. subst result. unfold QuoteGenerator.stepSecond.
  split; [apply stepLoop_length|]. split; [intros ->; reflexivity|].
  intros tick Hin.
  apply stepLoop_ticks in Hin as (this' & sign' & u & _ & ->).
  destruct (stepOnce_book this' ts regime sign' targetPrice u)
    as (_ & Htime & Hbid & Hask).
  split; [exact Htime|]. rewrite Hbid, Hask.
  split; [apply cent_rounding|]. split; [apply cent_rounding|].
  split; eexists; reflexivity.
Qed.

(** X20, instance: three ticks of the two-bin model. *)
Lemma stepSecond_ticks_well_formed_witness :
  length
    (snd (QuoteGenerator.stepSecond
            (QuoteGenerator.new Examples.twoBinModel 100 100.02) 7
            ("N", "O")%string RegimeScheduler.F None 3
            (Examples.constRand (1 # 2))))
  = 3%nat
  /\ QuoteGenerator.stepSecond
       (QuoteGenerator.new Examples.twoBinModel 100 100.02) 7
       ("N", "O")%string RegimeScheduler.F None 0 (Examples.constRand (1 # 2))
     = (QuoteGenerator.new Examples.twoBinModel 100 100.02, []).
Proof.
  split.
  - apply (stepSecond_ticks_well_formed
             (QuoteGenerator.new Examples.twoBinModel 100 100.02) 7
             ("N", "O")%string RegimeScheduler.F None 3
             (Examples.constRand (1 # 2))).
  - apply (stepSecond_ticks_well_formed
             (QuoteGenerator.new Examples.twoBinModel 100 100.02) 7
             ("N", "O")%string RegimeScheduler.F None 0
             (Examples.constRand (1 # 2))).
    reflexivity.
Defined.





(** ** QuoteGenerator: the pull of the target *)

(** The blend of [biasTowardTarget] away from its early exit, with the
    factor and the step it uses. *)
Lemma biasTowardTarget_far (this : QuoteGenerator.t) (dp targetPrice : Q) :
  0 < QuoteGenerator.bid this ->
  ~ Qabs (targetPrice - QuoteGenerator.bid this)
    < QuoteGenerator.bid this * 0.001 ->
  exists factor step,
    QuoteGenerator.biasTowardTarget this dp targetPrice
    == factor * (JS.Math_sign (targetPrice - QuoteGenerator.bid this) * step)
       + (1 - factor) * dp
    /\ 0 < factor <= 0.7
    /\ 0 < step <= 0.05
    /\ step <= Qabs (targetPrice - QuoteGenerator.bid this) * 0.1.
Proof.
  intros Hpos Hfar. unfold QuoteGenerator.biasTowardTarget.
  set (current := QuoteGenerator.bid this) in *.
  set (distance := targetPrice - current) in *.
  case_Qltb (Qabs distance) (current * 0.001); [contradiction|].
  assert (Hd : 0 < Qabs distance) by lra.
  assert (Hx : 0 < Qabs distance / current * 20).
  { assert (0 < Qabs distance / current).
    { unfold Qdiv. apply Qmult_lt_0_compat; [exact Hd|].
      apply Qinv_lt_0_compat. exact Hpos. }
    lra. }
  exists (0.7 * Qmin 1.0 (Qabs distance / current * 20)),
         (Qmin 0.05 (Qabs distance * 0.1)).
  split; [reflexivity|]. split; [|split].
  - destruct (Qmin_cases 1.0 (Qabs distance / current * 20)) as [[? ->]|[? ->]];
      lra.
  - destruct (Qmin_cases 0.05 (Qabs distance * 0.1)) as [[? ->]|[? ->]]; lra.
  - destruct (Qmin_cases 0.05 (Qabs distance * 0.1)) as [[? ->]|[? ->]]; lra.
Qed.

(** X23.  With a positive bid and a model delta of 0, a biased step outside
    the 0.1% zone moves the bid strictly towards the target, by at most 3.5
    cents, and never reaches or passes the target. *)
Theorem biasTowardTarget_pulls_without_overshoot
    (this : QuoteGenerator.t) (targetPrice : Q) :
  0 < QuoteGenerator.bid this ->
  ~ Qabs (targetPrice - QuoteGenerator.bid this)
    < QuoteGenerator.bid this * 0.001 ->
  let delta := QuoteGenerator.biasTowardTarget this 0 targetPrice in
  (QuoteGenerator.bid this < targetPrice ->
   0 < delta /\ delta <= 0.035
   /\ QuoteGenerator.bid this + delta < targetPrice)
  /\ (targetPrice < QuoteGenerator.bid this ->
      delta < 0 /\ -0.035 <= delta
      /\ targetPrice < QuoteGenerator.bid this + delta).
Proof.
  intros Hpos Hfar delta.
  destruct (biasTowardTarget_far this 0 targetPrice Hpos Hfar)
    as (factor & step & Heq & Hf & Hs & Hsd).
  fold delta in Heq.
  assert (Hprod : 0 < factor * step /\ factor * step <= 0.035
                  /\ factor * step
                     <= 0.07 * Qabs (targetPrice - QuoteGenerator.bid this)).
  { split; [|split]; nra. }
  destruct Hprod as (Hp0 & Hp1 & Hp2).
  split.
  - intros Hup.
    destruct (Math_sign_cases (targetPrice - QuoteGenerator.bid this))
      as [[_ Hsign]|[[H _]|[H _]]]; [|lra|lra].
    rewrite Hsign in Heq.
    assert (Habs : Qabs (targetPrice - QuoteGenerator.bid this)
                   == targetPrice - QuoteGenerator.bid this)
      by (apply Qabs_pos; lra).
    rewrite Habs in Hp2.
    assert (Hdelta : delta == factor * step) by (rewrite Heq; ring).
    rewrite Hdelta. repeat split; lra.
  - intros Hdown.
    destruct (Math_sign_cases (targetPrice - QuoteGenerator.bid this))
      as [[H _]|[[_ Hsign]|[H _]]]; [lra| |lra].
    rewrite Hsign in Heq.
    assert (Habs : Qabs (targetPrice - QuoteGenerator.bid this)
                   == - (targetPrice - QuoteGenerator.bid this))
      by (apply Qabs_neg; lra).
    rewrite Habs in Hp2.
    assert (Hdelta : delta == - (factor * step)) by (rewrite Heq; ring).
    rewrite Hdelta. repeat split; lra.
Qed.

(** X23, instance: from 100 towards 101 the pull is 0.007. *)
Lemma biasTowardTarget_pulls_without_overshoot_witness :
  let this := QuoteGenerator.new QuoteModel.empty 100 100.02 in
  0 < QuoteGenerator.biasTowardTarget this 0 101
  /\ QuoteGenerator.bid this + QuoteGenerator.biasTowardTarget this 0 101 < 101
  /\ QuoteGenerator.biasTowardTarget this 0 101 == 0.007.
Proof.
  intros this.
  destruct (biasTowardTarget_pulls_without_overshoot this 101) as [Hup _];
    [eval_Q | vm_compute; discriminate |].
  destruct Hup as (H0 & _ & H1); [eval_Q|].
  split; [exact H0|]. split; [exact H1|]. eval_Q.
Defined.



(** ** PriceModel: what an update records *)

Section UpdateFields.

Import PriceModel.

Lemma update_other_fields this input this' out :
  update this input = Some (this', out) ->
  let handled := handleBreakoutNotifications (Spec.clocked this input) input in
  out = snd handled
  /\ notifier this' = notifier (fst handled)
  /\ hasNotifiedBreakoutStart this' = hasNotifiedBreakoutStart (fst handled)
  /\ scenario this' = scenario this
  /\ scheduler this' = scheduler this
  /\ startTime this' = startTime this
  /\ elapsedTime this' = now input - startTime this
  /\ maxBufferSize this' = maxBufferSize this
  /\ bestBid this'
     = match last (snd (Spec.stepOf this input)) with
       | Some lastTick => QuoteGenerator.priceBid lastTick
       | None => bestBid this
       end
  /\ bestAsk this'
     = match last (snd (Spec.stepOf this input)) with
       | Some lastTick => QuoteGenerator.priceAsk lastTick
       | None => bestAsk this
       end.
Proof.
  unfold update, Spec.stepOf, Spec.regimeAt.
  change {| generator := generator this; window := window this;
            buffer := buffer this; maxBufferSize := maxBufferSize this;
            scenario := scenario this; scheduler := scheduler this;
            notifier := notifier this; startTime := startTime this;
            elapsedTime := now input - startTime this;
            hasNotifiedBreakoutStart := hasNotifiedBreakoutStart this;
            pivot := pivot this; pivotBid := pivotBid this;
            pivotAsk := pivotAsk this; bestBid := bestBid this;
            bestAsk := bestAsk this |}
    with (Spec.clocked this input).
  destruct (handleBreakoutNotifications_fields (Spec.clocked this input) input)
    as (notifier' & latch & Hfields).
  destruct (handleBreakoutNotifications (Spec.clocked this input) input)
    as [this2 deliveries].
  simpl in Hfields. subst this2.
  cbn [setNotification Spec.clocked buffer maxBufferSize window pivot pivotBid
       pivotAsk scenario scheduler notifier startTime elapsedTime
       hasNotifiedBreakoutStart generator bestBid bestAsk fst snd].
  destruct (QuoteGenerator.stepSecond _ _ _ _ _ _ _) as [generator' ticks].
  cbn [fst snd]. unfold stepPrice.
  cbn [setNotification Spec.clocked buffer maxBufferSize window pivot pivotBid
       pivotAsk scenario scheduler notifier startTime elapsedTime
       hasNotifiedBreakoutStart generator bestBid bestAsk fst snd].
  destruct (last ticks) as [lastTick|];
    [|destruct (last (buffer this)) as [lastEntry|]; [|discriminate]];
    (destruct (_ =? _)%nat;
     [destruct (_ !! _) as [centre|]; [|discriminate]|]);
    intros [= <- <-]; cbn; repeat split.
Qed.

Lemma stepLoop_model ts regime targetPrice draws n :
  forall this i currentSign,
    QuoteGenerator.model
      (fst (QuoteGenerator.stepLoop this ts regime targetPrice draws n i
              currentSign))
    = QuoteGenerator.model this.
Proof.
  induction n as [|n IH]; intros this i currentSign.
  - reflexivity.
  - rewrite stepLoop_S. cbv zeta. cbn [fst]. rewrite IH.
    apply stepOnce_model.
Qed.

(** What holds of every price model reached from a constructor. *)
Lemma reached_invariant quoteModel windowSeconds this :
  Spec.reached quoteModel windowSeconds this ->
  Spec.bufferFull this
  /\ window this = windowSeconds
  /\ QuoteGenerator.model (generator this) = quoteModel
  /\ exists rand,
       scheduler this
       = RegimeScheduler.schedule RegimeScheduler.new (scenario this) rand.
Proof.
  intros (scenario0 & rand0 & now0 & ops & Hrun).
  revert this Hrun. induction ops as [|op ops IH] using rev_ind;
    intros this Hrun.
  - injection Hrun as <-. split; [apply constructor_full|].
    split; [reflexivity|]. split; [reflexivity|]. eexists. reflexivity.
  - rewrite run_snoc in Hrun.
    destruct (run (constructor quoteModel scenario0 windowSeconds rand0 now0)
                ops) as [before|] eqn:Hbefore; [|discriminate].
    destruct (IH before eq_refl) as (Hfull & Hwin & Hmodel & rand & Hsched).
    destruct op as [input|scenario rand' now'].
    + simpl in Hrun.
      destruct (update_full before input Hfull)
        as (this1 & out & entry & centre & Hupd & _ & Hw & Hfull' & _ & _ & _
            & _ & Hgen & _).
      rewrite Hupd in Hrun. simpl in Hrun. injection Hrun as <-.
      destruct (update_other_fields _ _ _ _ Hupd)
        as (_ & _ & _ & Hsc & Hsch & _).
      split; [exact Hfull'|]. split; [congruence|]. split.
      * rewrite Hgen. unfold Spec.stepOf, QuoteGenerator.stepSecond.
        rewrite stepLoop_model. exact Hmodel.
      * exists rand. rewrite Hsch, Hsc. exact Hsched.
    + simpl in Hrun. injection Hrun as <-.
      split; [apply resetWithScenario_full; exact Hfull|].
      split; [exact Hwin|]. split; [exact Hmodel|].
      exists rand'. reflexivity.
Qed.

End UpdateFields.

(** X25.  What an update records, in any price model reached from its
    constructor.  When the step makes no tick the update repeats the newest
    buffer entry and leaves the generator and the best bid and ask as they
    were.  When it makes ticks, the best bid and ask become the prices of the
    last tick and the newest buffer entry carries them. *)
Theorem update_records_last_tick
    (quoteModel : QuoteModel.t) (windowSeconds : nat)
    (this : PriceModel.t) (input : PriceModel.Input) :
  Spec.reached quoteModel windowSeconds this ->
  exists this' out newest,
    PriceModel.update this input = Some (this', out)
    /\ last (PriceModel.buffer this') = Some newest
    /\ (PriceModel.nbUpdates input = 0%nat ->
        last (PriceModel.buffer this) = Some newest
        /\ PriceModel.generator this' = PriceModel.generator this
        /\ PriceModel.bestBid this' = PriceModel.bestBid this
        /\ PriceModel.bestAsk this' = PriceModel.bestAsk this)
    /\ ((0 < PriceModel.nbUpdates input)%nat ->
        exists lastTick,
          last (snd (Spec.stepOf this input)) = Some lastTick
          /\ PriceModel.bestBid this' = QuoteGenerator.priceBid lastTick
          /\ PriceModel.bestAsk this' = QuoteGenerator.priceAsk lastTick
          /\ PriceModel.bid newest = PriceModel.bestBid this'
          /\ PriceModel.ask newest = PriceModel.bestAsk this').
Proof.
  intros Hreached.
  destruct (reached_invariant _ _ _ Hreached) as (Hfull & _).
  destruct (update_full this input Hfull)
    as (this' & out & entry & centre & Hupd & Hbuf & _ & _ & _ & _ & _ & _
        & Hgen & Hentry).
  destruct (update_other_fields _ _ _ _ Hupd)
    as (_ & _ & _ & _ & _ & _ & _ & _ & Hbid & Hask).
  exists this', out, entry. split; [exact Hupd|].
  split; [rewrite Hbuf; apply last_snoc|]. split.
  - intros Hzero.
    assert (Hstep : Spec.stepOf this input = (PriceModel.generator this, [])).
    { unfold Spec.stepOf, QuoteGenerator.stepSecond. rewrite Hzero.
      reflexivity. }
    rewrite Hstep in Hgen, Hentry, Hbid, Hask. simpl in *.
    repeat split; assumption.
  - intros Hticks.
    destruct (last (snd (Spec.stepOf this input))) as [lastTick|] eqn:Hlast.
    + exists lastTick. split; [reflexivity|].
      rewrite Hbid, Hask, Hentry. cbn [PriceModel.bid PriceModel.ask].
      repeat split.
    + exfalso. apply last_None in Hlast. apply (f_equal length) in Hlast.
      unfold Spec.stepOf, QuoteGenerator.stepSecond in Hlast.
      rewrite stepLoop_length in Hlast. simpl in Hlast. lia.
Qed.

(** X25, instance: the window-5 ranging model over the two-bin model after
    three updates; a fourth update without tick keeps the best prices. *)
Lemma update_records_last_tick_witness :
  exists this this' out,
    PriceModel.run (Examples.rangingModel Examples.twoBinModel)
      (Examples.updates 1 3) = Some this
    /\ PriceModel.update this (Examples.inputAt 0 4) = Some (this', out)
    /\ PriceModel.bestBid this' = PriceModel.bestBid this
    /\ PriceModel.bestAsk this' = PriceModel.bestAsk this.
Proof.
  destruct (PriceModel.run (Examples.rangingModel Examples.twoBinModel)
              (Examples.updates 1 3)) as [this|] eqn:Hrun;
    [|vm_compute in Hrun; discriminate Hrun].
  assert (Hreached : Spec.reached Examples.twoBinModel 5 this).
  { exists (Some MarketScenario.createRangingScenario), (Examples.constRand 0),
      0, (Examples.updates 1 3). exact Hrun. }
  destruct (update_records_last_tick Examples.twoBinModel 5 this
              (Examples.inputAt 0 4) Hreached)
    as (this' & out & newest & Hupd & _ & Hquiet & _).
  exists this, this', out. split; [reflexivity|]. split; [exact Hupd|].
  destruct (Hquiet eq_refl) as (_ & _ & Hbid & Hask). split; assumption.
Defined.

(** ** PriceModel: pivot detection *)

Lemma fold_left_Qmax_spec (xs : list Q) : forall x,
  x <= fold_left Qmax xs x
  /\ (forall y, In y xs -> y <= fold_left Qmax xs x)
  /\ (fold_left Qmax xs x == x \/ exists y, In y xs /\ fold_left Qmax xs x == y).
Proof.
  induction xs as [|y rest IH]; simpl; intros x.
  - split; [lra|]. split; [intros y []|]. left. reflexivity.
  - destruct (IH (Qmax x y)) as (H1 & H2 & H3).
    destruct (Qmax_cases x y) as [[Hle Hm]|[Hle Hm]].
    + split; [lra|]. split.
      * intros z [<-|Hz]; [lra | apply H2; exact Hz].
      * destruct H3 as [H3|(z & Hz & H3)]; [left; lra|].
        right. exists z. split; [right; exact Hz | exact H3].
    + split; [lra|]. split.
      * intros z [<-|Hz]; [lra | apply H2; exact Hz].
      * right. destruct H3 as [H3|(z & Hz & H3)].
        -- exists y. split; [left; reflexivity | lra].
        -- exists z. split; [right; exact Hz | exact H3].
Qed.

Lemma fold_left_Qmin_spec (xs : list Q) : forall x,
  fold_left Qmin xs x <= x
  /\ (forall y, In y xs -> fold_left Qmin xs x <= y)
  /\ (fold_left Qmin xs x == x \/ exists y, In y xs /\ fold_left Qmin xs x == y).
Proof.
  induction xs as [|y rest IH]; simpl; intros x.
  - split; [lra|]. split; [intros y []|]. left. reflexivity.
  - destruct (IH (Qmin x y)) as (H1 & H2 & H3).
    destruct (Qmin_cases x y) as [[Hle Hm]|[Hle Hm]].
    + split; [lra|]. split.
      * intros z [<-|Hz]; [lra | apply H2; exact Hz].
      * destruct H3 as [H3|(z & Hz & H3)]; [left; lra|].
        right. exists z. split; [right; exact Hz | exact H3].
    + split; [lra|]. split.
      * intros z [<-|Hz]; [lra | apply H2; exact Hz].
      * right. destruct H3 as [H3|(z & Hz & H3)].
        -- exists y. split; [left; reflexivity | lra].
        -- exists z. split; [right; exact Hz | exact H3].
Qed.

(** The maximum and the minimum of the mids of a non-empty buffer. *)
Lemma buffer_extrema buffer centre :
  In centre buffer ->
  exists hi lo,
    JS.Math_max_list (map PriceModel.mid buffer) = Some hi
    /\ JS.Math_min_list (map PriceModel.mid buffer) = Some lo
    /\ (forall e, In e buffer -> lo <= PriceModel.mid e <= hi)
    /\ (exists e, In e buffer /\ PriceModel.mid e == hi)
    /\ (exists e, In e buffer /\ PriceModel.mid e == lo).
Proof.
  destruct buffer as [|first rest]; [intros []|]. intros _. simpl.
  destruct (fold_left_Qmax_spec (map PriceModel.mid rest) (PriceModel.mid first))
    as (M1 & M2 & M3).
  destruct (fold_left_Qmin_spec (map PriceModel.mid rest) (PriceModel.mid first))
    as (m1 & m2 & m3).
  eexists _, _. split; [reflexivity|]. split; [reflexivity|].
  split; [|split].
  - intros e [<-|He]; [split; assumption|].
    split; [apply m2 | apply M2]; apply in_map; exact He.
  - destruct M3 as [M3|(y & Hy & M3)].
    + exists first. split; [left; reflexivity | symmetry; exact M3].
    + apply in_map_iff in Hy as (e & <- & He).
      exists e. split; [right; exact He | symmetry; exact M3].
  - destruct m3 as [m3|(y & Hy & m3)].
    + exists first. split; [left; reflexivity | symmetry; exact m3].
    + apply in_map_iff in Hy as (e & <- & He).
      exists e. split; [right; exact He | symmetry; exact m3].
Qed.

Lemma detectPivot_spec buffer centre :
  In centre buffer ->
  (PriceModel.detectPivot buffer centre = Some PriceModel.PH
   <-> forall e, In e buffer -> PriceModel.mid e <= PriceModel.mid centre)
  /\ (PriceModel.detectPivot buffer centre = Some PriceModel.PL
      <-> (forall e, In e buffer -> PriceModel.mid centre <= PriceModel.mid e)
          /\ exists e, In e buffer /\ PriceModel.mid centre < PriceModel.mid e)
  /\ (PriceModel.detectPivot buffer centre = None
      <-> (exists e, In e buffer /\ PriceModel.mid centre < PriceModel.mid e)
          /\ exists e, In e buffer /\ PriceModel.mid e < PriceModel.mid centre).
Proof.
  intros Hin.
  destruct (buffer_extrema buffer centre Hin)
    as (hi & lo & Hmax & Hmin & Hall & (eh & Heh & Hhi) & (el & Hel & Hlo)).
  unfold PriceModel.detectPivot. rewrite Hmax, Hmin. simpl.
  pose proof (Hall centre Hin) as [Hc1 Hc2].
  destruct (Qeq_bool (PriceModel.mid centre) hi) eqn:Ehi;
    [apply Qeq_bool_iff in Ehi | apply Qeq_bool_neq in Ehi];
    [|destruct (Qeq_bool (PriceModel.mid centre) lo) eqn:Elo;
      [apply Qeq_bool_iff in Elo | apply Qeq_bool_neq in Elo]].
  - split; [|split].
    + split; [|reflexivity]. intros _ e He. destruct (Hall e He). lra.
    + split; [discriminate|]. intros (_ & e & He & Hlt).
      destruct (Hall e He). lra.
    + split; [discriminate|]. intros ((e & He & Hlt) & _).
      destruct (Hall e He). lra.
  - assert (Hbelow : PriceModel.mid centre < hi).
    { destruct (Qlt_le_dec (PriceModel.mid centre) hi) as [H|H]; [exact H|].
      exfalso. apply Ehi. lra. }
    split; [|split].
    + split; [discriminate|]. intros H. specialize (H eh Heh). lra.
    + split; [|reflexivity]. intros _. split.
      * intros e He. destruct (Hall e He). lra.
      * exists eh. split; [exact Heh | lra].
    + split; [discriminate|]. intros (_ & e & He & Hlt).
      destruct (Hall e He). lra.
  - assert (Hbelow : PriceModel.mid centre < hi).
    { destruct (Qlt_le_dec (PriceModel.mid centre) hi) as [H|H]; [exact H|].
      exfalso. apply Ehi. lra. }
    assert (Habove : lo < PriceModel.mid centre).
    { destruct (Qlt_le_dec lo (PriceModel.mid centre)) as [H|H]; [exact H|].
      exfalso. apply Elo. lra. }
    split; [|split].
    + split; [discriminate|]. intros H. specialize (H eh Heh). lra.
    + split; [discriminate|]. intros (H & _). specialize (H el Hel). lra.
    + split; [|reflexivity]. intros _. split.
      * exists eh. split; [exact Heh | lra].
      * exists el. split; [exact Hel | lra].
Qed.

(** X26.  After every update of a price model reached from its constructor,
    the pivot is read off the entry at index [window] of the buffer, whose
    bid and ask it exports: it is PivotHigh exactly when no mid in the
    buffer is above the centre's, PivotLow exactly when none is below and
    some is above, and none exactly when some mid is above and some is
    below.  A centre that ties with the highest mid counts as a high. *)
Theorem update_pivot_characterised
    (quoteModel : QuoteModel.t) (windowSeconds : nat)
    (this : PriceModel.t) (input : PriceModel.Input) :
  Spec.reached quoteModel windowSeconds this ->
  exists this' out centre,
    PriceModel.update this input = Some (this', out)
    /\ PriceModel.buffer this' !! windowSeconds = Some centre
    /\ PriceModel.pivotBid this' = PriceModel.bid centre
    /\ PriceModel.pivotAsk this' = PriceModel.ask centre
    /\ (PriceModel.pivot this' = Some PriceModel.PH
        <-> forall e, In e (PriceModel.buffer this') ->
              PriceModel.mid e <= PriceModel.mid centre)
    /\ (PriceModel.pivot this' = Some PriceModel.PL
        <-> (forall e, In e (PriceModel.buffer this') ->
               PriceModel.mid centre <= PriceModel.mid e)
            /\ exists e, In e (PriceModel.buffer this')
                         /\ PriceModel.mid centre < PriceModel.mid e)
    /\ (PriceModel.pivot this' = None
        <-> (exists e, In e (PriceModel.buffer this')
                       /\ PriceModel.mid centre < PriceModel.mid e)
            /\ exists e, In e (PriceModel.buffer this')
                         /\ PriceModel.mid e < PriceModel.mid centre).
Proof.
  intros Hreached.
  destruct (reached_invariant _ _ _ Hreached) as (Hfull & Hwin & _).
  destruct (update_full this input Hfull)
    as (this' & out & entry & centre & Hupd & _ & Hw & _ & Hcentre & Hpivot
        & Hpb & Hpa & _).
  exists this', out, centre. split; [exact Hupd|].
  rewrite Hw, Hwin in Hcentre. split; [exact Hcentre|].
  split; [exact Hpb|]. split; [exact Hpa|].
  rewrite Hpivot. apply detectPivot_spec.
  apply list_elem_of_In. eapply list_elem_of_lookup_2. exact Hcentre.
Qed.

(** X26, instance: the window-5 ranging model over the two-bin model, whose
    ticks climb by a cent: after five updates the centre is the initial
    price, the lowest of the buffer and not the highest: a pivot low. *)
Lemma update_pivot_characterised_witness :
  exists this this' out,
    PriceModel.run (Examples.rangingModel Examples.twoBinModel)
      (Examples.updates 1 4) = Some this
    /\ PriceModel.update this (Examples.inputAt 1 5) = Some (this', out)
    /\ PriceModel.pivot this' = Some PriceModel.PL
    /\ exists e, In e (PriceModel.buffer this')
                 /\ PriceModel.pivotBid this' < PriceModel.bid e.
Proof.
  destruct (PriceModel.run (Examples.rangingModel Examples.twoBinModel)
              (Examples.updates 1 4)) as [this|] eqn:Hrun;
    [|vm_compute in Hrun; discriminate Hrun].
  assert (Hreached : Spec.reached Examples.twoBinModel 5 this).
  { exists (Some MarketScenario.createRangingScenario), (Examples.constRand 0),
      0, (Examples.updates 1 4). exact Hrun. }
  destruct (update_pivot_characterised Examples.twoBinModel 5 this
              (Examples.inputAt 1 5) Hreached)
    as (this' & out & centre & Hupd & Hcentre & Hpb & _ & _ & HPL & _).
  exists this, this', out. split; [reflexivity|]. split; [exact Hupd|].
  assert (Hcheck :
    match PriceModel.run (Examples.rangingModel Examples.twoBinModel)
            (Examples.updates 1 4) with
    | Some s =>
        match PriceModel.update s (Examples.inputAt 1 5) with
        | Some (s', _) =>
            match PriceModel.buffer s' !! 5%nat with
            | Some c =>
                forallb (fun e => Qle_bool (PriceModel.mid c) (PriceModel.mid e))
                  (PriceModel.buffer s')
                && existsb (fun e => JS.Qltb (PriceModel.mid c) (PriceModel.mid e)
                                     && JS.Qltb (PriceModel.bid c)
                                          (PriceModel.bid e))
                     (PriceModel.buffer s')
            | None => false
            end
        | None => false
        end
    | None => false
    end = true) by (vm_compute; reflexivity).
  rewrite Hrun, Hupd, Hcentre in Hcheck.
  apply andb_true_iff in Hcheck as [Hall Hex].
  rewrite forallb_forall in Hall.
  apply existsb_exists in Hex as (e & He & Hlt).
  apply andb_true_iff in Hlt as [Hmid Hbid].
  apply Qltb_lt in Hmid. apply Qltb_lt in Hbid.
  split.
  - apply HPL. split.
    + intros e' He'. apply Qle_bool_iff. apply Hall. exact He'.
    + exists e. split; [exact He | exact Hmid].
  - exists e. split; [exact He|].
    rewrite Hpb. exact Hbid.
Defined.

(** ** PriceModel: the notification step and resets *)

Section Notifications.

Import PriceModel.

Lemma handleBreakoutNotifications_none this input :
  MarketScenario.type (MarketScenario.breakout (scenario this))
  = MarketScenario.none
  \/ RegimeScheduler.getBreakoutEvent (scheduler this) = None ->
  handleBreakoutNotifications this input = (this, []).
Proof.
  intros Hcase. unfold handleBreakoutNotifications.
  destruct (RegimeScheduler.getBreakoutEvent (scheduler this)) as [ev|];
    [|reflexivity].
  destruct (decide _) as [_|Hne]; [reflexivity|].
  destruct Hcase as [Hnone|Hev]; [contradiction | discriminate].
Qed.

Lemma handleBreakoutNotifications_latch this input ev :
  RegimeScheduler.getBreakoutEvent (scheduler this) = Some ev ->
  MarketScenario.type (MarketScenario.breakout (scenario this))
  <> MarketScenario.none ->
  hasNotifiedBreakoutStart (fst (handleBreakoutNotifications this input))
  = RegimeScheduler.isInBreakout (scheduler this) (elapsedTime this).
Proof.
  intros Hev Htype. unfold handleBreakoutNotifications. rewrite Hev.
  destruct (decide _) as [Hnone|_]; [contradiction|].
  destruct (RegimeScheduler.isInBreakout (scheduler this) (elapsedTime this));
    destruct (hasNotifiedBreakoutStart this); simpl;
    repeat (match goal with
            | |- context [match ?x with pair _ _ => _ end] =>
                lazymatch x with
                | context [match _ with pair _ _ => _ end] => fail
                | context [if _ then _ else _] => fail
                | _ => destruct x
                end
            | |- context [if ?c then _ else _] =>
                lazymatch c with
                | context [if _ then _ else _] => fail
                | context [match _ with pair _ _ => _ end] => fail
                | _ => destruct c
                end
            end; simpl);
    reflexivity.
Qed.

End Notifications.

(** X27.  In a price model reached from its constructor, the notification
    step of an update does nothing for a scenario without breakout: it
    delivers no event and leaves the notifier and the started-latch alone.
    For a scenario with a breakout the latch after the update is what the
    scheduler's [isInBreakout] answers at the elapsed time of that update:
    true when that time lies in a breakout segment of the timeline, fake or
    main, and true as well at any time past the end of a timeline whose last
    segment is a breakout. *)
Theorem update_latch_tracks_breakout
    (quoteModel : QuoteModel.t) (windowSeconds : nat)
    (this : PriceModel.t) (input : PriceModel.Input) :
  Spec.reached quoteModel windowSeconds this ->
  exists this' out,
    PriceModel.update this input = Some (this', out)
    /\ (MarketScenario.type (MarketScenario.breakout (PriceModel.scenario this))
        = MarketScenario.none ->
        out = []
        /\ PriceModel.notifier this' = PriceModel.notifier this
        /\ PriceModel.hasNotifiedBreakoutStart this'
           = PriceModel.hasNotifiedBreakoutStart this)
    /\ (MarketScenario.type (MarketScenario.breakout (PriceModel.scenario this))
        <> MarketScenario.none ->
        PriceModel.hasNotifiedBreakoutStart this'
        = RegimeScheduler.isInBreakout (PriceModel.scheduler this')
            (PriceModel.elapsedTime this')).
Proof.
  intros Hreached.
  destruct (reached_invariant _ _ _ Hreached)
    as (Hfull & _ & _ & rand & Hsched).
  destruct (update_full this input Hfull) as (this' & out & _ & _ & Hupd & _).
  destruct (update_other_fields _ _ _ _ Hupd)
    as (Hout & Hnot & Hlatch & _ & Hsch & _ & Helapsed & _).
  cbv zeta in Hout, Hnot, Hlatch.
  exists this', out. split; [exact Hupd|]. split.
  - intros Hnone.
    rewrite (handleBreakoutNotifications_none (Spec.clocked this input) input)
      in Hout, Hnot, Hlatch by (left; exact Hnone).
    repeat split; assumption.
  - intros Hsome. rewrite Hlatch.
    assert (Hev : RegimeScheduler.getBreakoutEvent
                    (PriceModel.scheduler (Spec.clocked this input))
                  = Some (RegimeScheduler.mainBreakout
                            (PriceModel.scenario this) (rand 0%nat))).
    { simpl. rewrite Hsched. apply schedule_breakoutEvent. exact Hsome. }
    rewrite (handleBreakoutNotifications_latch _ input _ Hev Hsome).
    rewrite Hsch, Helapsed. reflexivity.
Qed.

(** X27, instance: the bullish preset with the draw at one half, window 5,
    over the empty model: at second 31 the breakout [[30, 45)] is running
    and the latch is set. *)
Lemma update_latch_tracks_breakout_witness :
  let this :=
    PriceModel.constructor QuoteModel.empty
      (Some MarketScenario.createBullishBreakout) 5
      (Examples.constRand (1 # 2)) 0 in
  exists this' out,
    PriceModel.update this (Examples.inputAt 0 31) = Some (this', out)
    /\ PriceModel.hasNotifiedBreakoutStart this' = true.
Proof.
  intros this.
  assert (Hreached : Spec.reached QuoteModel.empty 5 this).
  { exists (Some MarketScenario.createBullishBreakout),
      (Examples.constRand (1 # 2)), 0, []. reflexivity. }
  destruct (update_latch_tracks_breakout QuoteModel.empty 5 this
              (Examples.inputAt 0 31) Hreached)
    as (this' & out & Hupd & _ & Hlatch).
  exists this', out. split; [exact Hupd|].
  rewrite Hlatch by discriminate.
  destruct (update_other_fields _ _ _ _ Hupd)
    as (_ & _ & _ & _ & Hsch & _ & Helapsed & _).
  rewrite Hsch, Helapsed. vm_compute. reflexivity.
Defined.

(** X28.  In a price model reached from its constructor,
    [resetWithScenario] sets the scenario, the scheduler, the generator, the
    buffer, the best and pivot prices, the pivot, the clock fields and the
    started-latch to what the constructor sets them to for the same quote
    model, window and scenario (so no breakout event of the old schedule
    survives, and the generator keeps its quote model); the window and the
    capacity stay; and the notifier is the old one reset, its listeners
    still subscribed.  (The exchange-quote fields [exchangeGen] and
    [lastExchangeQuotes], whose class is not among the sources, are outside
    the model; [resetWithScenario] does not assign them.) *)
Theorem resetWithScenario_restarts
    (quoteModel : QuoteModel.t) (windowSeconds : nat) (this : PriceModel.t)
    (scenario : MarketScenario.t) (rand : nat -> Q) (now : Q) :
  Spec.reached quoteModel windowSeconds this ->
  let after := PriceModel.resetWithScenario this scenario rand now in
  let fresh :=
    PriceModel.constructor quoteModel (Some scenario) windowSeconds rand now in
  PriceModel.scenario after = PriceModel.scenario fresh
  /\ PriceModel.scheduler after = PriceModel.scheduler fresh
  /\ RegimeScheduler.getBreakoutEvent (PriceModel.scheduler after)
     = RegimeScheduler.mainEvent scenario rand
  /\ PriceModel.generator after = PriceModel.generator fresh
  /\ PriceModel.buffer after = PriceModel.buffer fresh
  /\ PriceModel.bestBid after = PriceModel.bestBid fresh
  /\ PriceModel.bestAsk after = PriceModel.bestAsk fresh
  /\ PriceModel.pivot after = None
  /\ PriceModel.pivotBid after = PriceModel.pivotBid fresh
  /\ PriceModel.pivotAsk after = PriceModel.pivotAsk fresh
  /\ PriceModel.startTime after = now
  /\ PriceModel.elapsedTime after = 0
  /\ PriceModel.hasNotifiedBreakoutStart after = false
  /\ PriceModel.window after = PriceModel.window this
  /\ PriceModel.maxBufferSize after = PriceModel.maxBufferSize this
  /\ PriceModel.notifier after
     = BreakoutNotifier.reset (PriceModel.notifier this)
  /\ BreakoutNotifier.listeners (PriceModel.notifier after)
     = BreakoutNotifier.listeners (PriceModel.notifier this).
Proof.
  intros Hreached after fresh.
  destruct (reached_invariant _ _ _ Hreached)
    as ([Hmax _] & Hwin & Hmodel & _).
  subst after fresh.
  unfold PriceModel.resetWithScenario, PriceModel.constructor.
  cbn [PriceModel.scenario PriceModel.scheduler PriceModel.generator
       PriceModel.buffer PriceModel.bestBid PriceModel.bestAsk
       PriceModel.pivot PriceModel.pivotBid PriceModel.pivotAsk
       PriceModel.startTime PriceModel.elapsedTime
       PriceModel.hasNotifiedBreakoutStart PriceModel.window
       PriceModel.maxBufferSize PriceModel.notifier default].
  rewrite Hmodel, Hmax, Hwin.
  repeat split; try reflexivity.
  unfold RegimeScheduler.getBreakoutEvent, RegimeScheduler.schedule.
  destruct (RegimeScheduler.buildSegments _ _ _) as [segments currentTime].
  cbn. destruct (RegimeScheduler.mainEvent scenario rand); reflexivity.
Qed.

(** X28, instance: the ranging model, one update, then a reset to the
    bullish preset. *)
Lemma resetWithScenario_restarts_witness :
  exists this,
    PriceModel.run (Examples.rangingModel Examples.twoBinModel)
      (Examples.updates 1 1) = Some this
    /\ PriceModel.buffer
         (PriceModel.resetWithScenario this
            MarketScenario.createBullishBreakout (Examples.constRand 0) 9)
       = PriceModel.buffer
           (PriceModel.constructor Examples.twoBinModel
              (Some MarketScenario.createBullishBreakout) 5
              (Examples.constRand 0) 9).
Proof.
  destruct (PriceModel.run (Examples.rangingModel Examples.twoBinModel)
              (Examples.updates 1 1)) as [this|] eqn:Hrun;
    [|vm_compute in Hrun; discriminate Hrun].
  exists this. split; [reflexivity|].
  assert (Hreached : Spec.reached Examples.twoBinModel 5 this).
  { exists (Some MarketScenario.createRangingScenario), (Examples.constRand 0),
      0, (Examples.updates 1 1). exact Hrun. }
  destruct (resetWithScenario_restarts Examples.twoBinModel 5 this
              MarketScenario.createBullishBreakout (Examples.constRand 0) 9
              Hreached) as (_ & _ & _ & _ & Hbuffer & _).
  exact Hbuffer.
Defined.

(** ** App: the scenario of a difficulty level *)

Section AppScenario.

Lemma level_scenario_fields (level u : Q) :
  let scenario := App.createScenarioForLevel level u in
  MarketScenario.startPrice scenario = 100.0
  /\ MarketScenario.duration scenario = 60
  /\ MarketScenario.advanced scenario = None
  /\ MarketScenario.type (MarketScenario.breakout scenario)
     = (if JS.Qltb 0.5 u then MarketScenario.bullish else MarketScenario.bearish)
  /\ MarketScenario.timeWindow (MarketScenario.breakout scenario)
     = (15, 45 - Qmin (level * 2) 20)
  /\ MarketScenario.magnitude (MarketScenario.breakout scenario)
     = Qmax 0.3 (1.5 - level * 0.1)
  /\ MarketScenario.speed (MarketScenario.breakout scenario)
     = MarketScenario.gradual
  /\ MarketScenario.notification (MarketScenario.breakout scenario) = false.
Proof.
  unfold App.createScenarioForLevel.
  destruct (JS.Qltb 0.5 u); cbn; repeat split; reflexivity.
Qed.


Lemma mainBreakout_fields scenario (u : Q) :
  let event := RegimeScheduler.mainBreakout scenario u in
  let breakout := MarketScenario.breakout scenario in
  RegimeScheduler.BreakoutEvent.type event = MarketScenario.type breakout
  /\ RegimeScheduler.BreakoutEvent.targetPrice event
     = MarketScenario.startPrice scenario
       * (1 + MarketScenario.magnitude breakout / 100)
  /\ RegimeScheduler.BreakoutEvent.endTime event
     = Qmin (RegimeScheduler.BreakoutEvent.startTime event
             + RegimeScheduler.calculateBreakoutDuration
                 (MarketScenario.speed breakout)
                 (Qabs (MarketScenario.magnitude breakout)))
            (MarketScenario.duration scenario).
Proof.
  unfold RegimeScheduler.mainBreakout.
  destruct (MarketScenario.timeWindow (MarketScenario.breakout scenario))
    as [minTime maxTime].
  cbn. repeat split; reflexivity.
Qed.

(** X29.  The scenario [createScenarioForLevel] builds for a level [>= 0],
    once scheduled: the timeline partitions the 60 seconds; a breakout of
    the drawn type is recorded, it starts between second 15 and second 45,
    and its target lies ABOVE the start price of 100 also when the type is
    bearish, because the same positive magnitude is passed to both
    factories.  From level 1 on (the levels the app asks for) the breakout
    is not cut short: it lasts [10 + 5 * magnitude] seconds, which ends it
    no later than second 60. *)
Theorem createScenarioForLevel_scheduled
    (this : RegimeScheduler.t) (level u : Q) (rand : nat -> Q) :
  0 <= level -> 0 <= rand 0%nat < 1 ->
  let scenario := App.createScenarioForLevel level u in
  let scheduler := RegimeScheduler.schedule this scenario rand in
  Timeline.partitions 60 (RegimeScheduler.timeline scheduler)
  /\ exists event,
       RegimeScheduler.getBreakoutEvent scheduler = Some event
       /\ RegimeScheduler.BreakoutEvent.type event
          = (if JS.Qltb 0.5 u
             then MarketScenario.bullish else MarketScenario.bearish)
       /\ 100 < RegimeScheduler.BreakoutEvent.targetPrice event
       /\ 15 <= RegimeScheduler.BreakoutEvent.startTime event <= 45
       /\ (1 <= level ->
           RegimeScheduler.BreakoutEvent.endTime event
           == RegimeScheduler.BreakoutEvent.startTime event
              + (10 + 5 * Qmax 0.3 (1.5 - level * 0.1))
           /\ RegimeScheduler.BreakoutEvent.endTime event <= 60).
Proof.
  intros Hlevel Hu scenario scheduler.
  destruct (level_scenario_fields level u)
    as (Hprice & Hduration & Hadvanced & Htype & Hwindow & Hmagnitude
        & Hspeed & _).
  fold scenario in Hprice, Hduration, Hadvanced, Htype, Hwindow, Hmagnitude,
    Hspeed.
  assert (Hsome : MarketScenario.type (MarketScenario.breakout scenario)
                  <> MarketScenario.none).
  { rewrite Htype. destruct (JS.Qltb 0.5 u); discriminate. }
  destruct (Qmin_cases (level * 2) 20) as [[Hm1 Hm2]|[Hm1 Hm2]];
  destruct (Qmax_cases 0.3 (1.5 - level * 0.1)) as [[Hx1 Hx2]|[Hx1 Hx2]].
  all: pose proof (mainBreakout_startTime scenario (rand 0%nat) Hu) as Hstart;
    rewrite Hwindow in Hstart; cbn [fst snd] in Hstart;
    destruct Hstart as (Hs1 & Hs2 & Hs3); [lra|].
  all: split;
    [ unfold scheduler; rewrite <- Hduration; apply separated_partitions;
      apply separated_single_breakout;
      [ unfold RegimeScheduler.fakeBreakoutsOf; rewrite Hadvanced; reflexivity
      | rewrite Hwindow; cbn [fst]; lra
      | rewrite Hwindow; cbn [fst snd]; lra
      | rewrite Hwindow, Hduration; cbn [snd]; lra
      | exact Hu ]
    | ].
  all: exists (RegimeScheduler.mainBreakout scenario (rand 0%nat)).
  all: split; [apply schedule_breakoutEvent; exact Hsome|].
  all: destruct (mainBreakout_fields scenario (rand 0%nat))
         as (Etype & Etarget & Eend).
  all: cbv zeta in Etype, Etarget, Eend.
  all: rewrite Etype, Etarget, Eend, Hprice, Hmagnitude, Hspeed, Hduration.
  all: split; [exact Htype|].
  all: set (start := RegimeScheduler.BreakoutEvent.startTime
                       (RegimeScheduler.mainBreakout scenario (rand 0%nat)))
         in *.
  all: set (magnitude := Qmax 0.3 (1.5 - level * 0.1)) in *.
  all: split; [unfold Qdiv; change (/ 100) with (1 # 100); lra|].
  all: split; [lra|].
  all: intros Hone.
  all: cbn [RegimeScheduler.calculateBreakoutDuration].
  all: destruct (Qabs_cases magnitude) as [[Ha1 Ha2]|[Ha1 Ha2]]; [|lra].
  all: destruct (Qmin_cases 30 (10 + Qabs magnitude * 5))
         as [[Hb1 Hb2]|[Hb1 Hb2]]; [lra|].
  all: destruct (Qmax_cases 8 (Qmin 30 (10 + Qabs magnitude * 5)))
         as [[Hc1 Hc2]|[Hc1 Hc2]]; [lra|].
  all: assert (Hlt : start < 45 - Qmin (level * 2) 20) by (apply Hs3; lra).
  all: destruct (Qmin_cases
                   (start + Qmax 8 (Qmin 30 (10 + Qabs magnitude * 5))) 60)
         as [[Hd1 Hd2]|[Hd1 Hd2]]; [|lra].
  all: split; lra.
Qed.


(** X29, instance: level 3 with a bearish draw; the recorded bearish
    breakout targets a price above 100. *)
Lemma createScenarioForLevel_scheduled_witness :
  0 <= 3
  /\ 0 <= Examples.constRand (1 # 2) 0%nat < 1
  /\ exists event,
       RegimeScheduler.getBreakoutEvent
         (RegimeScheduler.schedule RegimeScheduler.new
            (App.createScenarioForLevel 3 (1 # 4))
            (Examples.constRand (1 # 2))) = Some event
       /\ RegimeScheduler.BreakoutEvent.type event = MarketScenario.bearish
       /\ 100 < RegimeScheduler.BreakoutEvent.targetPrice event.
Proof.
  assert (Hlevel : 0 <= 3) by eval_Q.
  assert (Hu : 0 <= Examples.constRand (1 # 2) 0%nat < 1) by eval_Q.
  split; [exact Hlevel|]. split; [exact Hu|].
  destruct (createScenarioForLevel_scheduled RegimeScheduler.new 3 (1 # 4)
              (Examples.constRand (1 # 2)) Hlevel Hu)
    as (_ & event & Hevent & Htype & Htarget & _).
  exists event. split; [exact Hevent|]. split; [exact Htype | exact Htarget].
Defined.

End AppScenario.

(** ** App: difficulty levels *)

Section Levels.

Import App.

(** X30.  For every numeric XP, the level index [loadModel] computes with
    [findIndex] and the level [getCurrentLevel] finds by scanning from the
    top agree: both give the highest level whose requirement is met (the
    first level when XP is negative), so the index lies between 0 and 5,
    the level's requirement is at most a non-negative XP, and the next
    level's requirement, if there is a next level, is above it.  For an XP
    of NaN, which [parseInt] answers on a corrupt stored entry, they
    disagree: no comparison holds, so [findIndex] finds no level and the
    index is that of the last level, 5, while [getCurrentLevel] falls
    through to the first level. *)
Theorem currentLevelIndex_getCurrentLevel (xp : Xp) :
  match xp with
  | Some x =>
      exists level,
        DIFFICULTY_LEVELS !! Z.to_nat (currentLevelIndex xp) = Some level
        /\ getCurrentLevel xp = Some level
        /\ (0 <= currentLevelIndex xp <= 5)%Z
        /\ (0 <= x -> DifficultyLevel.xpRequired level <= x)
        /\ (forall next,
              DIFFICULTY_LEVELS !! S (Z.to_nat (currentLevelIndex xp))
              = Some next ->
              x < DifficultyLevel.xpRequired next)
  | None =>
      currentLevelIndex xp = 5%Z
      /\ getCurrentLevel xp = DIFFICULTY_LEVELS !! 0%nat
  end.
Proof.
  destruct xp as [xp|]; [|split; reflexivity].
  unfold currentLevelIndex, getCurrentLevel, findIndex.
  cbn [DIFFICULTY_LEVELS findIndexFrom getCurrentLevelFrom rev app length
       DifficultyLevel.xpRequired head xpBelow xpAtLeast].
  case_Qltb xp 0; [|case_Qltb xp 50; [|case_Qltb xp 150; [|case_Qltb xp 300;
    [|case_Qltb xp 500; [|case_Qltb xp 800]]]]].
  all: case_Qle 800 xp; try lra.
  all: case_Qle 500 xp; try lra.
  all: case_Qle 300 xp; try lra.
  all: case_Qle 150 xp; try lra.
  all: case_Qle 50 xp; try lra.
  all: case_Qle 0 xp; try lra.
  all: eexists; split; [cbn; reflexivity|].
  all: split; [reflexivity|].
  all: split; [vm_compute; split; discriminate|].
  all: split; [cbn; intros; lra|].
  all: cbn; intros next Hnext; try discriminate.
  all: injection Hnext as <-; cbn; lra.
Qed.

(** X30, instance: 200 XP is the third level, with 300 XP for the next. *)
Lemma currentLevelIndex_getCurrentLevel_witness :
  exists level,
    getCurrentLevel (Some 200) = Some level
    /\ DifficultyLevel.name level = "difficulty.intermediate"%string
    /\ currentLevelIndex (Some 200) = 2%Z.
Proof.
  pose proof (currentLevelIndex_getCurrentLevel (Some 200)) as H.
  cbv beta iota in H. destruct H as (level & Hindex & Hlevel & _).
  exists level. split; [exact Hlevel|].
  split; [|reflexivity].
  vm_compute in Hindex. injection Hindex as <-. reflexivity.
Defined.

End Levels.
